(** * Willovate Services: order engine, table view, plan expiry, coupons

    A shallow embedding of the Express/Prisma route handlers of the
    restaurant back end:

    - [routes/order]  (POST /, GET /, GET /:orderId, PUT /:orderId,
      PATCH /:orderId/status, PATCH /:orderId/items/:productId/status,
      PATCH /:orderId/complete-all),
    - [routes/table]  (GET /:businessId),
    - [routes/plan]   (GET /subscription/status/:businessId, GET /plan),
    - [routes/coupons] (POST /validate).

    Conventions of the embedding.

    - The relational store is a record of tables, every table a list of
      rows in insertion order.  Every [await prisma.model.op(...)] is one
      primitive of the [Prisma] monad below: it appends the call to a
      log, may change the store, and may throw.  A throw keeps the
      writes made before it (the handlers open no transaction) and is
      turned into the handler's 500 answer by [tryCatch].
    - INTEGER columns, ids and timestamps (milliseconds) are [Z];
      DOUBLE PRECISION columns and JSON money amounts are exact
      rationals [Q], so rounding and NaN are outside the model.
    - A request body field is a value of the kind the handler expects,
      or absent ([None]).  JavaScript truthiness is written out: a
      number is truthy when non-zero, a string when non-empty, an array
      always, an absent field never.
    - Path parameters are taken after [parseInt]/[Number]. *)

From Stdlib Require Import ZArith QArith Qround String Ascii List Bool Lia.
From Stdlib Require Import Qminmax Permutation Sorted DecimalString.
Import ListNotations.

Local Open Scope string_scope.
Local Open Scope Z_scope.

(** ** JavaScript helpers *)

Definition truthyZ (v : option Z) : bool :=
  match v with Some n => negb (n =? 0) | None => false end.

Definition Qnonzero (q : Q) : bool := negb (Qeq_bool q 0).

Definition truthyQ (v : option Q) : bool :=
  match v with Some q => Qnonzero q | None => false end.

Definition nonEmpty (s : string) : bool := negb (String.eqb s "").

Definition truthyStr (v : option string) : bool :=
  match v with Some s => nonEmpty s | None => false end.

(** [a < b] on numbers. *)
Definition Qltb (a b : Q) : bool := negb (Qle_bool b a).

(** [a || b || c] on optional strings: the first truthy one. *)
Definition orElse (a b : option string) : option string :=
  if truthyStr a then a else b.

(** [n.toString()] for an integer. *)
Definition toString (n : Z) : string := NilZero.string_of_int (Z.to_int n).

Fixpoint repeatString (n : nat) (s : string) : string :=
  match n with
  | O => ""
  | S k => s ++ repeatString k s
  end.

(** [s.padStart(targetLength, padString)]. *)
Definition padStart (targetLength : nat) (padString s : string) : string :=
  let len := String.length s in
  if (targetLength <=? len)%nat || (String.length padString =? 0)%nat then s
  else
    let fillLen := (targetLength - len)%nat in
    substring 0 fillLen (repeatString fillLen padString) ++ s.

(** The template [`ORD${id.toString().padStart(5, "0")}`]. *)
Definition orderTag (id : Z) : string := "ORD" ++ padStart 5 "0" (toString id).

Definition upperAscii (c : ascii) : ascii :=
  let n := nat_of_ascii c in
  if ((97 <=? n) && (n <=? 122))%nat then ascii_of_nat (n - 32) else c.

(** [s.toUpperCase()], on the ASCII letters. *)
Fixpoint toUpperCase (s : string) : string :=
  match s with
  | EmptyString => EmptyString
  | String c r => String (upperAscii c) (toUpperCase r)
  end.

(** [Array.prototype.find]. *)
Definition jsFind {A} (p : A -> bool) (l : list A) : option A := List.find p l.

(** Ordering of a [findMany] result by an integer key, ascending; rows
    with equal keys keep their table order. *)
Fixpoint insertBy {A} (key : A -> Z) (x : A) (l : list A) : list A :=
  match l with
  | [] => [x]
  | y :: l' => if key x <=? key y then x :: l else y :: insertBy key x l'
  end.

Definition sortBy {A} (key : A -> Z) (l : list A) : list A :=
  fold_right (insertBy key) [] l.

(** ** Tables of the store (prisma schema) *)

Module Customer.
Record t := mk {
  id : Z;
  customerId : Z;
  businessId : Z;
  totalOrders : Z;
  totalMoneySpent : Q;
  points : Z
}.
End Customer.

Module Ingredient.
(** An entry of [metadata.ingredients]; [quantity] is [Number(ing.quantity)],
    [None] when that is NaN. *)
Record t := mk {
  name : string;
  quantity : option Q
}.
End Ingredient.

Module Product.
(** [ingredients] is [metadata?.ingredients] after the JSON decoding of
    the handler; [None] when there is no metadata, the JSON does not
    parse, or the key is missing. *)
Record t := mk {
  id : Z;
  businessId : Z;
  price : Q;
  ingredients : option (list Ingredient.t)
}.
End Product.

Module InventoryItem.
Record t := mk {
  id : Z;
  name : string;
  quantity : Q;
  businessId : Z
}.
End InventoryItem.

Module Table.
Record t := mk {
  id : Z;
  tableNumber : Z;
  businessId : Z;
  isBooked : bool
}.
End Table.

Module Order.
Record t := mk {
  id : Z;
  businessId : Z;
  customerId : option Z;
  tableNumber : Z;
  totalAmount : option Q;
  paymentMethod : string;
  estimatedTime : option string;
  status : string;
  createdAt : Z
}.

Definition withStatus (s : string) (o : t) : t :=
  mk (id o) (businessId o) (customerId o) (tableNumber o) (totalAmount o)
     (paymentMethod o) (estimatedTime o) s (createdAt o).
End Order.

Module OrderItem.
Record t := mk {
  id : Z;
  orderId : Z;
  productId : Z;
  quantity : Z;
  price : Q;
  name : string;
  status : string
}.

Definition withStatus (s : string) (i : t) : t :=
  mk (id i) (orderId i) (productId i) (quantity i) (price i) (name i) s.
End OrderItem.

Module Plan.
Record t := mk {
  id : Z;
  businessId : Z;
  name : string;
  expiresAt : Z;
  status : string
}.

Definition withStatus (s : string) (p : t) : t :=
  mk (id p) (businessId p) (name p) (expiresAt p) s.
End Plan.

Module Coupon.
Record t := mk {
  id : Z;
  code : string;
  discountType : string;
  discountValue : Q;
  maxDiscount : option Q;
  minOrderValue : Q;
  validFrom : Z;
  validTill : Z;
  usageLimit : Z;
  usedCount : Z;
  businessId : Z
}.
End Coupon.

(** The store.  [businesses] holds the ids of the Business rows (the
    target of the foreign keys); [nextOrderId] and [nextOrderItemId] are
    the SERIAL sequences of the two tables that handlers insert into. *)
Record Db := mkDb {
  businesses : list Z;
  customers : list Customer.t;
  products : list Product.t;
  inventoryItems : list InventoryItem.t;
  tables : list Table.t;
  orders : list Order.t;
  orderItems : list OrderItem.t;
  plans : list Plan.t;
  coupons : list Coupon.t;
  nextOrderId : Z;
  nextOrderItemId : Z
}.

Definition setCustomers (v : list Customer.t) (d : Db) : Db :=
  mkDb (businesses d) v (products d) (inventoryItems d) (tables d) (orders d)
       (orderItems d) (plans d) (coupons d) (nextOrderId d) (nextOrderItemId d).

Definition setInventoryItems (v : list InventoryItem.t) (d : Db) : Db :=
  mkDb (businesses d) (customers d) (products d) v (tables d) (orders d)
       (orderItems d) (plans d) (coupons d) (nextOrderId d) (nextOrderItemId d).

Definition setOrders (v : list Order.t) (d : Db) : Db :=
  mkDb (businesses d) (customers d) (products d) (inventoryItems d) (tables d) v
       (orderItems d) (plans d) (coupons d) (nextOrderId d) (nextOrderItemId d).

Definition setOrderItems (v : list OrderItem.t) (d : Db) : Db :=
  mkDb (businesses d) (customers d) (products d) (inventoryItems d) (tables d)
       (orders d) v (plans d) (coupons d) (nextOrderId d) (nextOrderItemId d).

Definition setPlans (v : list Plan.t) (d : Db) : Db :=
  mkDb (businesses d) (customers d) (products d) (inventoryItems d) (tables d)
       (orders d) (orderItems d) v (coupons d) (nextOrderId d) (nextOrderItemId d).

(** ** The Prisma monad *)

Inductive DbCall :=
| order_create | order_findMany | order_findUnique | order_update
| orderItem_findMany | orderItem_deleteMany | orderItem_updateMany
| customer_findUnique | customer_update
| product_findUnique | inventoryItem_updateMany
| table_findMany
| plan_findUnique | plan_update
| coupon_findFirst.

Record World := mkWorld {
  db : Db;
  log : list DbCall
}.

(** A computation over the store; [None] is a thrown exception. *)
Definition Prisma (A : Type) : Type := World -> World * option A.

Definition ret {A} (a : A) : Prisma A := fun w => (w, Some a).

Definition throw {A} : Prisma A := fun w => (w, None).

Definition bind {A B} (m : Prisma A) (k : A -> Prisma B) : Prisma B :=
  fun w =>
    match m w with
    | (w', Some a) => k a w'
    | (w', None) => (w', None)
    end.

Declare Scope prisma_scope.
Delimit Scope prisma_scope with prisma.
Notation "x <- m ;; k" := (bind m (fun x => k))
  (at level 100, m at next level, right associativity) : prisma_scope.
Notation "m ;; k" := (bind m (fun _ => k))
  (at level 100, right associativity) : prisma_scope.
Local Open Scope prisma_scope.

(** One [await prisma....]: logged, then run against the store. *)
Definition call {A} (c : DbCall) (f : Db -> option (Db * A)) : Prisma A :=
  fun w =>
    let l := (log w ++ [c])%list in
    match f (db w) with
    | Some (d, a) => (mkWorld d l, Some a)
    | None => (mkWorld (db w) l, None)
    end.

(** A read-only query. *)
Definition query {A} (c : DbCall) (f : Db -> A) : Prisma A :=
  call c (fun d => Some (d, f d)).

(** [for (const x of l) { await body(x) }]. *)
Fixpoint forEach {A} (l : list A) (body : A -> Prisma unit) : Prisma unit :=
  match l with
  | [] => ret tt
  | x :: r => body x ;; forEach r body
  end.

(** ** Requests and responses *)

Module Payload.
(** The object returned by [jwt.verify], restricted to the two keys
    the handlers read.  A key the token does not carry is [None]. *)
Record t := mk {
  id : option Z;
  businessId : option Z
}.
End Payload.

(** The three outcomes of reading the Authorization header: no
    [Bearer ] prefix, a token that [jwt.verify] rejects, a verified one. *)
Inductive Authorization :=
| NoBearer
| BadToken
| Verified (payload : Payload.t).

Module CartItem.
Record t := mk {
  productId : Z;
  quantity : Z;
  price : Q;
  name : string;
  status : option string
}.
End CartItem.

Module OrderBody.
(** [req.body] of POST / and PUT /:orderId. *)
Record t := mk {
  businessId : option Z;
  table_number : option Z;
  cart_items : option (list CartItem.t);
  total_amount : option Q;
  payment_method : option string;
  estimated_time : option string;
  pointsUsed : option Z
}.
End OrderBody.

Module ItemData.
(** One object of a nested [items: { create: [...] }]. *)
Record t := mk {
  productId : Z;
  quantity : Z;
  price : Q;
  name : string;
  status : string
}.
End ItemData.

Module OrderView.
(** The order object of the read answers.  GET / sends every key in
    both spellings ([tableNumber] and [table_number], ...); GET
    /:orderId sends the same keys without [id]. *)
Record t := mk {
  id : Z;
  order_id : string;
  table_number : Z;
  total_amount : option Q;
  payment_method : string;
  status : string;
  estimated_time : option string;
  created_at : Z;
  items : list OrderItem.t
}.
End OrderView.

Module TableView.
Record t := mk {
  id : Z;
  tableNumber : Z;
  status : string
}.
End TableView.

Inductive Body :=
| BMessage (message : string)
| BError (error : string)
| BOrderCreated (order_id : string) (table_number : Z) (status : string)
    (message : string) (estimated_time : option string) (created_at : Z)
    (items : list OrderItem.t)
| BOrders (formatted : list OrderView.t)
| BOrder (order : OrderView.t)
| BOrderUpdated (order_id : string) (table_number : Z) (total_amount : option Q)
    (payment_method : string) (status : string) (estimated_time : option string)
    (items : list OrderItem.t) (message : string)
| BOrderStatus (order_id : string) (status : string) (message : string)
| BItemStatus (message : string) (productId : Z) (status : option string)
    (orderStatus : string)
| BCompleteAll (message : string) (orderStatus : string)
| BTables (tables : list TableView.t)
| BSubscription (subscription : Plan.t) (displayStatus : string)
    (isVerified : bool) (isExpired : bool)
| BPlan (plan : Plan.t) (displayStatus : string) (isExpired : bool)
| BCoupon (message : string) (discount : Q) (id : Z) (code : string)
    (type : string) (value : Q)
| BMinimumOrderValue (minOrderValue : Q).

Record Response := mkResponse {
  statusCode : Z;
  body : Body
}.

(** [try { ... } catch (error) { res.status(500).json(...) }]. *)
Definition tryCatch (h : Prisma Response) (onError : Response)
  : World -> World * Response :=
  fun w =>
    match h w with
    | (w', Some r) => (w', r)
    | (w', None) => (w', onError)
    end.

(** The middleware of the owner-side routes. *)
Definition authenticateBusinessOwnerJWT
    (auth : Authorization) (next : Payload.t -> World -> World * Response)
  : World -> World * Response :=
  match auth with
  | NoBearer => fun w => (w, mkResponse 401 (BError "Authorization token missing"))
  | BadToken => fun w => (w, mkResponse 403 (BError "Invalid or expired token"))
  | Verified payload => next payload
  end.

(** ** Prisma primitives used by the order routes *)

Definition businessExists (d : Db) (b : Z) : bool :=
  existsb (Z.eqb b) (businesses d).

Definition customerExists (d : Db) (c : Z) : bool :=
  existsb (fun x => Customer.id x =? c) (customers d).

Definition productExists (d : Db) (p : Z) : bool :=
  existsb (fun x => Product.id x =? p) (products d).

(** The rows of [order_items] with the given [orderId]: what
    [include: { items: true }] and [orderItem.findMany] return. *)
Definition itemsOf (d : Db) (orderId : Z) : list OrderItem.t :=
  filter (fun i => OrderItem.orderId i =? orderId) (orderItems d).

Definition findOrder (d : Db) (orderId : Z) : option Order.t :=
  find (fun o => Order.id o =? orderId) (orders d).

(** Rows inserted for a nested create, ids taken from the sequence. *)
Fixpoint insertItems (orderId next : Z) (data : list ItemData.t)
  : list OrderItem.t :=
  match data with
  | [] => []
  | x :: r =>
      OrderItem.mk next orderId (ItemData.productId x) (ItemData.quantity x)
        (ItemData.price x) (ItemData.name x) (ItemData.status x)
      :: insertItems orderId (next + 1) r
  end.

(** The foreign keys of a nested item create. *)
Definition itemsReferToProducts (d : Db) (data : list ItemData.t) : bool :=
  forallb (fun x => productExists d (ItemData.productId x)) data.

(** Update of the row selected by a unique key; [None] (record not
    found) when no row matches. *)
Fixpoint updateFirst {A} (p : A -> bool) (f : A -> A) (l : list A)
  : option (list A) :=
  match l with
  | [] => None
  | x :: r =>
      if p x then Some (f x :: r)
      else match updateFirst p f r with
           | Some r' => Some (x :: r')
           | None => None
           end
  end.

(** [updateMany]: every matching row. *)
Definition updateWhere {A} (p : A -> bool) (f : A -> A) (l : list A) : list A :=
  map (fun x => if p x then f x else x) l.

(** [prisma.order.create] with nested items and [include: { items: true }].
    The header and its items are one statement: a foreign-key failure
    (business, customer, product) throws and inserts nothing. *)
Definition prisma_order_create
    (tableNumber : Z) (totalAmount : Q) (paymentMethod estimatedTime status : string)
    (businessId : Z) (customerId : option Z) (items : list ItemData.t) (now : Z)
  : Prisma (Order.t * list OrderItem.t) :=
  call order_create (fun d =>
    if businessExists d businessId
       && match customerId with Some c => customerExists d c | None => true end
       && itemsReferToProducts d items
    then
      let o := Order.mk (nextOrderId d) businessId customerId tableNumber
                 (Some totalAmount) paymentMethod (Some estimatedTime) status now in
      let rows := insertItems (nextOrderId d) (nextOrderItemId d) items in
      let d' := mkDb (businesses d) (customers d) (products d) (inventoryItems d)
                  (tables d) (orders d ++ [o])%list (orderItems d ++ rows)%list
                  (plans d) (coupons d) (nextOrderId d + 1)
                  (nextOrderItemId d + Z.of_nat (length items)) in
      Some (d', (o, itemsOf d' (Order.id o)))
    else None).

Definition prisma_order_findUnique (orderId : Z) : Prisma (option Order.t) :=
  query order_findUnique (fun d => findOrder d orderId).

Definition prisma_order_findUnique_items (orderId : Z)
  : Prisma (option (Order.t * list OrderItem.t)) :=
  query order_findUnique (fun d =>
    match findOrder d orderId with
    | Some o => Some (o, itemsOf d orderId)
    | None => None
    end).

(** [prisma.order.update({ where: { id }, data: { status } })]; an
    [undefined] status writes nothing. *)
Definition prisma_order_update_status (orderId : Z) (status : option string)
  : Prisma (Order.t * list OrderItem.t) :=
  call order_update (fun d =>
    let f o := match status with Some s => Order.withStatus s o | None => o end in
    match updateFirst (fun o => Order.id o =? orderId) f (orders d) with
    | Some os =>
        let d' := setOrders os d in
        match findOrder d' orderId with
        | Some o => Some (d', (o, itemsOf d' orderId))
        | None => None
        end
    | None => None
    end).

Definition orElseZ (a : option Z) (b : Z) : Z :=
  match a with Some x => x | None => b end.

(** The [data] of the order update of PUT: the four header columns
    ([undefined] leaves a column as it is) and a nested item create.
    The status column is not part of [data]. *)
Definition prisma_order_update_replace
    (orderId : Z) (tableNumber : option Z) (totalAmount : option Q)
    (paymentMethod estimatedTime : option string) (items : list ItemData.t)
  : Prisma (Order.t * list OrderItem.t) :=
  call order_update (fun d =>
    let f o :=
      Order.mk (Order.id o) (Order.businessId o) (Order.customerId o)
        (orElseZ tableNumber (Order.tableNumber o))
        (match totalAmount with Some q => Some q | None => Order.totalAmount o end)
        (match paymentMethod with Some s => s | None => Order.paymentMethod o end)
        (match estimatedTime with Some s => Some s | None => Order.estimatedTime o end)
        (Order.status o) (Order.createdAt o) in
    if itemsReferToProducts d items then
      match updateFirst (fun o => Order.id o =? orderId) f (orders d) with
      | Some os =>
          let rows := insertItems orderId (nextOrderItemId d) items in
          let d' := mkDb (businesses d) (customers d) (products d) (inventoryItems d)
                      (tables d) os (orderItems d ++ rows)%list (plans d) (coupons d)
                      (nextOrderId d) (nextOrderItemId d + Z.of_nat (length items)) in
          match findOrder d' orderId with
          | Some o => Some (d', (o, itemsOf d' orderId))
          | None => None
          end
      | None => None
      end
    else None).

Definition prisma_order_findMany
    (businessId : Z) (createdAt : option (Z * Z))
  : Prisma (list (Order.t * list OrderItem.t)) :=
  query order_findMany (fun d =>
    let inRange o :=
      match createdAt with
      | Some (gte, lte) => (gte <=? Order.createdAt o) && (Order.createdAt o <=? lte)
      | None => true
      end in
    let rows := filter (fun o => (Order.businessId o =? businessId) && inRange o)
                  (orders d) in
    map (fun o => (o, itemsOf d (Order.id o)))
        (sortBy (fun o => - Order.createdAt o) rows)).

Definition prisma_orderItem_findMany (orderId : Z) : Prisma (list OrderItem.t) :=
  query orderItem_findMany (fun d => itemsOf d orderId).

Definition prisma_orderItem_deleteMany (orderId : Z) : Prisma unit :=
  call orderItem_deleteMany (fun d =>
    Some (setOrderItems
            (filter (fun i => negb (OrderItem.orderId i =? orderId)) (orderItems d)) d,
          tt)).

(** [prisma.orderItem.updateMany({ where, data: { status } })], the
    [where] given as a predicate on rows. *)
Definition prisma_orderItem_updateMany
    (where_ : OrderItem.t -> bool) (status : option string) : Prisma unit :=
  call orderItem_updateMany (fun d =>
    let f i := match status with Some s => OrderItem.withStatus s i | None => i end in
    Some (setOrderItems (updateWhere where_ f (orderItems d)) d, tt)).

Definition prisma_customer_findUnique (id : Z) : Prisma (option Customer.t) :=
  query customer_findUnique (fun d =>
    find (fun c => Customer.id c =? id) (customers d)).

Definition prisma_customer_update (id : Z) (f : Customer.t -> Customer.t)
  : Prisma unit :=
  call customer_update (fun d =>
    match updateFirst (fun c => Customer.id c =? id) f (customers d) with
    | Some cs => Some (setCustomers cs d, tt)
    | None => None
    end).

Definition prisma_product_findUnique (id : Z) : Prisma (option Product.t) :=
  query product_findUnique (fun d =>
    find (fun p => Product.id p =? id) (products d)).

Definition prisma_inventoryItem_updateMany
    (name : string) (businessId : Z) (decrement : Q) : Prisma unit :=
  call inventoryItem_updateMany (fun d =>
    let hit i := String.eqb (InventoryItem.name i) name
                 && (InventoryItem.businessId i =? businessId) in
    let f i := InventoryItem.mk (InventoryItem.id i) (InventoryItem.name i)
                 (InventoryItem.quantity i - decrement)%Q (InventoryItem.businessId i) in
    Some (setInventoryItems (updateWhere hit f (inventoryItems d)) d, tt)).

(** ** Order routes *)

(** [items.every(item => item.status === "Completed")]. *)
Definition allItemsCompleted (items : list OrderItem.t) : bool :=
  forallb (fun item => String.eqb (OrderItem.status item) "Completed") items.

(** [allItemsCompleted && items.length > 0 ? "Completed" : "Pending"],
    as written in GET /, GET /:orderId and the item-status PATCH. *)
Definition orderStatusOf (items : list OrderItem.t) : string :=
  if allItemsCompleted items && (0 <? Z.of_nat (length items))
  then "Completed" else "Pending".

Definition serverError (message : string) : Response :=
  mkResponse 500 (BMessage message).

(** [customerId = decoded.id] when the bearer token verifies, and
    [undefined] (a guest) otherwise. *)
Definition tokenCustomerId (auth : Authorization) : option Z :=
  match auth with
  | Verified payload => Payload.id payload
  | _ => None
  end.

(** The points redemption step of POST /. *)
Definition redeemPoints (customerId pointsUsed : option Z) : Prisma unit :=
  match customerId, pointsUsed with
  | Some cid, Some pts =>
      if negb (cid =? 0) && negb (pts =? 0) && (0 <? pts) then
        customer <- prisma_customer_findUnique cid ;;
        match customer with
        | Some c =>
            if pts <=? Customer.points c then
              prisma_customer_update cid (fun c =>
                Customer.mk (Customer.id c) (Customer.customerId c)
                  (Customer.businessId c) (Customer.totalOrders c)
                  (Customer.totalMoneySpent c) (Customer.points c - pts))
            else ret tt
        | None => ret tt
        end
      else ret tt
  | _, _ => ret tt
  end.

(** [Math.floor(Number(total_amount) / 100)]. *)
Definition earnedPoints (total_amount : Q) : Z :=
  Qfloor (total_amount / 100)%Q.

(** The accrual step of POST /. *)
Definition accruePoints (customerId : option Z) (total_amount : Q) : Prisma unit :=
  match customerId with
  | Some cid =>
      if negb (cid =? 0) then
        prisma_customer_update cid (fun c =>
          Customer.mk (Customer.id c) (Customer.customerId c)
            (Customer.businessId c) (Customer.totalOrders c + 1)
            (Customer.totalMoneySpent c + total_amount)%Q
            (Customer.points c + earnedPoints total_amount))
      else ret tt
  | None => ret tt
  end.

(** The body of the inventory loop of POST / for one cart item. *)
Definition deductInventory (businessId : Z) (item : CartItem.t) : Prisma unit :=
  dish <- prisma_product_findUnique (CartItem.productId item) ;;
  let ingredients :=
    match dish with
    | Some p => match Product.ingredients p with Some l => l | None => [] end
    | None => []
    end in
  forEach ingredients (fun ing =>
    match Ingredient.quantity ing with
    | Some q =>
        let quantityToDeduct := (q * inject_Z (CartItem.quantity item))%Q in
        prisma_inventoryItem_updateMany (Ingredient.name ing) businessId
          quantityToDeduct
    | None => ret tt
    end).

Definition pendingItem (item : CartItem.t) : ItemData.t :=
  ItemData.mk (CartItem.productId item) (CartItem.quantity item)
    (CartItem.price item) (CartItem.name item) "Pending".

Definition missingBusinessId : Response :=
  mkResponse 400 (BMessage "Missing business ID").

Definition missingFields : Response :=
  mkResponse 400 (BMessage "Missing required fields").

(** POST /: the handler inside its [try]. *)
Definition postOrder (auth : Authorization) (body : OrderBody.t) (now : Z)
  : Prisma Response :=
  let customerId := tokenCustomerId auth in
  if negb (truthyZ (OrderBody.businessId body)) then ret missingBusinessId
  else if negb (truthyZ (OrderBody.businessId body))
          || negb (truthyZ (OrderBody.table_number body))
          || match OrderBody.cart_items body with Some _ => false | None => true end
          || negb (truthyQ (OrderBody.total_amount body))
          || negb (truthyStr (OrderBody.payment_method body))
          || negb (truthyStr (OrderBody.estimated_time body))
  then ret missingFields
  else
    match OrderBody.businessId body, OrderBody.table_number body,
          OrderBody.cart_items body, OrderBody.total_amount body,
          OrderBody.payment_method body, OrderBody.estimated_time body with
    | Some businessId, Some table_number, Some cart_items, Some total_amount,
      Some payment_method, Some estimated_time =>
        if (length cart_items =? 0)%nat then
          ret (mkResponse 400 (BMessage "Cart items must be a non-empty array"))
        else
          created <- prisma_order_create table_number total_amount payment_method
                       estimated_time "Pending" businessId customerId
                       (map pendingItem cart_items) now ;;
          let (order, items) := created in
          redeemPoints customerId (OrderBody.pointsUsed body) ;;
          accruePoints customerId total_amount ;;
          forEach cart_items (deductInventory businessId) ;;
          ret (mkResponse 201
                 (BOrderCreated (orderTag (Order.id order)) (Order.tableNumber order)
                    (Order.status order) "Order placed successfully"
                    (Order.estimatedTime order) (Order.createdAt order) items))
    | _, _, _, _, _, _ => ret missingFields
    end.

Definition route_postOrder (auth : Authorization) (body : OrderBody.t) (now : Z)
  : World -> World * Response :=
  tryCatch (postOrder auth body now)
           (serverError "Server error while creating order").

Definition viewOf (o : Order.t) (items : list OrderItem.t) : OrderView.t :=
  OrderView.mk (Order.id o) (orderTag (Order.id o)) (Order.tableNumber o)
    (Order.totalAmount o) (Order.paymentMethod o) (orderStatusOf items)
    (Order.estimatedTime o) (Order.createdAt o) items.

(** GET /, with the [createdAt] bounds of the where clause (computed
    from the [date] query in the server's time zone) given. *)
Definition getOrders (payload : Payload.t) (createdAt : option (Z * Z))
  : Prisma Response :=
  match Payload.businessId payload with
  | Some businessId =>
      if businessId =? 0 then ret (mkResponse 401 (BMessage "Unauthorized"))
      else
        found <- prisma_order_findMany businessId createdAt ;;
        ret (mkResponse 200 (BOrders (map (fun r => viewOf (fst r) (snd r)) found)))
  | None => ret (mkResponse 401 (BMessage "Unauthorized"))
  end.

Definition route_getOrders (auth : Authorization) (createdAt : option (Z * Z))
  : World -> World * Response :=
  authenticateBusinessOwnerJWT auth (fun payload =>
    tryCatch (getOrders payload createdAt)
             (serverError "Server error while fetching orders")).

(** GET /:orderId: no middleware, no [try]. *)
Definition getOrder (orderId : Z) : Prisma Response :=
  found <- prisma_order_findUnique_items orderId ;;
  match found with
  | None => ret (mkResponse 404 (BMessage "Order not found"))
  | Some (order, items) => ret (mkResponse 200 (BOrder (viewOf order items)))
  end.

(** The route ignores the Authorization header; an uncaught throw
    would leave the request without an answer ([None]). *)
Definition route_getOrder (auth : Authorization) (orderId : Z)
  : World -> World * option Response :=
  getOrder orderId.

(** [item.status || matched?.status || "Pending"]. *)
Definition replacedItemStatus (item : CartItem.t) (matched : option OrderItem.t)
  : string :=
  match orElse (CartItem.status item)
               (orElse (option_map OrderItem.status matched) (Some "Pending")) with
  | Some s => s
  | None => "Pending"
  end.

Definition replacementItem (existingItems : list OrderItem.t) (item : CartItem.t)
  : ItemData.t :=
  let matched :=
    jsFind (fun existing => OrderItem.productId existing =? CartItem.productId item)
           existingItems in
  ItemData.mk (CartItem.productId item) (CartItem.quantity item)
    (CartItem.price item) (CartItem.name item) (replacedItemStatus item matched).

Definition notAllowed : Response :=
  mkResponse 403 (BMessage "Not allowed to update this order").

(** PUT /:orderId: no middleware; the tenant compared with the order is
    [req.body.businessId]. *)
Definition putOrder (orderId : Z) (body : OrderBody.t) : Prisma Response :=
  match OrderBody.businessId body with
  | None => ret missingBusinessId
  | Some businessId =>
      if businessId =? 0 then ret missingBusinessId
      else
        existingOrder <- prisma_order_findUnique orderId ;;
        match existingOrder with
        | None => ret notAllowed
        | Some existing =>
            if negb (Order.businessId existing =? businessId) then ret notAllowed
            else
              existingItems <- prisma_orderItem_findMany orderId ;;
              prisma_orderItem_deleteMany orderId ;;
              match OrderBody.cart_items body with
              | None => throw
              | Some cart_items =>
                  updated <- prisma_order_update_replace orderId
                               (OrderBody.table_number body)
                               (OrderBody.total_amount body)
                               (OrderBody.payment_method body)
                               (OrderBody.estimated_time body)
                               (map (replacementItem existingItems) cart_items) ;;
                  let (order, items) := updated in
                  ret (mkResponse 200
                         (BOrderUpdated (orderTag (Order.id order))
                            (Order.tableNumber order) (Order.totalAmount order)
                            (Order.paymentMethod order) "Pending"
                            (Order.estimatedTime order) items
                            "Order updated successfully"))
              end
        end
  end.

Definition route_putOrder (auth : Authorization) (orderId : Z) (body : OrderBody.t)
  : World -> World * Response :=
  tryCatch (putOrder orderId body)
           (serverError "Server error while updating order").

Definition missingSessionBusiness : Response :=
  mkResponse 401 (BMessage "Unauthorized: Missing businessId").

(** The guard shared by the three owner-side PATCH handlers: the
    session's business id, then the lookup of the order ([find_], with
    or without its items), then the comparison of the two tenants. *)
Definition withOwnedOrder {A} (payload : Payload.t)
    (find_ : Prisma (option A)) (orderOf : A -> Order.t)
    (k : A -> Prisma Response) : Prisma Response :=
  match Payload.businessId payload with
  | None => ret missingSessionBusiness
  | Some businessId =>
      if businessId =? 0 then ret missingSessionBusiness
      else
        existingOrder <- find_ ;;
        match existingOrder with
        | None => ret notAllowed
        | Some existing =>
            if negb (Order.businessId (orderOf existing) =? businessId)
            then ret notAllowed
            else k existing
        end
  end.

(** PATCH /:orderId/status. *)
Definition patchOrderStatus (payload : Payload.t) (orderId : Z)
    (status : option string) : Prisma Response :=
  withOwnedOrder payload (prisma_order_findUnique orderId) (fun o => o)
    (fun _ =>
       updated <- prisma_order_update_status orderId status ;;
       let updatedOrder := fst updated in
       ret (mkResponse 200
              (BOrderStatus (orderTag (Order.id updatedOrder))
                 (Order.status updatedOrder) "Order status updated successfully"))).

Definition route_patchOrderStatus (auth : Authorization) (orderId : Z)
    (status : option string) : World -> World * Response :=
  authenticateBusinessOwnerJWT auth (fun payload =>
    tryCatch (patchOrderStatus payload orderId status)
             (serverError "Server error while updating order status")).

(** PATCH /:orderId/items/:productId/status. *)
Definition patchItemStatus (payload : Payload.t) (orderId productId : Z)
    (status : option string) : Prisma Response :=
  withOwnedOrder payload (prisma_order_findUnique_items orderId) fst
    (fun existingOrder =>
       match jsFind (fun item => OrderItem.productId item =? productId)
                    (snd existingOrder) with
       | None => ret (mkResponse 404 (BMessage "Item not found in order"))
       | Some itemToUpdate =>
           prisma_orderItem_updateMany
             (fun i => (OrderItem.orderId i =? orderId)
                       && (OrderItem.productId i =? productId)) status ;;
           updatedOrder <- prisma_order_findUnique_items orderId ;;
           match updatedOrder with
           | None => ret (mkResponse 404 (BMessage "Order not found"))
           | Some (_, items) =>
               let newOrderStatus := orderStatusOf items in
               prisma_order_update_status orderId (Some newOrderStatus) ;;
               ret (mkResponse 200
                      (BItemStatus "Item status updated successfully" productId
                         status newOrderStatus))
           end
       end).

Definition route_patchItemStatus (auth : Authorization) (orderId productId : Z)
    (status : option string) : World -> World * Response :=
  authenticateBusinessOwnerJWT auth (fun payload =>
    tryCatch (patchItemStatus payload orderId productId status)
             (serverError "Server error while updating item status")).

(** PATCH /:orderId/complete-all. *)
Definition completeAll (payload : Payload.t) (orderId : Z) : Prisma Response :=
  withOwnedOrder payload (prisma_order_findUnique orderId) (fun o => o)
    (fun _ =>
       prisma_orderItem_updateMany (fun i => OrderItem.orderId i =? orderId)
         (Some "Completed") ;;
       prisma_order_update_status orderId (Some "Completed") ;;
       ret (mkResponse 200
              (BCompleteAll "All items marked as completed successfully"
                 "Completed"))).

Definition route_completeAll (auth : Authorization) (orderId : Z)
  : World -> World * Response :=
  authenticateBusinessOwnerJWT auth (fun payload =>
    tryCatch (completeAll payload orderId)
             (serverError "Server error while completing all items")).

(** ** Table route *)

Definition prisma_table_findMany (businessId : Z) : Prisma (list Table.t) :=
  query table_findMany (fun d =>
    sortBy Table.tableNumber
      (filter (fun t => Table.businessId t =? businessId) (tables d))).

(** [order.findMany] with [status: { not: "Completed" }] and
    [select: { tableNumber: true }]. *)
Definition prisma_order_findMany_active (businessId : Z) : Prisma (list Z) :=
  query order_findMany (fun d =>
    map Order.tableNumber
      (filter (fun o => (Order.businessId o =? businessId)
                        && negb (String.eqb (Order.status o) "Completed"))
              (orders d))).

(** [bookedTableNumbers.has(n)], the set kept as the list it is built from. *)
Definition has (bookedTableNumbers : list Z) (n : Z) : bool :=
  existsb (Z.eqb n) bookedTableNumbers.

Definition tableStatus (bookedTableNumbers : list Z) (table : Table.t)
  : TableView.t :=
  TableView.mk (Table.id table) (Table.tableNumber table)
    (if has bookedTableNumbers (Table.tableNumber table)
     then "Booked" else "Available").

(** GET /:businessId of the table router.  The route parameter is never
    empty, so the 400 answer of the source is not reachable. *)
Definition getTables (businessId : Z) : Prisma Response :=
  allTables <- prisma_table_findMany businessId ;;
  bookedTableNumbers <- prisma_order_findMany_active businessId ;;
  let tablesWithStatus := map (tableStatus bookedTableNumbers) allTables in
  ret (mkResponse 200 (BTables tablesWithStatus)).

Definition route_getTables (businessId : Z) : World -> World * Response :=
  tryCatch (getTables businessId)
           (mkResponse 500 (BError "Failed to fetch tables")).

(** ** Plan routes *)

Definition mapBackendToFrontendStatus (backendStatus : string) : string :=
  if String.eqb backendStatus "active" then "verified"
  else if String.eqb backendStatus "expired" then "unverified"
  else if String.eqb backendStatus "cancelled" then "unverified"
  else "pending".

Definition findPlan (d : Db) (businessId : Z) : option Plan.t :=
  find (fun p => Plan.businessId p =? businessId) (plans d).

Definition prisma_plan_findUnique (businessId : Z) : Prisma (option Plan.t) :=
  query plan_findUnique (fun d => findPlan d businessId).

Definition prisma_plan_update_status (businessId : Z) (status : string)
  : Prisma unit :=
  call plan_update (fun d =>
    match updateFirst (fun p => Plan.businessId p =? businessId)
                      (Plan.withStatus status) (plans d) with
    | Some ps => Some (setPlans ps d, tt)
    | None => None
    end).

(** The lines the two read handlers share: compare [expiresAt] with the
    current date and persist [expired] for an active plan that is past it.
    Returns [updatedStatus] and [isExpired]. *)
Definition autoExpire (businessId : Z) (plan : Plan.t) (currentDate : Z)
  : Prisma (string * bool) :=
  let isExpired := Plan.expiresAt plan <? currentDate in
  if isExpired && String.eqb (Plan.status plan) "active" then
    prisma_plan_update_status businessId "expired" ;;
    ret ("expired", isExpired)
  else ret (Plan.status plan, isExpired).

(** GET /subscription/status/:businessId. *)
Definition getSubscriptionStatus (businessId : Z) (currentDate : Z)
  : Prisma Response :=
  subscription <- prisma_plan_findUnique businessId ;;
  match subscription with
  | None => ret (mkResponse 404 (BMessage "No subscription found"))
  | Some subscription =>
      r <- autoExpire businessId subscription currentDate ;;
      let (updatedStatus, isExpired) := r in
      let isVerified := String.eqb updatedStatus "active" in
      ret (mkResponse 200
             (BSubscription (Plan.withStatus updatedStatus subscription)
                (mapBackendToFrontendStatus updatedStatus) isVerified isExpired))
  end.

Definition route_getSubscriptionStatus (auth : Authorization) (businessId : Z)
    (currentDate : Z) : World -> World * Response :=
  authenticateBusinessOwnerJWT auth (fun _ =>
    tryCatch (getSubscriptionStatus businessId currentDate)
             (serverError "Internal server error")).

(** GET /plan. *)
Definition getPlan (businessId : Z) (currentDate : Z) : Prisma Response :=
  existingPlan <- prisma_plan_findUnique businessId ;;
  match existingPlan with
  | None => ret (mkResponse 404 (BMessage "No plan found"))
  | Some existingPlan =>
      r <- autoExpire businessId existingPlan currentDate ;;
      let (updatedStatus, isExpired) := r in
      ret (mkResponse 200
             (BPlan (Plan.withStatus updatedStatus existingPlan)
                (mapBackendToFrontendStatus updatedStatus) isExpired))
  end.

Definition route_getPlan (auth : Authorization) (currentDate : Z)
  : World -> World * Response :=
  authenticateBusinessOwnerJWT auth (fun payload =>
    if truthyZ (Payload.businessId payload) then
      tryCatch (getPlan (orElseZ (Payload.businessId payload) 0) currentDate)
               (serverError "Internal server error")
    else fun w =>
      (w, mkResponse 401 (BMessage "Unauthorized: Business not found in token"))).

(** ** Coupon validation *)

(** The where clause of the [coupon.findFirst] of POST /validate; an
    [undefined] business id drops that condition. *)
Definition findCoupon (d : Db) (code : string) (businessId : option Z) (now : Z)
  : option Coupon.t :=
  find (fun c =>
          String.eqb (Coupon.code c) code
          && match businessId with
             | Some b => Coupon.businessId c =? b
             | None => true
             end
          && (Coupon.validFrom c <=? now)
          && (now <=? Coupon.validTill c))
       (coupons d).

Definition prisma_coupon_findFirst (code : string) (businessId : option Z)
    (now : Z) : Prisma (option Coupon.t) :=
  query coupon_findFirst (fun d => findCoupon d code businessId now).

(** The discount computed for a coupon that passed the checks. *)
Definition discountOf (coupon : Coupon.t) (orderTotal : Q) : Q :=
  if String.eqb (Coupon.discountType coupon) "flat" then
    Coupon.discountValue coupon
  else if String.eqb (Coupon.discountType coupon) "percent" then
    let discount := (Coupon.discountValue coupon / 100 * orderTotal)%Q in
    match Coupon.maxDiscount coupon with
    | Some maxDiscount =>
        if Qnonzero maxDiscount && Qltb maxDiscount discount
        then maxDiscount else discount
    | None => discount
    end
  else 0%Q.

Definition couponMissingFields : Response :=
  mkResponse 400 (BError "Missing required fields").

(** POST /validate after the middleware.  The answer to an order total
    below the minimum carries the minimum ([BMinimumOrderValue]), which
    the source formats into its error text. *)
Definition validateCoupon (payload : Payload.t) (code : option string)
    (orderTotal : option Q) (now : Z) : World -> World * Response :=
  if negb (truthyStr code) || negb (truthyQ orderTotal) then
    fun w => (w, couponMissingFields)
  else
    match code, orderTotal with
    | Some code, Some orderTotal =>
        tryCatch
          (coupon <- prisma_coupon_findFirst (toUpperCase code)
                       (Payload.businessId payload) now ;;
           match coupon with
           | None => ret (mkResponse 404 (BError "Coupon not found or expired"))
           | Some coupon =>
               if Qltb orderTotal (Coupon.minOrderValue coupon) then
                 ret (mkResponse 400
                        (BMinimumOrderValue (Coupon.minOrderValue coupon)))
               else
                 ret (mkResponse 200
                        (BCoupon "Coupon applied successfully"
                           (discountOf coupon orderTotal) (Coupon.id coupon)
                           (Coupon.code coupon) (Coupon.discountType coupon)
                           (Coupon.discountValue coupon)))
           end)
          (mkResponse 500 (BError "Server error"))
    | _, _ => fun w => (w, couponMissingFields)
    end.

Definition route_validateCoupon (auth : Authorization) (code : option string)
    (orderTotal : option Q) (now : Z) : World -> World * Response :=
  authenticateBusinessOwnerJWT auth (fun payload =>
    validateCoupon payload code orderTotal now).

(** ** The order router as a transition system *)

Inductive Request :=
| PostOrder (auth : Authorization) (body : OrderBody.t) (now : Z)
| GetOrders (auth : Authorization) (createdAt : option (Z * Z))
| GetOrder (auth : Authorization) (orderId : Z)
| PutOrder (auth : Authorization) (orderId : Z) (body : OrderBody.t)
| PatchOrderStatus (auth : Authorization) (orderId : Z) (status : option string)
| PatchItemStatus (auth : Authorization) (orderId productId : Z)
    (status : option string)
| CompleteAll (auth : Authorization) (orderId : Z).

Definition answered (r : World * Response) : World * option Response :=
  (fst r, Some (snd r)).

Definition orderRouter (req : Request) (w : World) : World * option Response :=
  match req with
  | PostOrder auth body now => answered (route_postOrder auth body now w)
  | GetOrders auth createdAt => answered (route_getOrders auth createdAt w)
  | GetOrder auth orderId => route_getOrder auth orderId w
  | PutOrder auth orderId body => answered (route_putOrder auth orderId body w)
  | PatchOrderStatus auth orderId status =>
      answered (route_patchOrderStatus auth orderId status w)
  | PatchItemStatus auth orderId productId status =>
      answered (route_patchItemStatus auth orderId productId status w)
  | CompleteAll auth orderId => answered (route_completeAll auth orderId w)
  end.

(** The store after a sequence of requests. *)
Definition runRequests (reqs : list Request) (w : World) : World :=
  fold_left (fun w req => fst (orderRouter req w)) reqs w.

(** * Properties *)

(** ** Lists, strings and ordering *)

Section Ordering.
Context {A : Type} (key : A -> Z).

Definition keyLe (x y : A) : Prop := key x <= key y.

Lemma insertBy_perm (x : A) (l : list A) :
  Permutation (x :: l) (insertBy key x l).
Proof.
  induction l as [|y l IH]; simpl.
  - apply Permutation_refl.
  - destruct (key x <=? key y).
    + apply Permutation_refl.
    + eapply perm_trans; [apply perm_swap|]. now apply perm_skip.
Qed.

Lemma sortBy_perm (l : list A) : Permutation l (sortBy key l).
Proof.
  induction l as [|x l IH]; simpl.
  - constructor.
  - eapply perm_trans; [apply perm_skip, IH|]. apply insertBy_perm.
Qed.

Lemma insertBy_sorted (x : A) (l : list A) :
  StronglySorted keyLe l -> StronglySorted keyLe (insertBy key x l).
Proof.
  induction 1 as [|y l Hs IH Hall]; simpl.
  - repeat constructor.
  - destruct (Z.leb_spec (key x) (key y)) as [Hle|Hgt].
    + constructor; [now constructor|].
      constructor; [exact Hle|].
      eapply Forall_impl; [|exact Hall].
      unfold keyLe; intros; lia.
    + constructor; [exact IH|].
      eapply Permutation_Forall; [apply insertBy_perm|].
      constructor; [unfold keyLe; lia | exact Hall].
Qed.

Lemma sortBy_sorted (l : list A) : StronglySorted keyLe (sortBy key l).
Proof.
  induction l as [|x l IH]; simpl.
  - constructor.
  - now apply insertBy_sorted.
Qed.

End Ordering.

Lemma has_In (l : list Z) (n : Z) : has l n = true <-> In n l.
Proof.
  unfold has. rewrite existsb_exists. split.
  - intros [x [Hin Heq]]. apply Z.eqb_eq in Heq. now subst.
  - intros Hin. exists n. split; [exact Hin | apply Z.eqb_refl].
Qed.

Lemma StronglySorted_map {A B} (f : A -> B) (R : B -> B -> Prop) (l : list A) :
  StronglySorted (fun x y => R (f x) (f y)) l -> StronglySorted R (map f l).
Proof.
  induction 1 as [|x l Hs IH Hall]; simpl; constructor; auto.
  rewrite Forall_map. exact Hall.
Qed.

Section UpdateFirst.
Context {A : Type} (p : A -> bool) (f : A -> A).

Lemma updateFirst_In (l l' : list A) (y : A) :
  updateFirst p f l = Some l' -> In y l' ->
  In y l \/ exists x, In x l /\ p x = true /\ y = f x.
Proof.
  revert l'. induction l as [|x l IH]; simpl; intros l' Hup Hin.
  - discriminate.
  - destruct (p x) eqn:Hp.
    + injection Hup as <-. destruct Hin as [<-|Hin].
      * right. exists x. auto.
      * left. auto.
    + destruct (updateFirst p f l) as [r|] eqn:Hr; [|discriminate].
      injection Hup as <-. destruct Hin as [<-|Hin].
      * left. auto.
      * destruct (IH r eq_refl Hin) as [H|[z [H1 [H2 H3]]]].
        -- left. auto.
        -- right. exists z. auto.
Qed.

Lemma updateFirst_find (l : list A) (x : A) :
  find p l = Some x -> exists l', updateFirst p f l = Some l'.
Proof.
  induction l as [|y l IH]; simpl; [discriminate|].
  destruct (p y); [eauto|].
  intros H. destruct (IH H) as [l' ->]. eauto.
Qed.

(** When [f] keeps the key, the updated row is the one found afterwards. *)
Lemma updateFirst_find_after (l l' : list A) (x : A) :
  (forall a, p (f a) = p a) ->
  find p l = Some x -> updateFirst p f l = Some l' ->
  find p l' = Some (f x).
Proof.
  intros Hkey. revert l'. induction l as [|y l IH]; simpl; intros l' Hf Hu.
  - discriminate.
  - destruct (p y) eqn:Hp.
    + injection Hf as <-. injection Hu as <-. simpl.
      now rewrite Hkey, Hp.
    + destruct (updateFirst p f l) as [r|]; [|discriminate].
      injection Hu as <-. simpl. rewrite Hp. now apply IH.
Qed.

End UpdateFirst.

Lemma find_existsb {A} (p : A -> bool) (l : list A) :
  existsb p l = true <-> exists x, find p l = Some x.
Proof.
  induction l as [|y l IH]; simpl.
  - split; [discriminate | intros [x H]; discriminate].
  - destruct (p y); simpl; [split; eauto | exact IH].
Qed.


(** ** Table availability view *)

(** Some order of the tenant that is not Completed sits at the table. *)
Definition activeOrderAt (d : Db) (businessId tableNumber : Z) : Prop :=
  exists o, In o (orders d)
            /\ Order.businessId o = businessId
            /\ Order.status o <> "Completed"
            /\ Order.tableNumber o = tableNumber.

Lemma active_numbers_In (d : Db) (businessId n : Z) :
  In n (map Order.tableNumber
          (filter (fun o => (Order.businessId o =? businessId)
                            && negb (String.eqb (Order.status o) "Completed"))
                  (orders d)))
  <-> activeOrderAt d businessId n.
Proof.
  unfold activeOrderAt. rewrite in_map_iff. split.
  - intros [o [Hn Hin]]. apply filter_In in Hin. destruct Hin as [Hin Hb].
    apply andb_true_iff in Hb. destruct Hb as [Hb Hs].
    apply Z.eqb_eq in Hb. apply negb_true_iff in Hs.
    apply String.eqb_neq in Hs. exists o. auto.
  - intros [o [Hin [Hb [Hs Hn]]]]. exists o. split; [exact Hn|].
    apply filter_In. split; [exact Hin|].
    apply andb_true_iff. split; [now apply Z.eqb_eq|].
    apply negb_true_iff. now apply String.eqb_neq.
Qed.

(** C5.  GET /:businessId of the table router answers 200 with the
    tenant's tables, each exactly once, in ascending table number; a
    table is Booked if and only if some order of that tenant with a
    status other than Completed has its table number, and Available
    otherwise.  The store is read and not written: the answer is
    computed from the orders at read time. *)
Theorem table_view_booked_iff_active_order (w : World) (businessId : Z) :
  exists w' views,
    route_getTables businessId w = (w', mkResponse 200 (BTables views))
    /\ db w' = db w
    /\ Permutation
         (map (fun v => (TableView.id v, TableView.tableNumber v)) views)
         (map (fun t => (Table.id t, Table.tableNumber t))
              (filter (fun t => Table.businessId t =? businessId) (tables (db w))))
    /\ StronglySorted
         (fun a b => TableView.tableNumber a <= TableView.tableNumber b) views
    /\ forall v, In v views ->
         (TableView.status v = "Booked"
          <-> activeOrderAt (db w) businessId (TableView.tableNumber v))
         /\ (TableView.status v = "Available"
             <-> ~ activeOrderAt (db w) businessId (TableView.tableNumber v)).
Proof.
  unfold route_getTables, tryCatch, getTables, bind, prisma_table_findMany,
    prisma_order_findMany_active, query, call, ret. simpl.
  eexists. eexists. split; [reflexivity|]. simpl.
  split; [reflexivity|].
  set (mine := filter (fun t => Table.businessId t =? businessId) (tables (db w))).
  set (booked := map Order.tableNumber _).
  split; [|split].
  - rewrite map_map. simpl.
    apply Permutation_map with (f := fun t => (Table.id t, Table.tableNumber t)).
    apply Permutation_sym, sortBy_perm.
  - apply StronglySorted_map
      with (R := fun a b => TableView.tableNumber a <= TableView.tableNumber b).
    simpl. apply (sortBy_sorted Table.tableNumber).
  - intros v Hv. apply in_map_iff in Hv. destruct Hv as [t [<- _]].
    unfold tableStatus. simpl.
    pose proof (has_In booked (Table.tableNumber t)) as Hhas.
    pose proof (active_numbers_In (db w) businessId (Table.tableNumber t)) as Hact.
    fold booked in Hact.
    destruct (has booked (Table.tableNumber t)) eqn:Hb.
    + assert (Ha : activeOrderAt (db w) businessId (Table.tableNumber t))
        by (apply Hact, Hhas; reflexivity).
      split; split; try tauto; try discriminate.
    + assert (Ha : ~ activeOrderAt (db w) businessId (Table.tableNumber t)).
      { intros Ha. apply Hact, Hhas in Ha. discriminate. }
      split; split; try tauto; try discriminate.
Qed.

(** ** Plan expiry on read *)

(** The status a plan read reports. *)
Definition reportedStatus (r : Response) : option string :=
  match body r with
  | BSubscription subscription _ _ _ => Some (Plan.status subscription)
  | BPlan plan _ _ => Some (Plan.status plan)
  | _ => None
  end.

Definition storedPlanStatus (w : World) (businessId : Z) : option string :=
  option_map Plan.status (findPlan (db w) businessId).

(** The two plan reads for one business: the subscription-status check
    and the current-plan fetch of an owner of that business. *)
Inductive PlanRead (businessId now : Z) : (World -> World * Response) -> Prop :=
| ReadSubscriptionStatus payload :
    PlanRead businessId now
      (route_getSubscriptionStatus (Verified payload) businessId now)
| ReadPlan payload :
    Payload.businessId payload = Some businessId -> businessId <> 0 ->
    PlanRead businessId now (route_getPlan (Verified payload) now).

(** The claim as the specification words it: whatever the prior status,
    a read of a plan past its expiry leaves and reports [expired]. *)
Definition expiredAfterRead (read : World -> World * Response) (w : World)
    (businessId now : Z) : Prop :=
  forall plan,
    findPlan (db w) businessId = Some plan ->
    Plan.expiresAt plan < now ->
    storedPlanStatus (fst (read w)) businessId = Some "expired"
    /\ reportedStatus (snd (read w)) = Some "expired".

(** What a read stores: [expired] for an active plan, else the prior status. *)
Definition statusAfterRead (prior : string) : string :=
  if String.eqb prior "active" then "expired" else prior.

Lemma autoExpire_run (w : World) (businessId now : Z) (plan : Plan.t) :
  findPlan (db w) businessId = Some plan ->
  Plan.expiresAt plan < now ->
  exists w',
    autoExpire businessId plan now w
      = (w', Some (statusAfterRead (Plan.status plan), true))
    /\ storedPlanStatus w' businessId = Some (statusAfterRead (Plan.status plan)).
Proof.
  intros Hfind Hexp. unfold autoExpire, statusAfterRead.
  apply Z.ltb_lt in Hexp. rewrite Hexp. simpl.
  destruct (String.eqb (Plan.status plan) "active") eqn:Hact.
  - unfold bind, prisma_plan_update_status, call, ret.
    unfold findPlan in Hfind.
    destruct (updateFirst_find _ (Plan.withStatus "expired") _ _ Hfind) as [ps Hps].
    rewrite Hps. eexists. split; [reflexivity|].
    unfold storedPlanStatus, findPlan. simpl.
    rewrite (updateFirst_find_after
               (fun p => Plan.businessId p =? businessId)
               (Plan.withStatus "expired") _ _ plan
               (fun a => eq_refl) Hfind Hps).
    reflexivity.
  - unfold ret. eexists. split; [reflexivity|].
    unfold storedPlanStatus. now rewrite Hfind.
Qed.

(** C8, as the code has it.  For a plan whose [expiresAt] is earlier
    than the current time, each of the two plan reads stores and
    reports [expired] when the prior status is [active] (the lazy,
    persisted transition) and also when it already was [expired]; for
    every other prior status ([pending], [cancelled], ...) the read
    leaves the stored status as it was and reports it unchanged. *)
Theorem plan_read_expires_active_plan
    (read : World -> World * Response) (w : World) (businessId now : Z)
    (plan : Plan.t) :
  PlanRead businessId now read ->
  findPlan (db w) businessId = Some plan ->
  Plan.expiresAt plan < now ->
  storedPlanStatus (fst (read w)) businessId
    = Some (statusAfterRead (Plan.status plan))
  /\ reportedStatus (snd (read w)) = Some (statusAfterRead (Plan.status plan))
  /\ (Plan.status plan = "active" \/ Plan.status plan = "expired" ->
      statusAfterRead (Plan.status plan) = "expired")
  /\ (Plan.status plan <> "active" ->
      statusAfterRead (Plan.status plan) = Plan.status plan).
Proof.
  intros Hread Hfind Hexp.
  assert (Hq : findPlan (db (mkWorld (db w) (log w ++ [plan_findUnique])))
                 businessId = Some plan) by exact Hfind.
  destruct (autoExpire_run _ businessId now plan Hq Hexp) as [w' [Hrun Hst]].
  split; [|split; [|split]].
  - destruct Hread as [payload | payload Hp Hnz].
    + unfold route_getSubscriptionStatus, authenticateBusinessOwnerJWT, tryCatch,
        getSubscriptionStatus, bind, prisma_plan_findUnique, query, call.
      rewrite Hfind, Hrun. simpl. exact Hst.
    + unfold route_getPlan, authenticateBusinessOwnerJWT, truthyZ.
      rewrite Hp. apply Z.eqb_neq in Hnz. rewrite Hnz. simpl.
      unfold tryCatch, getPlan, bind, prisma_plan_findUnique, query, call.
      rewrite Hfind, Hrun. simpl. exact Hst.
  - destruct Hread as [payload | payload Hp Hnz].
    + unfold route_getSubscriptionStatus, authenticateBusinessOwnerJWT, tryCatch,
        getSubscriptionStatus, bind, prisma_plan_findUnique, query, call.
      rewrite Hfind, Hrun. reflexivity.
    + unfold route_getPlan, authenticateBusinessOwnerJWT, truthyZ.
      rewrite Hp. apply Z.eqb_neq in Hnz. rewrite Hnz. simpl.
      unfold tryCatch, getPlan, bind, prisma_plan_findUnique, query, call.
      rewrite Hfind, Hrun. reflexivity.
  - unfold statusAfterRead. intros [-> | ->]; reflexivity.
  - unfold statusAfterRead. intros Hn.
    apply String.eqb_neq in Hn. now rewrite Hn.
Qed.

Definition pendingPlanWorld : World :=
  mkWorld (mkDb [1] [] [] [] [] [] []
             [Plan.mk 1 1 "monthly" 1000 "pending"] [] 1 1) [].

Definition ownerOf (businessId : Z) : Authorization :=
  Verified (Payload.mk None (Some businessId)).

(** A pending plan past its expiry is still pending after a read. *)
Lemma pending_plan_stays_pending :
  ~ expiredAfterRead (route_getSubscriptionStatus (ownerOf 1) 1 2000)
      pendingPlanWorld 1 2000.
Proof.
  intros H.
  assert (Hexp : Plan.expiresAt (Plan.mk 1 1 "monthly" 1000 "pending") < 2000)
    by (simpl; lia).
  destruct (H _ eq_refl Hexp) as [Hst _].
  vm_compute in Hst. discriminate.
Qed.

Lemma plan_read_expires_active_plan_witness :
  storedPlanStatus
    (fst (route_getPlan (ownerOf 1) 2000
            (mkWorld (mkDb [1] [] [] [] [] [] []
                        [Plan.mk 1 1 "monthly" 1000 "active"] [] 1 1) [])))
    1 = Some "expired".
Proof.
  refine (proj1 (plan_read_expires_active_plan _ _ 1 2000
                   (Plan.mk 1 1 "monthly" 1000 "active") _ _ _)).
  - apply ReadPlan; [reflexivity | lia].
  - reflexivity.
  - simpl. lia.
Defined.

(** ** Coupon validation *)

(** A redemption passes validation: both fields are truthy, the lookup
    (code upper-cased, tenant, validity window) finds the coupon, and
    the order total is not below the coupon's minimum. *)
Definition passesValidation (w : World) (payload : Payload.t) (code : string)
    (orderTotal : Q) (now : Z) (coupon : Coupon.t) : Prop :=
  code <> ""
  /\ ~ (orderTotal == 0)%Q
  /\ findCoupon (db w) (toUpperCase code) (Payload.businessId payload) now
       = Some coupon
  /\ ~ (orderTotal < Coupon.minOrderValue coupon)%Q.

Definition percentOf (coupon : Coupon.t) (orderTotal : Q) : Q :=
  (Coupon.discountValue coupon / 100 * orderTotal)%Q.

Lemma Qltb_lt (a b : Q) : Qltb a b = true <-> (a < b)%Q.
Proof.
  unfold Qltb. rewrite negb_true_iff. split.
  - intros H. apply Qnot_le_lt. intros Hle.
    apply Qle_bool_iff in Hle. congruence.
  - intros H. destruct (Qle_bool b a) eqn:E; [|reflexivity].
    apply Qle_bool_iff in E. exfalso. exact (Qlt_not_le _ _ H E).
Qed.

Lemma Qnonzero_true (q : Q) : Qnonzero q = true <-> ~ (q == 0)%Q.
Proof.
  unfold Qnonzero. rewrite negb_true_iff. split.
  - intros H E. apply Qeq_bool_iff in E. congruence.
  - intros H. destruct (Qeq_bool q 0) eqn:E; [|reflexivity].
    apply Qeq_bool_iff in E. contradiction.
Qed.

Lemma Qmin_as_test (d cap : Q) :
  (if Qltb cap d then cap else d) = Qmin d cap.
Proof.
  unfold Qltb, Qle_bool, Qmin, GenericMinMax.gmin, Qcompare, Z.leb.
  destruct (Qnum d * QDen cap ?= Qnum cap * QDen d); reflexivity.
Qed.

Lemma validateCoupon_run (w : World) (payload : Payload.t) (code : string)
    (orderTotal : Q) (now : Z) (coupon : Coupon.t) :
  passesValidation w payload code orderTotal now coupon ->
  validateCoupon payload (Some code) (Some orderTotal) now w
  = (mkWorld (db w) (log w ++ [coupon_findFirst]),
     mkResponse 200
       (BCoupon "Coupon applied successfully" (discountOf coupon orderTotal)
          (Coupon.id coupon) (Coupon.code coupon) (Coupon.discountType coupon)
          (Coupon.discountValue coupon))).
Proof.
  intros [Hc [Ht [Hf Hm]]].
  unfold validateCoupon, truthyStr, truthyQ, nonEmpty.
  apply String.eqb_neq in Hc. rewrite Hc.
  apply Qnonzero_true in Ht. rewrite Ht. simpl.
  unfold tryCatch, bind, prisma_coupon_findFirst, query, call. rewrite Hf.
  destruct (Qltb orderTotal (Coupon.minOrderValue coupon)) eqn:E.
  - apply Qltb_lt in E. contradiction.
  - reflexivity.
Qed.

(** The claim as the specification words it, for a redemption that
    passes validation: a percent coupon whose cap is set gets the
    minimum of the percentage and the cap, never more than the cap. *)
Definition cappedDiscountClaim (w : World) (payload : Payload.t) (code : string)
    (orderTotal : Q) (now : Z) (coupon : Coupon.t) : Prop :=
  passesValidation w payload code orderTotal now coupon ->
  exists w' message,
    validateCoupon payload (Some code) (Some orderTotal) now w
    = (w', mkResponse 200
             (BCoupon message (discountOf coupon orderTotal) (Coupon.id coupon)
                (Coupon.code coupon) (Coupon.discountType coupon)
                (Coupon.discountValue coupon)))
    /\ (Coupon.discountType coupon = "flat" ->
        discountOf coupon orderTotal = Coupon.discountValue coupon)
    /\ (Coupon.discountType coupon = "percent" ->
        forall cap, Coupon.maxDiscount coupon = Some cap ->
          discountOf coupon orderTotal = Qmin (percentOf coupon orderTotal) cap
          /\ (discountOf coupon orderTotal <= cap)%Q).

(** C9, as the code has it.  For a redemption that passes validation
    the answer is 200 and its discount is the coupon's value when the
    type is flat; when the type is percent and the cap is set and is
    not zero, the discount is min(discountValue/100 * orderTotal,
    maxDiscount) and does not exceed the cap; a 20 percent coupon with
    a cap of 500 on a total of 10000 yields 500.  (A stored cap of 0 is
    read as no cap.) *)
Theorem coupon_discount_flat_or_capped_percent
    (w : World) (payload : Payload.t) (code : string) (orderTotal : Q) (now : Z)
    (coupon : Coupon.t) :
  passesValidation w payload code orderTotal now coupon ->
  exists w' message,
    validateCoupon payload (Some code) (Some orderTotal) now w
    = (w', mkResponse 200
             (BCoupon message (discountOf coupon orderTotal) (Coupon.id coupon)
                (Coupon.code coupon) (Coupon.discountType coupon)
                (Coupon.discountValue coupon)))
    /\ (Coupon.discountType coupon = "flat" ->
        discountOf coupon orderTotal = Coupon.discountValue coupon)
    /\ (Coupon.discountType coupon = "percent" ->
        forall cap, Coupon.maxDiscount coupon = Some cap -> ~ (cap == 0)%Q ->
          discountOf coupon orderTotal = Qmin (percentOf coupon orderTotal) cap
          /\ (discountOf coupon orderTotal <= cap)%Q)
    /\ (Coupon.discountType coupon = "percent" ->
        Coupon.discountValue coupon = 20%Q ->
        Coupon.maxDiscount coupon = Some 500%Q ->
        orderTotal = 10000%Q ->
        discountOf coupon orderTotal = 500%Q).
Proof.
  intros Hpass. eexists. eexists.
  split; [apply validateCoupon_run; exact Hpass|].
  split; [|split].
  - intros Hflat. unfold discountOf. now rewrite Hflat.
  - intros Hpct cap Hcap Hnz. unfold discountOf. rewrite Hpct, Hcap. simpl.
    apply Qnonzero_true in Hnz. rewrite Hnz. simpl.
    fold (percentOf coupon orderTotal). rewrite Qmin_as_test.
    split; [reflexivity | apply Q.le_min_r].
  - intros Hpct Hval Hcap Htot. unfold discountOf.
    rewrite Hpct, Hcap, Hval, Htot. reflexivity.
Qed.

Definition couponWorld (cap : option Q) : World :=
  mkWorld (mkDb [1] [] [] [] [] [] [] []
             [Coupon.mk 1 "SAVE20" "percent" 20 cap 0 0 5000 10 0 1] 1 1) [].

Lemma coupon_discount_flat_or_capped_percent_witness :
  discountOf (Coupon.mk 1 "SAVE20" "percent" 20 (Some 500%Q) 0 0 5000 10 0 1)
    10000 = 500%Q
  /\ (500 <= 500)%Q.
Proof.
  pose proof (coupon_discount_flat_or_capped_percent
                (couponWorld (Some 500%Q)) (Payload.mk None (Some 1)) "save20"
                10000 1000
                (Coupon.mk 1 "SAVE20" "percent" 20 (Some 500%Q) 0 0 5000 10 0 1))
    as H.
  destruct H as [w' [message [_ [_ [Hcap Hex]]]]].
  - repeat split.
    + discriminate.
    + intros E. vm_compute in E. discriminate.
    + intros E. vm_compute in E. discriminate.
  - split.
    + apply Hex; reflexivity.
    + destruct (Hcap eq_refl 500%Q eq_refl) as [_ Hle].
      * intros E. vm_compute in E. discriminate.
      * rewrite (Hex eq_refl eq_refl eq_refl eq_refl) in Hle. exact Hle.
Defined.

(** A percent coupon stored with a cap of 0 is not capped. *)
Lemma zero_cap_is_not_applied :
  ~ cappedDiscountClaim (couponWorld (Some 0%Q)) (Payload.mk None (Some 1))
      "save20" 10000 1000
      (Coupon.mk 1 "SAVE20" "percent" 20 (Some 0%Q) 0 0 5000 10 0 1).
Proof.
  intros H. destruct H as [w' [message [_ [_ Hcap]]]].
  - repeat split.
    + discriminate.
    + intros E. vm_compute in E. discriminate.
    + intros E. vm_compute in E. discriminate.
  - destruct (Hcap eq_refl 0%Q eq_refl) as [_ Hle].
    vm_compute in Hle. apply Hle. reflexivity.
Qed.

(** C10.  POST /validate answers an order total of 0 with 400 "Missing
    required fields", whatever the code and whatever coupons the store
    holds: the world is returned as it was, with no call added to the
    log, so the coupon lookup has not run. *)
Theorem zero_total_is_missing_field
    (w : World) (payload : Payload.t) (code : option string) (orderTotal : Q)
    (now : Z) :
  (orderTotal == 0)%Q ->
  route_validateCoupon (Verified payload) code (Some orderTotal) now w
  = (w, mkResponse 400 (BError "Missing required fields")).
Proof.
  intros Hz. unfold route_validateCoupon, authenticateBusinessOwnerJWT,
    validateCoupon, truthyQ, Qnonzero.
  apply Qeq_bool_iff in Hz. rewrite Hz. simpl.
  rewrite orb_true_r. reflexivity.
Qed.

Lemma zero_total_is_missing_field_witness :
  (0 == 0)%Q
  /\ findCoupon
       (db (mkWorld (mkDb [1] [] [] [] [] [] [] []
                       [Coupon.mk 1 "FLAT50" "flat" 50 None 0 0 5000 10 0 1] 1 1) []))
       "FLAT50" (Some 1) 1000
     = Some (Coupon.mk 1 "FLAT50" "flat" 50 None 0 0 5000 10 0 1)
  /\ route_validateCoupon (ownerOf 1) (Some "flat50") (Some 0%Q) 1000
       (mkWorld (mkDb [1] [] [] [] [] [] [] []
                   [Coupon.mk 1 "FLAT50" "flat" 50 None 0 0 5000 10 0 1] 1 1) [])
     = (mkWorld (mkDb [1] [] [] [] [] [] [] []
                   [Coupon.mk 1 "FLAT50" "flat" 50 None 0 0 5000 10 0 1] 1 1) [],
        mkResponse 400 (BError "Missing required fields")).
Proof.
  split; [reflexivity|]. split; [reflexivity|].
  apply zero_total_is_missing_field. reflexivity.
Defined.

(** ** The steps of order creation *)

Lemma setInventoryItems_same (d : Db) : setInventoryItems (inventoryItems d) d = d.
Proof. destruct d; reflexivity. Qed.

Lemma setCustomers_same (d : Db) : setCustomers (customers d) d = d.
Proof. destruct d; reflexivity. Qed.

Lemma updateFirst_existsb {A} (p q : A -> bool) (f : A -> A) (l l' : list A) :
  (forall a, q (f a) = q a) ->
  updateFirst p f l = Some l' -> existsb q l' = existsb q l.
Proof.
  intros Hq. revert l'. induction l as [|x l IH]; simpl; intros l' H.
  - discriminate.
  - destruct (p x).
    + injection H as <-. simpl. now rewrite Hq.
    + destruct (updateFirst p f l) as [r|]; [|discriminate].
      injection H as <-. simpl. now rewrite (IH r eq_refl).
Qed.

(** A step that only rewrites the customers table. *)
Definition touchesCustomers (w w' : World) : Prop :=
  exists cs, db w' = setCustomers cs (db w)
             /\ forall c, existsb (fun x => Customer.id x =? c) cs
                          = customerExists (db w) c.

(** A step that only rewrites the inventory table. *)
Definition touchesInventory (w w' : World) : Prop :=
  exists inv, db w' = setInventoryItems inv (db w).

Lemma touchesCustomers_refl (w w' : World) :
  db w' = db w -> touchesCustomers w w'.
Proof.
  intros H. exists (customers (db w)).
  split; [now rewrite setCustomers_same | reflexivity].
Qed.

Lemma touchesInventory_trans (w1 w2 w3 : World) :
  touchesInventory w1 w2 -> touchesInventory w2 w3 -> touchesInventory w1 w3.
Proof.
  intros [i1 H1] [i2 H2]. exists i2. rewrite H2, H1. reflexivity.
Qed.

Lemma customer_update_run (w : World) (id : Z) (f : Customer.t -> Customer.t)
    (c : Customer.t) :
  (forall a, Customer.id (f a) = Customer.id a) ->
  find (fun x => Customer.id x =? id) (customers (db w)) = Some c ->
  exists cs,
    prisma_customer_update id f w
      = (mkWorld (setCustomers cs (db w)) (log w ++ [customer_update]), Some tt)
    /\ find (fun x => Customer.id x =? id) cs = Some (f c)
    /\ forall k, existsb (fun x => Customer.id x =? k) cs = customerExists (db w) k.
Proof.
  intros Hid Hfind.
  destruct (updateFirst_find _ f _ _ Hfind) as [cs Hcs].
  exists cs. unfold prisma_customer_update, call. rewrite Hcs.
  split; [reflexivity|]. split.
  - apply (updateFirst_find_after (fun x => Customer.id x =? id) f
             (customers (db w)) cs c); auto.
    intros a. now rewrite Hid.
  - intros k. unfold customerExists.
    apply (updateFirst_existsb _ _ f _ _ (fun a => f_equal (fun z => z =? k) (Hid a)) Hcs).
Qed.

Lemma redeemPoints_run (customerId pointsUsed : option Z) (w : World) :
  exists w', redeemPoints customerId pointsUsed w = (w', Some tt)
             /\ touchesCustomers w w'.
Proof.
  assert (Hskip : exists w', ret tt w = (w', Some tt) /\ touchesCustomers w w').
  { exists w. split; [reflexivity | apply touchesCustomers_refl; reflexivity]. }
  unfold redeemPoints.
  destruct customerId as [cid|]; [|destruct pointsUsed; exact Hskip].
  destruct pointsUsed as [pts|]; [|exact Hskip].
  destruct (negb (cid =? 0) && negb (pts =? 0) && (0 <? pts)); [|exact Hskip].
  unfold bind, prisma_customer_findUnique, query, call.
  destruct (find (fun c => Customer.id c =? cid) (customers (db w))) as [c|] eqn:Hf.
  - destruct (pts <=? Customer.points c).
    + match goal with
      | |- context [prisma_customer_update cid ?f ?w0] =>
          destruct (customer_update_run w0 cid f c (fun a => eq_refl) Hf)
            as [cs [Hrun [_ Hex]]]
      end.
      rewrite Hrun. eexists. split; [reflexivity|].
      exists cs. simpl. split; [reflexivity | exact Hex].
    + eexists. split; [reflexivity | apply touchesCustomers_refl; reflexivity].
  - eexists. split; [reflexivity | apply touchesCustomers_refl; reflexivity].
Qed.


Definition accrued (total_amount : Q) (c : Customer.t) : Customer.t :=
  Customer.mk (Customer.id c) (Customer.customerId c) (Customer.businessId c)
    (Customer.totalOrders c + 1) (Customer.totalMoneySpent c + total_amount)%Q
    (Customer.points c + earnedPoints total_amount).

Lemma accruePoints_found (cid : Z) (total_amount : Q) (w : World) (c : Customer.t) :
  cid <> 0 ->
  find (fun x => Customer.id x =? cid) (customers (db w)) = Some c ->
  exists w', accruePoints (Some cid) total_amount w = (w', Some tt)
             /\ touchesCustomers w w'
             /\ find (fun x => Customer.id x =? cid) (customers (db w'))
                = Some (accrued total_amount c).
Proof.
  intros Hnz Hf. unfold accruePoints.
  apply Z.eqb_neq in Hnz. rewrite Hnz. simpl.
  destruct (customer_update_run w cid (accrued total_amount) c (fun a => eq_refl) Hf)
    as [cs [Hrun [Hfind Hex]]].
  unfold accrued in Hrun. rewrite Hrun. eexists. split; [reflexivity|].
  split; [exists cs; simpl; auto|]. simpl. exact Hfind.
Qed.

Lemma accruePoints_run (customerId : option Z) (total_amount : Q) (w : World) :
  (forall c, customerId = Some c -> customerExists (db w) c = true) ->
  exists w', accruePoints customerId total_amount w = (w', Some tt)
             /\ touchesCustomers w w'.
Proof.
  intros Hex. destruct customerId as [cid|].
  - destruct (Z.eq_dec cid 0) as [->|Hnz].
    + eexists. split; [reflexivity | apply touchesCustomers_refl; reflexivity].
    + specialize (Hex cid eq_refl). apply find_existsb in Hex.
      destruct Hex as [c Hc].
      destruct (accruePoints_found cid total_amount w c Hnz Hc) as [w' [H1 [H2 _]]].
      eauto.
  - eexists. split; [reflexivity | apply touchesCustomers_refl; reflexivity].
Qed.

Lemma forEach_touchesInventory {A} (body : A -> Prisma unit) (l : list A) :
  (forall x w, exists w', body x w = (w', Some tt) /\ touchesInventory w w') ->
  forall w, exists w', forEach l body w = (w', Some tt) /\ touchesInventory w w'.
Proof.
  intros Hbody. induction l as [|x l IH]; intros w; simpl.
  - exists w. split; [reflexivity|].
    exists (inventoryItems (db w)). now rewrite setInventoryItems_same.
  - unfold bind. destruct (Hbody x w) as [w1 [-> H1]].
    destruct (IH w1) as [w2 [-> H2]].
    exists w2. split; [reflexivity|]. eapply touchesInventory_trans; eauto.
Qed.

Lemma deductInventory_run (businessId : Z) (item : CartItem.t) (w : World) :
  exists w', deductInventory businessId item w = (w', Some tt)
             /\ touchesInventory w w'.
Proof.
  unfold deductInventory, bind at 1. unfold prisma_product_findUnique, query, call.
  match goal with
  | |- context [forEach ?l ?b ?w0] =>
      destruct (forEach_touchesInventory b l) with (w := w0) as [w' [Hrun Ht]]
  end.
  - intros ing w1. destruct (Ingredient.quantity ing).
    + eexists. split; [reflexivity|]. eexists. reflexivity.
    + exists w1. split; [reflexivity|].
      exists (inventoryItems (db w1)). now rewrite setInventoryItems_same.
  - rewrite Hrun. exists w'. split; [reflexivity|].
    destruct Ht as [inv Hinv]. exists inv. exact Hinv.
Qed.

(** ** Order creation *)

(** A valid creation request: every required field is present and
    truthy, the cart is a non-empty array, and the rows it refers to
    (business, customer of the token, products) exist, as the foreign
    keys of the store demand. *)
Record ValidOrderRequest (w : World) (auth : Authorization) (body : OrderBody.t)
    (businessId table_number : Z) (cart_items : list CartItem.t)
    (total_amount : Q) (payment_method estimated_time : string) : Prop := {
  valid_businessId : OrderBody.businessId body = Some businessId;
  valid_businessId_truthy : businessId <> 0;
  valid_table_number : OrderBody.table_number body = Some table_number;
  valid_table_number_truthy : table_number <> 0;
  valid_cart_items : OrderBody.cart_items body = Some cart_items;
  valid_cart_nonempty : cart_items <> [];
  valid_total_amount : OrderBody.total_amount body = Some total_amount;
  valid_total_amount_truthy : ~ (total_amount == 0)%Q;
  valid_payment_method : OrderBody.payment_method body = Some payment_method;
  valid_payment_method_truthy : payment_method <> "";
  valid_estimated_time : OrderBody.estimated_time body = Some estimated_time;
  valid_estimated_time_truthy : estimated_time <> "";
  valid_business : businessExists (db w) businessId = true;
  valid_customer :
    forall c, tokenCustomerId auth = Some c -> customerExists (db w) c = true;
  valid_products :
    forall item, In item cart_items ->
                 productExists (db w) (CartItem.productId item) = true
}.

Section Creation.
Variables (w : World) (auth : Authorization) (body : OrderBody.t) (now : Z).
Variables (businessId table_number : Z) (cart_items : list CartItem.t).
Variables (total_amount : Q) (payment_method estimated_time : string).
Hypothesis valid :
  ValidOrderRequest w auth body businessId table_number cart_items
    total_amount payment_method estimated_time.

(** The header row and the item rows that the request inserts. *)
Definition orderRow : Order.t :=
  Order.mk (nextOrderId (db w)) businessId (tokenCustomerId auth) table_number
    (Some total_amount) payment_method (Some estimated_time) "Pending" now.

Definition itemRows : list OrderItem.t :=
  insertItems (nextOrderId (db w)) (nextOrderItemId (db w))
    (map pendingItem cart_items).

Definition afterCreate : World :=
  let d := db w in
  mkWorld
    (mkDb (businesses d) (customers d) (products d) (inventoryItems d)
       (tables d) (orders d ++ [orderRow])%list (orderItems d ++ itemRows)%list
       (plans d) (coupons d) (nextOrderId d + 1)
       (nextOrderItemId d + Z.of_nat (length (map pendingItem cart_items))))
    (log w ++ [order_create]).

Lemma order_create_run :
  prisma_order_create table_number total_amount payment_method estimated_time
    "Pending" businessId (tokenCustomerId auth) (map pendingItem cart_items)
    now w
  = (afterCreate,
     Some (orderRow, itemsOf (db afterCreate) (nextOrderId (db w)))).
Proof.
  unfold prisma_order_create, call.
  rewrite (valid_business _ _ _ _ _ _ _ _ _ valid).
  assert (Hc : match tokenCustomerId auth with
               | Some c => customerExists (db w) c
               | None => true
               end = true).
  { destruct (tokenCustomerId auth) as [c|] eqn:E; [|reflexivity].
    now apply (valid_customer _ _ _ _ _ _ _ _ _ valid). }
  rewrite Hc.
  assert (Hp : itemsReferToProducts (db w) (map pendingItem cart_items) = true).
  { unfold itemsReferToProducts. apply forallb_forall. intros x Hx.
    apply in_map_iff in Hx. destruct Hx as [item [<- Hin]]. simpl.
    now apply (valid_products _ _ _ _ _ _ _ _ _ valid). }
  rewrite Hp. reflexivity.
Qed.

(** The run of a valid request, step by step: the insert, the
    redemption, the accrual, the inventory loop, the 201 answer. *)
Lemma postOrder_steps :
  exists w2 w3 w4,
    redeemPoints (tokenCustomerId auth) (OrderBody.pointsUsed body) afterCreate
      = (w2, Some tt)
    /\ touchesCustomers afterCreate w2
    /\ accruePoints (tokenCustomerId auth) total_amount w2 = (w3, Some tt)
    /\ touchesCustomers w2 w3
    /\ touchesInventory w3 w4
    /\ postOrder auth body now w
       = (w4, Some (mkResponse 201
                      (BOrderCreated (orderTag (nextOrderId (db w))) table_number
                         "Pending" "Order placed successfully"
                         (Some estimated_time) now
                         (itemsOf (db afterCreate) (nextOrderId (db w)))))).
Proof.
  destruct (redeemPoints_run (tokenCustomerId auth) (OrderBody.pointsUsed body)
              afterCreate) as [w2 [H2 T2]].
  assert (Hex2 : forall c, tokenCustomerId auth = Some c ->
                           customerExists (db w2) c = true).
  { intros c Hc. destruct T2 as [cs [Hdb Hcs]]. rewrite Hdb.
    unfold customerExists at 1. simpl. rewrite Hcs.
    now apply (valid_customer _ _ _ _ _ _ _ _ _ valid). }
  destruct (accruePoints_run (tokenCustomerId auth) total_amount w2 Hex2)
    as [w3 [H3 T3]].
  destruct (forEach_touchesInventory (deductInventory businessId) cart_items
              (deductInventory_run businessId) w3) as [w4 [H4 T4]].
  exists w2, w3, w4. repeat (split; [assumption|]).
  unfold postOrder.
  rewrite (valid_businessId _ _ _ _ _ _ _ _ _ valid),
    (valid_table_number _ _ _ _ _ _ _ _ _ valid),
    (valid_cart_items _ _ _ _ _ _ _ _ _ valid),
    (valid_total_amount _ _ _ _ _ _ _ _ _ valid),
    (valid_payment_method _ _ _ _ _ _ _ _ _ valid),
    (valid_estimated_time _ _ _ _ _ _ _ _ _ valid).
  unfold truthyZ, truthyQ, truthyStr, nonEmpty.
  pose proof (valid_businessId_truthy _ _ _ _ _ _ _ _ _ valid) as Hb.
  pose proof (valid_table_number_truthy _ _ _ _ _ _ _ _ _ valid) as Ht.
  pose proof (valid_total_amount_truthy _ _ _ _ _ _ _ _ _ valid) as Hq.
  pose proof (valid_payment_method_truthy _ _ _ _ _ _ _ _ _ valid) as Hpm.
  pose proof (valid_estimated_time_truthy _ _ _ _ _ _ _ _ _ valid) as Het.
  pose proof (valid_cart_nonempty _ _ _ _ _ _ _ _ _ valid) as Hne.
  apply Z.eqb_neq in Hb, Ht. apply Qnonzero_true in Hq.
  apply String.eqb_neq in Hpm, Het.
  rewrite Hb, Ht, Hq, Hpm, Het. simpl.
  assert (Hlen : (length cart_items =? 0)%nat = false).
  { destruct cart_items; [congruence | reflexivity]. }
  rewrite Hlen.
  unfold bind at 1. rewrite order_create_run.
  unfold bind at 1. rewrite H2.
  unfold bind at 1. rewrite H3.
  unfold bind at 1. rewrite H4.
  reflexivity.
Qed.
End Creation.











Definition guestBody : OrderBody.t :=
  OrderBody.mk (Some 1) (Some 4) (Some [CartItem.mk 1 2 100 "X" None])
    (Some 200%Q) (Some "cash") (Some "15m") None.

(** The store of a tenant whose product 1 is priced 120 and is made of
    two units of flour. *)
Definition firstOrderWorld : World :=
  mkWorld
    (mkDb [1] [Customer.mk 7 1 1 0 0 30]
       [Product.mk 1 1 120 (Some [Ingredient.mk "flour" (Some 2%Q)])]
       [InventoryItem.mk 1 "flour" 50 1] [Table.mk 1 4 1 false] [] [] [] [] 1 1)
    [].



(** ** Redemption beyond the balance *)



(** The payload that the customer login of this repository signs has the
    keys [customerId], [email] and [businessId]; the key [id] that POST /
    reads is not among them. *)
Definition loginPayload (c : Customer.t) : Payload.t :=
  Payload.mk None (Some (Customer.businessId c)).

(** An order placed with a login token is a guest order. *)
Remark login_token_is_guest (c : Customer.t) :
  tokenCustomerId (Verified (loginPayload c)) = None.
Proof. reflexivity. Qed.




(** ** Stored order status *)

Definition storedStatus (w : World) (orderId : Z) : option string :=
  option_map Order.status (findOrder (db w) orderId).

(** An owner-side caller of the tenant that owns the order. *)
Definition ownsOrder (w : World) (payload : Payload.t) (orderId : Z)
    (order : Order.t) : Prop :=
  Payload.businessId payload = Some (Order.businessId order)
  /\ Order.businessId order <> 0
  /\ findOrder (db w) orderId = Some order.

Lemma filter_updateWhere {A} (q p : A -> bool) (f : A -> A) (l : list A) :
  (forall x, q (f x) = q x) ->
  filter q (updateWhere p f l) = updateWhere p f (filter q l).
Proof.
  intros Hq. unfold updateWhere. induction l as [|x l IH]; simpl; [reflexivity|].
  destruct (p x) eqn:Hp.
  - rewrite Hq. destruct (q x); simpl; [rewrite Hp|]; now rewrite IH.
  - destruct (q x); simpl; [rewrite Hp|]; now rewrite IH.
Qed.

Lemma order_update_status_run (w : World) (orderId : Z) (status : string)
    (order : Order.t) :
  findOrder (db w) orderId = Some order ->
  exists os,
    prisma_order_update_status orderId (Some status) w
    = (mkWorld (setOrders os (db w)) (log w ++ [order_update]),
       Some (Order.withStatus status order,
             itemsOf (setOrders os (db w)) orderId))
    /\ updateFirst (fun o => Order.id o =? orderId) (Order.withStatus status)
         (orders (db w)) = Some os
    /\ find (fun o => Order.id o =? orderId) os
       = Some (Order.withStatus status order).
Proof.
  intros Hf. unfold findOrder in Hf.
  destruct (updateFirst_find _ (Order.withStatus status) _ _ Hf) as [os Hos].
  pose proof (updateFirst_find_after (fun o => Order.id o =? orderId)
                (Order.withStatus status) (orders (db w)) os order
                (fun a => eq_refl) Hf Hos) as Hafter.
  exists os. unfold prisma_order_update_status, call.
  change (fun o : Order.t => Order.withStatus status o)
    with (Order.withStatus status).
  rewrite Hos. unfold findOrder. simpl. rewrite Hafter.
  split; [reflexivity|]. split; reflexivity.
Qed.

Lemma withOwnedOrder_run {A} (w w1 : World) (payload : Payload.t)
    (find_ : Prisma (option A)) (orderOf : A -> Order.t)
    (k : A -> Prisma Response) (existing : A) :
  Payload.businessId payload = Some (Order.businessId (orderOf existing)) ->
  Order.businessId (orderOf existing) <> 0 ->
  find_ w = (w1, Some (Some existing)) ->
  withOwnedOrder payload find_ orderOf k w = k existing w1.
Proof.
  intros Hp Hnz Hfind. unfold withOwnedOrder. rewrite Hp.
  apply Z.eqb_neq in Hnz. rewrite Hnz.
  unfold bind. rewrite Hfind. now rewrite Z.eqb_refl.
Qed.

(** The bulk operation run by an owner of the order: every item of the
    order is set to Completed and the header is set to Completed. *)
Lemma completeAll_run (w : World) (payload : Payload.t) (orderId : Z)
    (order : Order.t) :
  ownsOrder w payload orderId order ->
  exists w',
    route_completeAll (Verified payload) orderId w
    = (w', mkResponse 200
             (BCompleteAll "All items marked as completed successfully"
                "Completed"))
    /\ findOrder (db w') orderId = Some (Order.withStatus "Completed" order)
    /\ itemsOf (db w') orderId
       = map (OrderItem.withStatus "Completed") (itemsOf (db w) orderId).
Proof.
  intros [Hp [Hnz Hf]].
  unfold route_completeAll, authenticateBusinessOwnerJWT, tryCatch, completeAll.
  rewrite (withOwnedOrder_run w (mkWorld (db w) (log w ++ [order_findUnique]))
             payload _ (fun o => o) _ order Hp Hnz)
    by (unfold prisma_order_findUnique, query, call; now rewrite Hf).
  unfold bind at 1. unfold prisma_orderItem_updateMany at 1, call at 1. simpl.
  unfold bind at 1.
  match goal with
  | |- context [prisma_order_update_status orderId (Some "Completed") ?w0] =>
      destruct (order_update_status_run w0 orderId "Completed" order Hf)
        as [os [Hrun [_ Hafter]]]
  end.
  rewrite Hrun. eexists. split; [reflexivity|]. simpl.
  split; [exact Hafter|].
  unfold itemsOf. simpl.
  rewrite filter_updateWhere by reflexivity.
  unfold updateWhere. apply map_ext_in.
  intros i Hi. apply filter_In in Hi. destruct Hi as [_ Hi]. now rewrite Hi.
Qed.

(** The items of an order after the item-status update of a product. *)
Definition itemsAfterPatch (w : World) (orderId productId : Z)
    (status : option string) : list OrderItem.t :=
  updateWhere (fun i => OrderItem.productId i =? productId)
    (fun i => match status with
              | Some s => OrderItem.withStatus s i
              | None => i
              end)
    (itemsOf (db w) orderId).

Lemma itemsOf_after_updateMany (w : World) (orderId productId : Z)
    (status : option string) :
  itemsOf
    (setOrderItems
       (updateWhere
          (fun i => (OrderItem.orderId i =? orderId)
                    && (OrderItem.productId i =? productId))
          (fun i => match status with
                    | Some s => OrderItem.withStatus s i
                    | None => i
                    end)
          (orderItems (db w))) (db w)) orderId
  = itemsAfterPatch w orderId productId status.
Proof.
  unfold itemsOf, itemsAfterPatch. simpl.
  rewrite filter_updateWhere by (intros x; destruct status; reflexivity).
  unfold updateWhere. apply map_ext_in.
  intros i Hi. apply filter_In in Hi. destruct Hi as [_ Hi]. now rewrite Hi.
Qed.

(** Item-status update run by an owner of the order on a product the
    order holds: the matching items get the new status and the header
    gets the status derived from the items as they are afterwards. *)
Lemma patchItemStatus_run (w : World) (payload : Payload.t)
    (orderId productId : Z) (status : option string) (order : Order.t)
    (item : OrderItem.t) :
  ownsOrder w payload orderId order ->
  jsFind (fun i => OrderItem.productId i =? productId) (itemsOf (db w) orderId)
    = Some item ->
  let items' := itemsAfterPatch w orderId productId status in
  exists w',
    route_patchItemStatus (Verified payload) orderId productId status w
    = (w', mkResponse 200
             (BItemStatus "Item status updated successfully" productId status
                (orderStatusOf items')))
    /\ findOrder (db w') orderId
       = Some (Order.withStatus (orderStatusOf items') order)
    /\ itemsOf (db w') orderId = items'.
Proof.
  intros [Hp [Hnz Hf]] Hitem items'.
  unfold route_patchItemStatus, authenticateBusinessOwnerJWT, tryCatch,
    patchItemStatus.
  rewrite (withOwnedOrder_run w (mkWorld (db w) (log w ++ [order_findUnique]))
             payload _ fst _ (order, itemsOf (db w) orderId) Hp Hnz)
    by (unfold prisma_order_findUnique_items, query, call; now rewrite Hf).
  cbv beta. cbn [snd]. rewrite Hitem.
  unfold bind at 1. unfold prisma_orderItem_updateMany at 1, call at 1.
  cbv beta iota. cbn [db log].
  unfold bind at 1. unfold prisma_order_findUnique_items at 1, query, call at 1.
  cbv beta iota. cbn [db log].
  rewrite itemsOf_after_updateMany. fold items'.
  change (findOrder (setOrderItems _ (db w)) orderId) with (findOrder (db w) orderId).
  rewrite Hf. cbv beta iota.
  unfold bind at 1.
  match goal with
  | |- context [prisma_order_update_status orderId (Some ?s) ?w0] =>
      destruct (order_update_status_run w0 orderId s order Hf)
        as [os [Hrun [_ Hafter]]]
  end.
  rewrite Hrun. eexists. split; [reflexivity|]. cbn [db].
  split; [exact Hafter|].
  change (itemsOf (setOrders os (setOrderItems _ (db w))) orderId)
    with (itemsOf (setOrderItems
                     (updateWhere
                        (fun i => (OrderItem.orderId i =? orderId)
                                  && (OrderItem.productId i =? productId))
                        (fun i => match status with
                                  | Some s => OrderItem.withStatus s i
                                  | None => i
                                  end)
                        (orderItems (db w))) (db w)) orderId).
  apply itemsOf_after_updateMany.
Qed.

Definition allCompleted (items : list OrderItem.t) : Prop :=
  Forall (fun i => OrderItem.status i = "Completed") items.

Lemma allItemsCompleted_spec (items : list OrderItem.t) :
  allItemsCompleted items = true <-> allCompleted items.
Proof.
  unfold allItemsCompleted, allCompleted. rewrite forallb_forall, Forall_forall.
  split; intros H i Hi; [apply String.eqb_eq | apply String.eqb_eq]; auto.
Qed.

(** The derivation: Completed exactly for a non-empty list of items
    that are all Completed, Pending otherwise. *)
Lemma orderStatusOf_spec (items : list OrderItem.t) :
  (orderStatusOf items = "Completed" <-> items <> [] /\ allCompleted items)
  /\ (orderStatusOf items = "Pending" <-> ~ (items <> [] /\ allCompleted items)).
Proof.
  unfold orderStatusOf.
  destruct (allItemsCompleted items) eqn:Hall; simpl.
  - apply allItemsCompleted_spec in Hall.
    destruct items as [|i r]; simpl.
    + split; split; try discriminate; try tauto.
    + split; split; try discriminate; try tauto.
      * intros _. split; [discriminate | exact Hall].
      * intros H. exfalso. apply H. split; [discriminate | exact Hall].
  - assert (Hn : ~ allCompleted items).
    { intros H. apply allItemsCompleted_spec in H. congruence. }
    split; split; try discriminate; try tauto.
Qed.

(** After the item-status update the stored order status is the
    derivation from the items as stored. *)
Lemma item_patch_stores_derived_status (w : World) (payload : Payload.t)
    (orderId productId : Z) (status : option string) (order : Order.t)
    (item : OrderItem.t) :
  ownsOrder w payload orderId order ->
  jsFind (fun i => OrderItem.productId i =? productId) (itemsOf (db w) orderId)
    = Some item ->
  let w' := fst (route_patchItemStatus (Verified payload) orderId productId
                   status w) in
  storedStatus w' orderId = Some (orderStatusOf (itemsOf (db w') orderId)).
Proof.
  intros Hown Hitem.
  destruct (patchItemStatus_run w payload orderId productId status order item
              Hown Hitem) as [w' [Hrun [Hst Hitems]]].
  rewrite Hrun. simpl. unfold storedStatus. rewrite Hst, Hitems. reflexivity.
Qed.

(** After complete-all on an order that has items the stored status is
    Completed, as the derivation gives. *)
Lemma complete_all_with_items_stores_derived_status (w : World)
    (payload : Payload.t) (orderId : Z) (order : Order.t) :
  ownsOrder w payload orderId order ->
  itemsOf (db w) orderId <> [] ->
  let w' := fst (route_completeAll (Verified payload) orderId w) in
  storedStatus w' orderId = Some (orderStatusOf (itemsOf (db w') orderId)).
Proof.
  intros Hown Hne.
  destruct (completeAll_run w payload orderId order Hown) as [w' [Hrun [Hst Hitems]]].
  rewrite Hrun. simpl. unfold storedStatus. rewrite Hst, Hitems. simpl.
  f_equal. symmetry. apply orderStatusOf_spec. split.
  - destruct (itemsOf (db w) orderId); [congruence | discriminate].
  - unfold allCompleted. rewrite Forall_map. apply Forall_forall. reflexivity.
Qed.

(** C1, where the code departs from it.  Complete-all run by the owner
    on an order that has no items stores Completed, while the order's
    item list is still empty and the derivation used by the other
    paths gives Pending. *)
Theorem complete_all_without_items_stores_completed (w : World)
    (payload : Payload.t) (orderId : Z) (order : Order.t) :
  ownsOrder w payload orderId order ->
  itemsOf (db w) orderId = [] ->
  let w' := fst (route_completeAll (Verified payload) orderId w) in
  storedStatus w' orderId = Some "Completed"
  /\ itemsOf (db w') orderId = []
  /\ orderStatusOf (itemsOf (db w') orderId) = "Pending".
Proof.
  intros Hown Hempty.
  destruct (completeAll_run w payload orderId order Hown) as [w' [Hrun [Hst Hitems]]].
  rewrite Hrun. simpl. unfold storedStatus. rewrite Hst, Hitems, Hempty.
  repeat split.
Qed.

Definition emptyCartBody : OrderBody.t :=
  OrderBody.mk (Some 1) None (Some []) None None None None.

(** The store after a guest order and an update that empties its cart. *)
Definition emptiedOrderWorld : World :=
  runRequests [PostOrder NoBearer guestBody 1000; PutOrder NoBearer 1 emptyCartBody]
    firstOrderWorld.

Lemma complete_all_without_items_stores_completed_witness :
  itemsOf (db emptiedOrderWorld) 1 = []
  /\ storedStatus emptiedOrderWorld 1 = Some "Pending"
  /\ storedStatus (fst (route_completeAll (ownerOf 1) 1 emptiedOrderWorld)) 1
     = Some "Completed"
  /\ orderStatusOf
       (itemsOf (db (fst (route_completeAll (ownerOf 1) 1 emptiedOrderWorld))) 1)
     = "Pending".
Proof.
  split; [reflexivity|]. split; [reflexivity|].
  destruct (complete_all_without_items_stores_completed emptiedOrderWorld
              (Payload.mk None (Some 1)) 1
              (Order.mk 1 1 None 4 (Some 200%Q) "cash" (Some "15m") "Pending" 1000))
    as [H1 [_ H3]].
  - repeat split. discriminate.
  - reflexivity.
  - split; [exact H1 | exact H3].
Defined.

(** ** Order update (full replace of the items) *)

Lemma insertItems_orderId (orderId : Z) (data : list ItemData.t) :
  forall next,
    Forall (fun row => OrderItem.orderId row = orderId)
           (insertItems orderId next data).
Proof.
  induction data as [|x r IH]; intros next; simpl; constructor; auto.
Qed.

Lemma filter_all {A} (q : A -> bool) (l : list A) :
  Forall (fun x => q x = true) l -> filter q l = l.
Proof.
  induction 1 as [|x l Hx Hl IH]; simpl; [reflexivity|].
  now rewrite Hx, IH.
Qed.

Lemma filter_none {A} (q : A -> bool) (l : list A) :
  filter q (filter (fun x => negb (q x)) l) = [].
Proof.
  induction l as [|x l IH]; simpl; [reflexivity|].
  destruct (q x) eqn:Hq; simpl; [exact IH | now rewrite Hq].
Qed.

(** The items of the order once its old rows are deleted and the rows
    of the nested create are inserted. *)
Lemma itemsOf_replaced (orderId next : Z) (old : list OrderItem.t)
    (data : list ItemData.t) :
  filter (fun i => OrderItem.orderId i =? orderId)
    (filter (fun i => negb (OrderItem.orderId i =? orderId)) old
       ++ insertItems orderId next data)
  = insertItems orderId next data.
Proof.
  rewrite filter_app, filter_none. simpl. apply filter_all.
  eapply Forall_impl; [|apply insertItems_orderId].
  intros row Hrow. simpl in Hrow. rewrite Hrow. apply Z.eqb_refl.
Qed.

(** A PUT that goes through: the body names the tenant of the order,
    carries a cart, and the cart refers to existing products. *)
Record AcceptedUpdate (w : World) (orderId : Z) (body : OrderBody.t)
    (order : Order.t) (cart_items : list CartItem.t) : Prop := {
  accepted_businessId : OrderBody.businessId body = Some (Order.businessId order);
  accepted_businessId_truthy : Order.businessId order <> 0;
  accepted_order : findOrder (db w) orderId = Some order;
  accepted_cart : OrderBody.cart_items body = Some cart_items;
  accepted_products :
    forall item, In item cart_items ->
                 productExists (db w) (CartItem.productId item) = true
}.

(** The header row as the PUT rewrites it: four columns, not the status. *)
Definition updatedHeader (body : OrderBody.t) (o : Order.t) : Order.t :=
  Order.mk (Order.id o) (Order.businessId o) (Order.customerId o)
    (orElseZ (OrderBody.table_number body) (Order.tableNumber o))
    (match OrderBody.total_amount body with
     | Some q => Some q
     | None => Order.totalAmount o
     end)
    (match OrderBody.payment_method body with
     | Some s => s
     | None => Order.paymentMethod o
     end)
    (match OrderBody.estimated_time body with
     | Some s => Some s
     | None => Order.estimatedTime o
     end)
    (Order.status o) (Order.createdAt o).

Definition replacedRows (w : World) (orderId : Z) (cart_items : list CartItem.t)
  : list OrderItem.t :=
  insertItems orderId (nextOrderItemId (db w))
    (map (replacementItem (itemsOf (db w) orderId)) cart_items).

Lemma putOrder_run (w : World) (auth : Authorization) (orderId : Z)
    (body : OrderBody.t) (order : Order.t) (cart_items : list CartItem.t) :
  AcceptedUpdate w orderId body order cart_items ->
  let updated := updatedHeader body order in
  exists w',
    route_putOrder auth orderId body w
    = (w', mkResponse 200
             (BOrderUpdated (orderTag (Order.id updated))
                (Order.tableNumber updated) (Order.totalAmount updated)
                (Order.paymentMethod updated) "Pending"
                (Order.estimatedTime updated) (replacedRows w orderId cart_items)
                "Order updated successfully"))
    /\ findOrder (db w') orderId = Some updated
    /\ itemsOf (db w') orderId = replacedRows w orderId cart_items.
Proof.
  intros [Hb Hnz Hf Hcart Hprod] updated.
  unfold route_putOrder, tryCatch, putOrder. rewrite Hb.
  pose proof Hnz as Hnz'. apply Z.eqb_neq in Hnz'. rewrite Hnz'.
  unfold bind at 1. unfold prisma_order_findUnique at 1, query, call at 1.
  rewrite Hf. cbv beta iota. rewrite Z.eqb_refl. cbn [negb].
  unfold bind at 1. unfold prisma_orderItem_findMany at 1, query, call at 1.
  cbv beta iota. cbn [db log].
  unfold bind at 1. unfold prisma_orderItem_deleteMany at 1, call at 1.
  cbv beta iota. cbn [db log]. rewrite Hcart.
  unfold bind at 1. unfold prisma_order_update_replace, call.
  cbn [db log].
  assert (Hp : itemsReferToProducts
                 (setOrderItems
                    (filter (fun i => negb (OrderItem.orderId i =? orderId))
                            (orderItems (db w))) (db w))
                 (map (replacementItem (itemsOf (db w) orderId)) cart_items)
               = true).
  { unfold itemsReferToProducts. apply forallb_forall. intros x Hx.
    apply in_map_iff in Hx. destruct Hx as [item [<- Hin]]. simpl.
    now apply Hprod. }
  rewrite Hp.
  unfold findOrder in Hf.
  match goal with
  | |- context [updateFirst ?p ?f (orders ?d)] =>
      destruct (updateFirst_find p f _ _ Hf) as [os Hos];
      pose proof (updateFirst_find_after p f (orders (db w)) os order
                    (fun a => eq_refl) Hf Hos) as Hafter
  end.
  cbn [orders setOrderItems] in *.
  rewrite Hos. unfold findOrder. cbn [orders].
  rewrite Hafter. cbv beta iota.
  assert (Hitems :
    itemsOf
      (mkDb (businesses (db w)) (customers (db w)) (products (db w))
         (inventoryItems (db w)) (tables (db w)) os
         (filter (fun i => negb (OrderItem.orderId i =? orderId))
                 (orderItems (db w))
            ++ insertItems orderId (nextOrderItemId (db w))
                 (map (replacementItem (itemsOf (db w) orderId)) cart_items))%list
         (plans (db w)) (coupons (db w)) (nextOrderId (db w))
         (nextOrderItemId (db w)
          + Z.of_nat (length (map (replacementItem (itemsOf (db w) orderId))
                                  cart_items)))) orderId
    = replacedRows w orderId cart_items).
  { unfold itemsOf at 1. cbn [orderItems]. apply itemsOf_replaced. }
  cbn [businesses customers products inventoryItems tables plans coupons
       nextOrderId nextOrderItemId orderItems setOrderItems].
  rewrite Hitems.
  eexists. split; [reflexivity|]. cbn [db orders].
  split; [exact Hafter | exact Hitems].
Qed.

(** The status field of the answer to a PUT. *)
Definition answeredStatus (r : Response) : option string :=
  match body r with
  | BOrderUpdated _ _ _ _ status _ _ _ => Some status
  | _ => None
  end.

(** The item of the just-deleted set that carries the product id. *)
Definition matchedItem (old : list OrderItem.t) (item : CartItem.t)
  : option OrderItem.t :=
  jsFind (fun existing => OrderItem.productId existing =? CartItem.productId item)
         old.

(** Caller-supplied if truthy, else the matched item's if truthy, else Pending. *)
Lemma replacedItemStatus_spec (item : CartItem.t) (matched : option OrderItem.t) :
  (forall s, CartItem.status item = Some s -> s <> "" ->
             replacedItemStatus item matched = s)
  /\ (truthyStr (CartItem.status item) = false ->
      forall m, matched = Some m -> OrderItem.status m <> "" ->
                replacedItemStatus item matched = OrderItem.status m)
  /\ (truthyStr (CartItem.status item) = false ->
      truthyStr (option_map OrderItem.status matched) = false ->
      replacedItemStatus item matched = "Pending").
Proof.
  unfold replacedItemStatus, orElse. split; [|split].
  - intros s Hs Hne. rewrite Hs. simpl. unfold nonEmpty.
    apply String.eqb_neq in Hne. now rewrite Hne.
  - intros Hf m -> Hne. rewrite Hf. simpl. unfold nonEmpty.
    apply String.eqb_neq in Hne. now rewrite Hne.
  - intros Hf Hm. rewrite Hf, Hm. reflexivity.
Qed.

Lemma insertItems_replaced (orderId : Z) (old : list OrderItem.t)
    (cart_items : list CartItem.t) :
  forall next,
    Forall2 (fun row item =>
               OrderItem.status row = replacedItemStatus item (matchedItem old item)
               /\ OrderItem.price row = CartItem.price item
               /\ OrderItem.name row = CartItem.name item)
      (insertItems orderId next (map (replacementItem old) cart_items))
      cart_items.
Proof.
  induction cart_items as [|item r IH]; intros next; simpl; constructor.
  - repeat split.
  - apply IH.
Qed.

(** C7, where the code departs from it.  A PUT that goes through
    answers 200 with status Pending, but the stored header keeps the
    status it had: the update writes four header columns and the new
    items, not the status.  The new items are as the claim says: each
    gets the caller-supplied status when that is truthy, else the
    status of the deleted item with the same product id, else Pending. *)
Theorem put_order_keeps_stored_status (w : World) (auth : Authorization)
    (orderId : Z) (body : OrderBody.t) (order : Order.t)
    (cart_items : list CartItem.t) :
  AcceptedUpdate w orderId body order cart_items ->
  let w' := fst (route_putOrder auth orderId body w) in
  let answer := snd (route_putOrder auth orderId body w) in
  statusCode answer = 200
  /\ answeredStatus answer = Some "Pending"
  /\ storedStatus w' orderId = Some (Order.status order)
  /\ Forall2 (fun row item =>
                OrderItem.status row
                = replacedItemStatus item (matchedItem (itemsOf (db w) orderId) item)
                /\ OrderItem.price row = CartItem.price item
                /\ OrderItem.name row = CartItem.name item)
       (itemsOf (db w') orderId) cart_items.
Proof.
  intros Hacc.
  destruct (putOrder_run w auth orderId body order cart_items Hacc)
    as [w' [Hrun [Hst Hitems]]].
  rewrite Hrun. simpl.
  split; [reflexivity|]. split; [reflexivity|].
  split; [unfold storedStatus; now rewrite Hst|].
  rewrite Hitems. apply insertItems_replaced.
Qed.

(** The store after a guest order that the owner completed in bulk. *)
Definition completedOrderWorld : World :=
  runRequests [PostOrder NoBearer guestBody 1000; CompleteAll (ownerOf 1) 1]
    firstOrderWorld.

Definition twoItemsBody : OrderBody.t :=
  OrderBody.mk (Some 1) None
    (Some [CartItem.mk 1 2 100 "X" None; CartItem.mk 1 1 100 "Y" (Some "Pending")])
    (Some 300%Q) None None None.

Lemma put_order_keeps_stored_status_witness :
  storedStatus completedOrderWorld 1 = Some "Completed"
  /\ answeredStatus (snd (route_putOrder NoBearer 1 twoItemsBody completedOrderWorld))
     = Some "Pending"
  /\ storedStatus (fst (route_putOrder NoBearer 1 twoItemsBody completedOrderWorld)) 1
     = Some "Completed"
  /\ map OrderItem.status
       (itemsOf (db (fst (route_putOrder NoBearer 1 twoItemsBody
                            completedOrderWorld))) 1)
     = ["Completed"; "Pending"].
Proof.
  split; [reflexivity|].
  destruct (put_order_keeps_stored_status completedOrderWorld NoBearer 1
              twoItemsBody
              (Order.mk 1 1 None 4 (Some 200%Q) "cash" (Some "15m") "Completed" 1000)
              [CartItem.mk 1 2 100 "X" None;
               CartItem.mk 1 1 100 "Y" (Some "Pending")])
    as [_ [H2 [H3 _]]].
  - constructor; try reflexivity; try discriminate.
    intros item [<-|[<-|[]]]; reflexivity.
  - split; [exact H2|]. split; [exact H3 | reflexivity].
Defined.

(** ** Which requests write the stored order status *)

(** A step that leaves the two order tables as they were. *)
Definition keepsOrderTables (w w' : World) : Prop :=
  orders (db w') = orders (db w) /\ orderItems (db w') = orderItems (db w).



Lemma accruePoints_keeps (customerId : option Z) (total_amount : Q) (w : World) :
  keepsOrderTables w (fst (accruePoints customerId total_amount w)).
Proof.
  unfold accruePoints, prisma_customer_update, call, ret.
  destruct customerId as [cid|]; [|split; reflexivity].
  destruct (negb (cid =? 0)); [|split; reflexivity].
  destruct (updateFirst _ _ (customers (db w))); split; reflexivity.
Qed.


Lemma bind_run {A B} (m : Prisma A) (k : A -> Prisma B) (w : World) :
  bind m k w
  = match m w with
    | (w', Some a) => k a w'
    | (w', None) => (w', None)
    end.
Proof. reflexivity. Qed.


Lemma tryCatch_fst (h : Prisma Response) (onError : Response) (w : World) :
  fst (tryCatch h onError w) = fst (h w).
Proof. unfold tryCatch. destruct (h w) as [w' [r|]]; reflexivity. Qed.


















(** The store after one guest order: order 1 with one Pending item. *)
Definition pendingOrderWorld : World :=
  runRequests [PostOrder NoBearer guestBody 1000] firstOrderWorld.



(** ** Tenant scoping of the order routes *)












(** * Further code of the cited files *)

(** ** Order creation: rejections, redemption, guests, inventory *)

(** The run of a valid request with each of its steps. *)
Lemma postOrder_trace
    (w : World) (auth : Authorization) (body : OrderBody.t) (now : Z)
    (businessId table_number : Z) (cart_items : list CartItem.t)
    (total_amount : Q) (payment_method estimated_time : string) :
  ValidOrderRequest w auth body businessId table_number cart_items
    total_amount payment_method estimated_time ->
  let created := afterCreate w auth now businessId table_number cart_items
                   total_amount payment_method estimated_time in
  exists w2 w3 w4,
    redeemPoints (tokenCustomerId auth) (OrderBody.pointsUsed body) created
      = (w2, Some tt)
    /\ accruePoints (tokenCustomerId auth) total_amount w2 = (w3, Some tt)
    /\ forEach cart_items (deductInventory businessId) w3 = (w4, Some tt)
    /\ route_postOrder auth body now w
       = (w4, mkResponse 201
                (BOrderCreated (orderTag (nextOrderId (db w))) table_number
                   "Pending" "Order placed successfully" (Some estimated_time)
                   now (itemsOf (db created) (nextOrderId (db w))))).
Proof.
  intros valid created.
  destruct (postOrder_steps w auth body now _ _ _ _ _ _ valid)
    as [w2 [w3 [w4 [H2 [_ [H3 [_ [_ Hrun]]]]]]]].
  fold created in H2.
  destruct (forEach_touchesInventory (deductInventory businessId) cart_items
              (deductInventory_run businessId) w3) as [w4' [H4 _]].
  exists w2, w3, w4'. repeat (split; [assumption|]).
  unfold route_postOrder, tryCatch.
  assert (E : postOrder auth body now w
              = (w4', Some (mkResponse 201
                   (BOrderCreated (orderTag (nextOrderId (db w))) table_number
                      "Pending" "Order placed successfully" (Some estimated_time)
                      now (itemsOf (db created) (nextOrderId (db w))))))).
  { unfold postOrder.
    rewrite (valid_businessId _ _ _ _ _ _ _ _ _ valid),
      (valid_table_number _ _ _ _ _ _ _ _ _ valid),
      (valid_cart_items _ _ _ _ _ _ _ _ _ valid),
      (valid_total_amount _ _ _ _ _ _ _ _ _ valid),
      (valid_payment_method _ _ _ _ _ _ _ _ _ valid),
      (valid_estimated_time _ _ _ _ _ _ _ _ _ valid).
    unfold truthyZ, truthyQ, truthyStr, nonEmpty.
    pose proof (valid_businessId_truthy _ _ _ _ _ _ _ _ _ valid) as Hb.
    pose proof (valid_table_number_truthy _ _ _ _ _ _ _ _ _ valid) as Ht.
    pose proof (valid_total_amount_truthy _ _ _ _ _ _ _ _ _ valid) as Hq.
    pose proof (valid_payment_method_truthy _ _ _ _ _ _ _ _ _ valid) as Hpm.
    pose proof (valid_estimated_time_truthy _ _ _ _ _ _ _ _ _ valid) as Het.
    pose proof (valid_cart_nonempty _ _ _ _ _ _ _ _ _ valid) as Hne.
    apply Z.eqb_neq in Hb, Ht. apply Qnonzero_true in Hq.
    apply String.eqb_neq in Hpm, Het.
    rewrite Hb, Ht, Hq, Hpm, Het. simpl.
    assert (Hlen : (length cart_items =? 0)%nat = false).
    { destruct cart_items; [congruence | reflexivity]. }
    rewrite Hlen.
    rewrite bind_run, (order_create_run _ _ _ _ _ _ _ _ _ _ valid).
    rewrite bind_run. fold created. rewrite H2.
    rewrite bind_run, H3. rewrite bind_run, H4. reflexivity. }
  rewrite E. reflexivity.
Qed.




(** A request that fails a check of POST / is answered 400 before any
    call to the store: the world, call log included, is as it was. *)
Theorem rejected_order_request_touches_nothing
    (auth : Authorization) (body : OrderBody.t) (now : Z) (w : World) :
  truthyZ (OrderBody.businessId body) = false
  \/ truthyZ (OrderBody.table_number body) = false
  \/ OrderBody.cart_items body = None
  \/ OrderBody.cart_items body = Some []
  \/ truthyQ (OrderBody.total_amount body) = false
  \/ truthyStr (OrderBody.payment_method body) = false
  \/ truthyStr (OrderBody.estimated_time body) = false ->
  exists message,
    route_postOrder auth body now w = (w, mkResponse 400 (BMessage message)).
Proof.
  intros Hbad. unfold route_postOrder, tryCatch, postOrder.
  destruct (truthyZ (OrderBody.businessId body)) eqn:Hb; simpl;
    [|eexists; reflexivity].
  destruct (truthyZ (OrderBody.table_number body)) eqn:Ht; simpl;
    [|eexists; reflexivity].
  destruct (OrderBody.cart_items body) as [cart|] eqn:Hc; simpl;
    [|eexists; reflexivity].
  destruct (truthyQ (OrderBody.total_amount body)) eqn:Hq; simpl;
    [|eexists; reflexivity].
  destruct (truthyStr (OrderBody.payment_method body)) eqn:Hpm; simpl;
    [|eexists; reflexivity].
  destruct (truthyStr (OrderBody.estimated_time body)) eqn:Het; simpl;
    [|eexists; reflexivity].
  destruct (OrderBody.businessId body); [|discriminate].
  destruct (OrderBody.table_number body); [|discriminate].
  destruct (OrderBody.total_amount body); [|discriminate].
  destruct (OrderBody.payment_method body); [|discriminate].
  destruct (OrderBody.estimated_time body); [|discriminate].
  destruct cart as [|item cart]; [eexists; reflexivity|].
  exfalso.
  destruct Hbad as [H|[H|[H|[H|[H|[H|H]]]]]]; discriminate.
Qed.

Lemma rejected_order_request_touches_nothing_witness :
  exists message,
    route_postOrder NoBearer
      (OrderBody.mk (Some 1) (Some 4) (Some [CartItem.mk 1 2 100 "X" None])
         (Some 0%Q) (Some "cash") (Some "15m") None) 1000 firstOrderWorld
    = (firstOrderWorld, mkResponse 400 (BMessage message)).
Proof.
  apply rejected_order_request_touches_nothing.
  right. right. right. right. left. reflexivity.
Defined.










(** An inventory row after a request: the same row identity, and the
    very same row when it belongs to another business. *)
Definition sameStockRow (businessId : Z) (i i' : InventoryItem.t) : Prop :=
  InventoryItem.id i' = InventoryItem.id i
  /\ InventoryItem.name i' = InventoryItem.name i
  /\ InventoryItem.businessId i' = InventoryItem.businessId i
  /\ (InventoryItem.businessId i <> businessId -> i' = i).

Definition stockScoped (businessId : Z) (w w' : World) : Prop :=
  Forall2 (sameStockRow businessId) (inventoryItems (db w)) (inventoryItems (db w')).

Lemma sameStockRow_refl (b : Z) (l : list InventoryItem.t) :
  Forall2 (sameStockRow b) l l.
Proof.
  induction l; constructor; auto. repeat split.
Qed.

Lemma sameStockRow_trans (b : Z) (l1 l2 : list InventoryItem.t) :
  Forall2 (sameStockRow b) l1 l2 ->
  forall l3, Forall2 (sameStockRow b) l2 l3 -> Forall2 (sameStockRow b) l1 l3.
Proof.
  induction 1 as [|x y l1 l2 [Hid [Hn [Hb Hsame]]] Hrest IH]; intros l3 H23;
    inversion H23 as [|y' z l2' l3' [Hid' [Hn' [Hb' Hsame']]] Hrest']; subst;
    constructor; auto.
  repeat split; try congruence.
  intros Hne. rewrite Hsame', Hsame; auto. now rewrite Hb.
Qed.

Lemma forEach_related {A} (R : World -> World -> Prop) (body : A -> Prisma unit)
    (l : list A) :
  (forall w, R w w) ->
  (forall w1 w2 w3, R w1 w2 -> R w2 w3 -> R w1 w3) ->
  (forall x w, exists w', body x w = (w', Some tt) /\ R w w') ->
  forall w, exists w', forEach l body w = (w', Some tt) /\ R w w'.
Proof.
  intros Hrefl Htrans Hbody. induction l as [|x l IH]; intros w; simpl.
  - exists w. split; [reflexivity | apply Hrefl].
  - rewrite bind_run. destruct (Hbody x w) as [w1 [-> H1]].
    destruct (IH w1) as [w2 [-> H2]]. exists w2. split; [reflexivity|].
    eapply Htrans; eauto.
Qed.

Lemma stockScoped_refl (b : Z) (w w' : World) :
  inventoryItems (db w') = inventoryItems (db w) -> stockScoped b w w'.
Proof. intros H. unfold stockScoped. rewrite H. apply sameStockRow_refl. Qed.

Lemma stockScoped_trans (b : Z) (w1 w2 w3 : World) :
  stockScoped b w1 w2 -> stockScoped b w2 w3 -> stockScoped b w1 w3.
Proof. intros H1 H2. eapply sameStockRow_trans; eauto. Qed.

Lemma deductInventory_scoped (businessId : Z) (item : CartItem.t) (w : World) :
  exists w', deductInventory businessId item w = (w', Some tt)
             /\ stockScoped businessId w w'.
Proof.
  unfold deductInventory. rewrite bind_run.
  unfold prisma_product_findUnique, query, call.
  match goal with
  | |- context [forEach ?l ?b ?w0] =>
      destruct (forEach_related (stockScoped businessId) b l
                  (fun w => stockScoped_refl businessId w w eq_refl)
                  (stockScoped_trans businessId)) with (w := w0)
        as [w' [Hrun Hrel]]
  end.
  - intros ing w1. destruct (Ingredient.quantity ing) as [q|].
    + eexists. split; [reflexivity|]. unfold stockScoped. simpl.
      unfold updateWhere.
      induction (inventoryItems (db w1)) as [|i l IH]; simpl; constructor; auto.
      destruct (String.eqb (InventoryItem.name i) (Ingredient.name ing)
                && (InventoryItem.businessId i =? businessId)) eqn:Hhit.
      * apply andb_true_iff in Hhit. destruct Hhit as [_ Hb].
        apply Z.eqb_eq in Hb. repeat split. simpl. intros Hne. contradiction.
      * repeat split.
    + exists w1. split; [reflexivity | now apply stockScoped_refl].
  - rewrite Hrun. exists w'. split; [reflexivity | exact Hrel].
Qed.

(** Order creation touches stock of its own tenant only: after a valid
    request the inventory table has the same rows in the same order,
    each with its id, name and business, and every row of another
    business is exactly as it was. *)
Theorem order_creation_keeps_other_tenants_stock
    (w : World) (auth : Authorization) (body : OrderBody.t) (now : Z)
    (businessId table_number : Z) (cart_items : list CartItem.t)
    (total_amount : Q) (payment_method estimated_time : string) :
  ValidOrderRequest w auth body businessId table_number cart_items
    total_amount payment_method estimated_time ->
  Forall2 (sameStockRow businessId) (inventoryItems (db w))
    (inventoryItems (db (fst (route_postOrder auth body now w)))).
Proof.
  intros valid.
  destruct (postOrder_trace w auth body now _ _ _ _ _ _ valid)
    as [w2 [w3 [w4 [H2 [H3 [H4 Hrun]]]]]].
  rewrite Hrun. cbn [fst].
  destruct (redeemPoints_run (tokenCustomerId auth) (OrderBody.pointsUsed body)
              (afterCreate w auth now businessId table_number cart_items
                 total_amount payment_method estimated_time))
    as [w2' [H2' [cs2 [Hdb2 _]]]].
  assert (E2 : (w2', Some tt) = (w2, Some tt)) by (rewrite <- H2'; exact H2).
  injection E2 as ->.
  assert (K3 : inventoryItems (db w3) = inventoryItems (db w2)).
  { pose proof (accruePoints_keeps (tokenCustomerId auth) total_amount w2) as _.
    revert H3. unfold accruePoints, prisma_customer_update, call, ret.
    destruct (tokenCustomerId auth) as [cid|]; [|now intros [= <-]].
    destruct (negb (cid =? 0)); [|now intros [= <-]].
    destruct (updateFirst _ _ (customers (db w2))); intros [= <-]; reflexivity. }
  destruct (forEach_related (stockScoped businessId) (deductInventory businessId)
              cart_items (fun w => stockScoped_refl businessId w w eq_refl)
              (stockScoped_trans businessId) (deductInventory_scoped businessId) w3)
    as [w4' [H4' Hrel]].
  assert (E4 : (w4', Some tt) = (w4, Some tt)) by (rewrite <- H4'; exact H4).
  injection E4 as ->.
  unfold stockScoped in Hrel. rewrite K3, Hdb2 in Hrel. exact Hrel.
Qed.

(** The store of two tenants that both stock flour. *)
Definition twoTenantsWorld : World :=
  mkWorld
    (mkDb [1; 2] []
       [Product.mk 1 1 120 (Some [Ingredient.mk "flour" (Some 2%Q)])]
       [InventoryItem.mk 1 "flour" 50 1; InventoryItem.mk 2 "flour" 40 2]
       [] [] [] [] [] 1 1)
    [].

Lemma order_creation_keeps_other_tenants_stock_witness :
  Forall2 (sameStockRow 1)
    [InventoryItem.mk 1 "flour" 50 1; InventoryItem.mk 2 "flour" 40 2]
    (inventoryItems
       (db (fst (route_postOrder NoBearer guestBody 1000 twoTenantsWorld)))).
Proof.
  apply (order_creation_keeps_other_tenants_stock twoTenantsWorld NoBearer
           guestBody 1000 1 4 [CartItem.mk 1 2 100 "X" None] 200 "cash" "15m").
  constructor; try reflexivity; try discriminate.
  intros item [<-|[]]. reflexivity.
Defined.






(** ** An invariant of the order tables *)

(** The store is well formed: order ids are distinct and below the
    sequence, item ids likewise, every item belongs to a stored order
    and refers to a stored product, every order refers to a stored
    business and, when it has one, a stored customer. *)
Record WellFormed (d : Db) : Prop := {
  wf_order_ids : NoDup (map Order.id (orders d));
  wf_order_seq : Forall (fun o => Order.id o < nextOrderId d) (orders d);
  wf_item_ids : NoDup (map OrderItem.id (orderItems d));
  wf_item_seq : Forall (fun i => OrderItem.id i < nextOrderItemId d) (orderItems d);
  wf_item_order :
    Forall (fun i => In (OrderItem.orderId i) (map Order.id (orders d)))
           (orderItems d);
  wf_item_product :
    Forall (fun i => productExists d (OrderItem.productId i) = true) (orderItems d);
  wf_order_business :
    Forall (fun o => businessExists d (Order.businessId o) = true) (orders d);
  wf_order_customer :
    Forall (fun o => forall c, Order.customerId o = Some c ->
                               customerExists d c = true) (orders d)
}.

Definition orderKey (o : Order.t) : Z * Z * option Z :=
  (Order.id o, Order.businessId o, Order.customerId o).

Definition itemKey (i : OrderItem.t) : Z * Z * Z :=
  (OrderItem.id i, OrderItem.orderId i, OrderItem.productId i).

Lemma Forall_same_keys {A K} (key : A -> K) (Q : K -> Prop) (l l' : list A) :
  map key l' = map key l ->
  Forall (fun x => Q (key x)) l -> Forall (fun x => Q (key x)) l'.
Proof.
  intros Hk H. apply Forall_map. rewrite Hk. now apply Forall_map.
Qed.

Lemma map_same_keys {A K B} (key : A -> K) (g : K -> B) (l l' : list A) :
  map key l' = map key l ->
  map (fun x => g (key x)) l' = map (fun x => g (key x)) l.
Proof.
  intros Hk. rewrite <- !(map_map key g). now rewrite Hk.
Qed.

(** A step that keeps the keys of both order tables, the sequences and
    the referenced tables keeps the store well formed. *)
Lemma wellFormed_same_keys (d d' : Db) :
  map orderKey (orders d') = map orderKey (orders d) ->
  map itemKey (orderItems d') = map itemKey (orderItems d) ->
  nextOrderId d' = nextOrderId d ->
  nextOrderItemId d' = nextOrderItemId d ->
  products d' = products d ->
  businesses d' = businesses d ->
  (forall c, customerExists d' c = customerExists d c) ->
  WellFormed d -> WellFormed d'.
Proof.
  intros Ho Hi Hno Hni Hp Hb Hc [W1 W2 W3 W4 W5 W6 W7 W8].
  assert (Hids : map Order.id (orders d') = map Order.id (orders d))
    by exact (map_same_keys orderKey (fun k => fst (fst k)) _ _ Ho).
  constructor.
  - now rewrite Hids.
  - rewrite Hno.
    exact (Forall_same_keys orderKey (fun k => fst (fst k) < nextOrderId d)
             _ _ Ho W2).
  - rewrite (map_same_keys itemKey (fun k => fst (fst k)) _ _ Hi : map OrderItem.id _ = _).
    exact W3.
  - rewrite Hni.
    exact (Forall_same_keys itemKey (fun k => fst (fst k) < nextOrderItemId d)
             _ _ Hi W4).
  - rewrite Hids.
    exact (Forall_same_keys itemKey
             (fun k => In (snd (fst k)) (map Order.id (orders d))) _ _ Hi W5).
  - unfold productExists in *. rewrite Hp.
    exact (Forall_same_keys itemKey
             (fun k => existsb (fun x => Product.id x =? snd k) (products d) = true)
             _ _ Hi W6).
  - unfold businessExists in *. rewrite Hb.
    exact (Forall_same_keys orderKey
             (fun k => existsb (Z.eqb (snd (fst k))) (businesses d) = true)
             _ _ Ho W7).
  - assert (W8' : Forall (fun o => forall c, Order.customerId o = Some c ->
                                             customerExists d' c = true) (orders d)).
    { eapply Forall_impl; [|exact W8]. intros o H c Hsome.
      rewrite (Hc c). now apply H. }
    exact (Forall_same_keys orderKey
             (fun k => forall c, snd k = Some c -> customerExists d' c = true)
             _ _ Ho W8').
Qed.

(** A computation that keeps the store well formed, on every path. *)
Definition preservesWF {A} (m : Prisma A) : Prop :=
  forall w, WellFormed (db w) -> WellFormed (db (fst (m w))).

Lemma pres_ret {A} (a : A) : preservesWF (ret a).
Proof. intros w H. exact H. Qed.

Lemma pres_throw {A} : preservesWF (@throw A).
Proof. intros w H. exact H. Qed.

Lemma pres_bind {A B} (m : Prisma A) (k : A -> Prisma B) :
  preservesWF m -> (forall a, preservesWF (k a)) -> preservesWF (bind m k).
Proof.
  intros Hm Hk w H. rewrite bind_run. specialize (Hm w H).
  destruct (m w) as [w' [a|]]; cbn [fst] in *; [now apply Hk | exact Hm].
Qed.

Lemma pres_call {A} (c : DbCall) (f : Db -> option (Db * A)) :
  (forall d d' a, WellFormed d -> f d = Some (d', a) -> WellFormed d') ->
  preservesWF (call c f).
Proof.
  intros Hf w H. unfold call. destruct (f (db w)) as [[d' a]|] eqn:E; cbn [fst db].
  - eapply Hf; eauto.
  - exact H.
Qed.

Lemma pres_query {A} (c : DbCall) (f : Db -> A) : preservesWF (query c f).
Proof. apply pres_call. intros d d' a H [= <- _]. exact H. Qed.

Lemma pres_forEach {A} (l : list A) (body : A -> Prisma unit) :
  (forall x, preservesWF (body x)) -> preservesWF (forEach l body).
Proof.
  intros Hb. induction l as [|x l IH]; simpl.
  - apply pres_ret.
  - apply pres_bind; [apply Hb | intros _; exact IH].
Qed.

Lemma updateFirst_keys {A K} (p : A -> bool) (f : A -> A) (key : A -> K)
    (l l' : list A) :
  (forall a, key (f a) = key a) ->
  updateFirst p f l = Some l' -> map key l' = map key l.
Proof.
  intros Hk. revert l'. induction l as [|x l IH]; simpl; intros l' H.
  - discriminate.
  - destruct (p x).
    + injection H as <-. simpl. now rewrite Hk.
    + destruct (updateFirst p f l) as [r|]; [|discriminate].
      injection H as <-. simpl. now rewrite (IH r eq_refl).
Qed.

Lemma updateFirst_hit {A} (p : A -> bool) (f : A -> A) (l l' : list A) :
  updateFirst p f l = Some l' -> exists x, In x l /\ p x = true.
Proof.
  revert l'. induction l as [|x l IH]; simpl; intros l' H; [discriminate|].
  destruct (p x) eqn:Hp; [eauto|].
  destruct (updateFirst p f l) as [r|]; [|discriminate].
  destruct (IH r eq_refl) as [y [Hy Hpy]]. eauto.
Qed.

Lemma updateWhere_keys {A K} (p : A -> bool) (f : A -> A) (key : A -> K)
    (l : list A) :
  (forall a, key (f a) = key a) -> map key (updateWhere p f l) = map key l.
Proof.
  intros Hk. unfold updateWhere. rewrite map_map. apply map_ext.
  intros a. destruct (p a); [apply Hk | reflexivity].
Qed.

Lemma insertItems_ids (orderId : Z) (data : list ItemData.t) :
  forall next,
    Forall (fun i => next <= OrderItem.id i < next + Z.of_nat (length data))
           (insertItems orderId next data)
    /\ NoDup (map OrderItem.id (insertItems orderId next data)).
Proof.
  induction data as [|x r IH]; intros next; simpl.
  - split; constructor.
  - destruct (IH (next + 1)) as [Hb Hn]. split.
    + constructor; [simpl; lia|].
      eapply Forall_impl; [|exact Hb]. intros i Hi. simpl in Hi. lia.
    + constructor; [|exact Hn]. rewrite in_map_iff. intros [i [Hid Hin]].
      rewrite Forall_forall in Hb. specialize (Hb i Hin). lia.
Qed.

Lemma insertItems_products (d : Db) (orderId : Z) (data : list ItemData.t) :
  itemsReferToProducts d data = true ->
  forall next,
    Forall (fun i => productExists d (OrderItem.productId i) = true)
           (insertItems orderId next data).
Proof.
  unfold itemsReferToProducts.
  induction data as [|x r IH]; intros H next; simpl; constructor.
  - simpl in H. apply andb_true_iff in H. apply H.
  - apply IH. simpl in H. apply andb_true_iff in H. apply H.
Qed.

(** Appending freshly numbered item rows of a stored order. *)
Lemma wellFormed_items_appended (d : Db) (os : list Order.t) (kept : list OrderItem.t)
    (orderId : Z) (data : list ItemData.t) :
  NoDup (map OrderItem.id kept) ->
  Forall (fun i => OrderItem.id i < nextOrderItemId d) kept ->
  Forall (fun i => In (OrderItem.orderId i) (map Order.id os)) kept ->
  Forall (fun i => productExists d (OrderItem.productId i) = true) kept ->
  In orderId (map Order.id os) ->
  itemsReferToProducts d data = true ->
  let rows := insertItems orderId (nextOrderItemId d) data in
  NoDup (map OrderItem.id (kept ++ rows))
  /\ Forall (fun i => OrderItem.id i < nextOrderItemId d + Z.of_nat (length data))
       (kept ++ rows)
  /\ Forall (fun i => In (OrderItem.orderId i) (map Order.id os)) (kept ++ rows)
  /\ Forall (fun i => productExists d (OrderItem.productId i) = true) (kept ++ rows).
Proof.
  intros Hn Hs Ho Hp Hin Hdata rows.
  destruct (insertItems_ids orderId data (nextOrderItemId d)) as [Hb Hnd].
  fold rows in Hb, Hnd. repeat split.
  - rewrite map_app. apply NoDup_app; auto.
    intros a Ha Ha'. apply in_map_iff in Ha. destruct Ha as [i [<- Hi]].
    apply in_map_iff in Ha'. destruct Ha' as [j [Hj Hjin]].
    rewrite Forall_forall in Hs, Hb. specialize (Hs i Hi). specialize (Hb j Hjin).
    lia.
  - apply Forall_app. split.
    + eapply Forall_impl; [|exact Hs]. intros i Hi. simpl in Hi. lia.
    + eapply Forall_impl; [|exact Hb]. intros i Hi. simpl in Hi. lia.
  - apply Forall_app. split; [exact Ho|].
    eapply Forall_impl; [|apply insertItems_orderId].
    intros i Hi. simpl in Hi. now rewrite Hi.
  - apply Forall_app. split; [exact Hp|]. now apply insertItems_products.
Qed.

Lemma pres_order_create tableNumber totalAmount paymentMethod estimatedTime status
    businessId customerId items now :
  preservesWF (prisma_order_create tableNumber totalAmount paymentMethod
                 estimatedTime status businessId customerId items now).
Proof.
  apply pres_call. intros d d' a [W1 W2 W3 W4 W5 W6 W7 W8].
  destruct (businessExists d businessId) eqn:Hb; [|discriminate].
  destruct (match customerId with Some c => customerExists d c | None => true end)
    eqn:Hc; [|discriminate].
  destruct (itemsReferToProducts d items) eqn:Hp; [|discriminate].
  cbn [andb]. intros [= <- _].
  set (o := Order.mk (nextOrderId d) businessId customerId tableNumber
              (Some totalAmount) paymentMethod (Some estimatedTime) status now).
  assert (Hfresh : ~ In (nextOrderId d) (map Order.id (orders d))).
  { rewrite in_map_iff. intros [x [Hx Hin]].
    rewrite Forall_forall in W2. specialize (W2 x Hin). lia. }
  assert (Hin : In (nextOrderId d) (map Order.id (orders d ++ [o]))).
  { rewrite map_app. apply in_or_app. right. left. reflexivity. }
  assert (W5' : Forall (fun i => In (OrderItem.orderId i)
                                    (map Order.id (orders d ++ [o])))
                  (orderItems d)).
  { eapply Forall_impl; [|exact W5]. intros i Hi. simpl in Hi.
    rewrite map_app. apply in_or_app. now left. }
  destruct (wellFormed_items_appended d (orders d ++ [o]) (orderItems d)
              (nextOrderId d) items W3 W4 W5' W6 Hin Hp) as [A1 [A2 [A3 A4]]].
  constructor; cbn [orders orderItems nextOrderId nextOrderItemId].
  - rewrite map_app. apply NoDup_app; [exact W1 | repeat constructor; auto |].
    intros k Hk [<-|[]]. contradiction.
  - apply Forall_app. split.
    + eapply Forall_impl; [|exact W2]. intros x Hx. simpl in Hx. lia.
    + constructor; [simpl; lia | constructor].
  - exact A1.
  - exact A2.
  - exact A3.
  - exact A4.
  - apply Forall_app. split; [exact W7|]. constructor; [exact Hb | constructor].
  - apply Forall_app. split; [exact W8|]. constructor; [|constructor].
    simpl. intros c ->. exact Hc.
Qed.

Lemma pres_order_update_status orderId status :
  preservesWF (prisma_order_update_status orderId status).
Proof.
  apply pres_call. intros d d' a W. cbv zeta.
  destruct (updateFirst _ _ (orders d)) as [os|] eqn:Hup; [|discriminate].
  destruct (findOrder (setOrders os d) orderId); [|discriminate].
  intros [= <- _].
  apply (wellFormed_same_keys d); try reflexivity; [|exact W].
  apply (updateFirst_keys _ _ orderKey _ _) in Hup; [exact Hup|].
  intros o. destruct status; reflexivity.
Qed.

Lemma pres_orderItem_updateMany where_ status :
  preservesWF (prisma_orderItem_updateMany where_ status).
Proof.
  apply pres_call. intros d d' a W. cbv zeta. intros [= <- _].
  apply (wellFormed_same_keys d); try reflexivity; [|exact W].
  cbn [orderItems setOrderItems]. apply updateWhere_keys.
  intros i. destruct status; reflexivity.
Qed.

Lemma pres_orderItem_deleteMany orderId :
  preservesWF (prisma_orderItem_deleteMany orderId).
Proof.
  apply pres_call. intros d d' a [W1 W2 W3 W4 W5 W6 W7 W8] [= <- _].
  assert (Hsub : forall P : OrderItem.t -> Prop,
             Forall P (orderItems d) ->
             Forall P (filter (fun i => negb (OrderItem.orderId i =? orderId))
                              (orderItems d))).
  { intros P H. rewrite Forall_forall in *. intros i Hi.
    apply filter_In in Hi. now apply H. }
  constructor; cbn [orders orderItems nextOrderId nextOrderItemId setOrderItems];
    [exact W1 | exact W2 | | apply (Hsub _ W4) | apply (Hsub _ W5)
    | apply (Hsub _ W6) | exact W7 | exact W8].
  clear - W3. induction (orderItems d) as [|i l IH]; simpl; [constructor|].
  inversion W3 as [|? ? Hn Hl]; subst.
  destruct (negb (OrderItem.orderId i =? orderId)); simpl; [|auto].
  constructor; [|auto]. rewrite in_map_iff. intros [j [Hj Hin]].
  apply filter_In in Hin. apply Hn. rewrite in_map_iff. exists j. tauto.
Qed.

Lemma pres_order_update_replace orderId tableNumber totalAmount paymentMethod
    estimatedTime items :
  preservesWF (prisma_order_update_replace orderId tableNumber totalAmount
                 paymentMethod estimatedTime items).
Proof.
  apply pres_call. intros d d' a [W1 W2 W3 W4 W5 W6 W7 W8]. cbv zeta.
  destruct (itemsReferToProducts d items) eqn:Hp; [|discriminate].
  destruct (updateFirst _ _ (orders d)) as [os|] eqn:Hup; [|discriminate].
  match goal with
  | |- context [findOrder ?d1 orderId] => destruct (findOrder d1 orderId)
  end; [|discriminate].
  intros [= <- _].
  assert (Hk : map orderKey os = map orderKey (orders d)).
  { eapply updateFirst_keys; [|exact Hup]. reflexivity. }
  assert (Hids : map Order.id os = map Order.id (orders d))
    by exact (map_same_keys orderKey (fun k => fst (fst k)) _ _ Hk).
  assert (Hin : In orderId (map Order.id os)).
  { rewrite Hids. destruct (updateFirst_hit _ _ _ _ Hup) as [x [Hx Hpx]].
    apply Z.eqb_eq in Hpx. rewrite <- Hpx. now apply in_map. }
  assert (W5' : Forall (fun i => In (OrderItem.orderId i) (map Order.id os))
                  (orderItems d)) by (now rewrite Hids).
  destruct (wellFormed_items_appended d os (orderItems d) orderId items
              W3 W4 W5' W6 Hin Hp) as [A1 [A2 [A3 A4]]].
  constructor; cbn [orders orderItems nextOrderId nextOrderItemId]; auto.
  - now rewrite Hids.
  - exact (Forall_same_keys orderKey (fun k => fst (fst k) < nextOrderId d)
             _ _ Hk W2).
  - exact (Forall_same_keys orderKey
             (fun k => businessExists d (snd (fst k)) = true) _ _ Hk W7).
  - exact (Forall_same_keys orderKey
             (fun k => forall c, snd k = Some c -> customerExists d c = true)
             _ _ Hk W8).
Qed.

Lemma pres_customer_update id (f : Customer.t -> Customer.t) :
  (forall a, Customer.id (f a) = Customer.id a) ->
  preservesWF (prisma_customer_update id f).
Proof.
  intros Hid. apply pres_call. intros d d' a W.
  destruct (updateFirst _ f (customers d)) as [cs|] eqn:Hup; [|discriminate].
  intros [= <- _].
  apply (wellFormed_same_keys d); try reflexivity; [|exact W].
  intros c. unfold customerExists. cbn [customers setCustomers].
  apply (updateFirst_existsb _ _ f _ _
           (fun a => f_equal (fun z => z =? c) (Hid a)) Hup).
Qed.

Lemma pres_inventoryItem_updateMany name businessId decrement :
  preservesWF (prisma_inventoryItem_updateMany name businessId decrement).
Proof.
  apply pres_call. intros d d' a W. cbv zeta. intros [= <- _].
  apply (wellFormed_same_keys d); try reflexivity. exact W.
Qed.

Ltac walk :=
  repeat first
    [ apply pres_ret
    | apply pres_throw
    | apply pres_query
    | apply pres_order_create
    | apply pres_order_update_status
    | apply pres_order_update_replace
    | apply pres_orderItem_deleteMany
    | apply pres_orderItem_updateMany
    | apply pres_inventoryItem_updateMany
    | apply pres_customer_update; intros ?; reflexivity
    | apply pres_forEach; intros ?
    | apply pres_bind; [ | intros ? ]
    | match goal with
      | |- preservesWF (match ?x with _ => _ end) => destruct x
      | |- preservesWF (if ?x then _ else _) => destruct x
      end ].

Lemma pres_postOrder auth body now : preservesWF (postOrder auth body now).
Proof.
  unfold postOrder, redeemPoints, accruePoints, deductInventory,
    prisma_customer_findUnique, prisma_product_findUnique.
  walk.
Qed.

Lemma pres_getOrders payload createdAt : preservesWF (getOrders payload createdAt).
Proof. unfold getOrders, prisma_order_findMany. walk. Qed.

Lemma pres_getOrder orderId : preservesWF (getOrder orderId).
Proof. unfold getOrder, prisma_order_findUnique_items. walk. Qed.

Lemma pres_putOrder orderId body : preservesWF (putOrder orderId body).
Proof.
  unfold putOrder, prisma_order_findUnique, prisma_orderItem_findMany. walk.
Qed.

Lemma pres_patchOrderStatus payload orderId status :
  preservesWF (patchOrderStatus payload orderId status).
Proof.
  unfold patchOrderStatus, withOwnedOrder, prisma_order_findUnique. walk.
Qed.

Lemma pres_patchItemStatus payload orderId productId status :
  preservesWF (patchItemStatus payload orderId productId status).
Proof.
  unfold patchItemStatus, withOwnedOrder, prisma_order_findUnique_items. walk.
Qed.

Lemma pres_completeAll payload orderId : preservesWF (completeAll payload orderId).
Proof.
  unfold completeAll, withOwnedOrder, prisma_order_findUnique. walk.
Qed.

Lemma pres_route (auth : Authorization) (h : Payload.t -> Prisma Response)
    (onError : Response) (w : World) :
  (forall payload, preservesWF (h payload)) ->
  WellFormed (db w) ->
  WellFormed
    (db (fst (authenticateBusinessOwnerJWT auth
                (fun payload => tryCatch (h payload) onError) w))).
Proof.
  intros Hh W. unfold authenticateBusinessOwnerJWT.
  destruct auth as [| |payload]; try exact W.
  rewrite tryCatch_fst. now apply Hh.
Qed.

Lemma orderRouter_step_wellFormed (req : Request) (w : World) :
  WellFormed (db w) -> WellFormed (db (fst (orderRouter req w))).
Proof.
  intros W.
  destruct req as [auth body now | auth createdAt | auth orderId
                  | auth orderId body | auth orderId status
                  | auth orderId productId status | auth orderId];
    cbn [orderRouter answered fst].
  - unfold route_postOrder. rewrite tryCatch_fst. now apply pres_postOrder.
  - apply pres_route; [intros; apply pres_getOrders | exact W].
  - now apply pres_getOrder.
  - unfold route_putOrder. rewrite tryCatch_fst. now apply pres_putOrder.
  - apply pres_route; [intros; apply pres_patchOrderStatus | exact W].
  - apply pres_route; [intros; apply pres_patchItemStatus | exact W].
  - apply pres_route; [intros; apply pres_completeAll | exact W].
Qed.

(** Any sequence of requests to the order router keeps the store well
    formed: order and item ids stay distinct and below their sequences,
    every item still belongs to a stored order and product, every order
    to a stored business and customer, whatever the requests and their
    outcomes (answers 4xx and 5xx included). *)
Theorem order_router_keeps_store_well_formed (reqs : list Request) (w : World) :
  WellFormed (db w) -> WellFormed (db (runRequests reqs w)).
Proof.
  unfold runRequests. revert w. induction reqs as [|req reqs IH]; intros w W;
    simpl; [exact W|].
  apply IH. now apply orderRouter_step_wellFormed.
Qed.

Lemma firstOrderWorld_wellFormed : WellFormed (db firstOrderWorld).
Proof. constructor; simpl; constructor. Qed.

Lemma order_router_keeps_store_well_formed_witness :
  WellFormed
    (db (runRequests
           [PostOrder NoBearer guestBody 1000; PutOrder NoBearer 1 twoItemsBody;
            CompleteAll (ownerOf 1) 1]
           firstOrderWorld)).
Proof.
  apply order_router_keeps_store_well_formed. exact firstOrderWorld_wellFormed.
Defined.

(** ** Reading back what the order routes wrote *)

Lemma find_app_fresh {A} (p : A -> bool) (l : list A) (x : A) :
  Forall (fun y => p y = false) l -> p x = true ->
  find p (l ++ [x]) = Some x.
Proof.
  intros Hl Hx. induction Hl as [|y l Hy Hl IH]; simpl.
  - now rewrite Hx.
  - now rewrite Hy.
Qed.




(** After an item-status update that went through, the single-order
    fetch reports the stored status and the items as stored: the
    derived and the stored status agree. *)
Theorem fetch_after_item_patch_agrees_with_store
    (w : World) (payload : Payload.t) (caller : Authorization)
    (orderId productId : Z) (status : option string) (order : Order.t)
    (item : OrderItem.t) :
  ownsOrder w payload orderId order ->
  jsFind (fun i => OrderItem.productId i =? productId) (itemsOf (db w) orderId)
    = Some item ->
  let w' := fst (route_patchItemStatus (Verified payload) orderId productId
                   status w) in
  exists view l,
    route_getOrder caller orderId w'
    = (mkWorld (db w') l, Some (mkResponse 200 (BOrder view)))
    /\ Some (OrderView.status view) = storedStatus w' orderId
    /\ OrderView.items view = itemsOf (db w') orderId.
Proof.
  intros Hown Hitem w'.
  destruct (patchItemStatus_run w payload orderId productId status order item
              Hown Hitem) as [w1 [Hrun [Hst Hitems]]].
  assert (Hw' : w' = w1) by (unfold w'; now rewrite Hrun).
  rewrite Hw'. eexists. eexists. split.
  { unfold route_getOrder, getOrder. rewrite bind_run.
    unfold prisma_order_findUnique_items, query, call. rewrite Hst. reflexivity. }
  unfold storedStatus. rewrite Hst, Hitems. split; reflexivity.
Qed.

Lemma fetch_after_item_patch_agrees_with_store_witness :
  exists view l,
    route_getOrder NoBearer 1
      (fst (route_patchItemStatus (ownerOf 1) 1 1 (Some "Completed")
              pendingOrderWorld))
    = (mkWorld (db (fst (route_patchItemStatus (ownerOf 1) 1 1 (Some "Completed")
                           pendingOrderWorld))) l,
       Some (mkResponse 200 (BOrder view)))
    /\ OrderView.status view = "Completed".
Proof.
  destruct (fetch_after_item_patch_agrees_with_store pendingOrderWorld
              (Payload.mk None (Some 1)) NoBearer 1 1 (Some "Completed")
              (Order.mk 1 1 None 4 (Some 200%Q) "cash" (Some "15m") "Pending" 1000)
              (OrderItem.mk 1 1 1 2 100 "X" "Pending"))
    as [view [l [Hget [Hst _]]]].
  - repeat split. discriminate.
  - reflexivity.
  - exists view, l. split; [exact Hget|].
    vm_compute in Hst. now injection Hst.
Defined.

(** ** Item-status update: the rows it touches *)

(** The item-status update of a product the order does not hold is
    answered 404 after the one lookup, and writes nothing. *)
Theorem item_patch_of_absent_product_is_not_found
    (w : World) (payload : Payload.t) (orderId productId : Z)
    (status : option string) (order : Order.t) :
  ownsOrder w payload orderId order ->
  jsFind (fun i => OrderItem.productId i =? productId) (itemsOf (db w) orderId)
    = None ->
  route_patchItemStatus (Verified payload) orderId productId status w
  = (mkWorld (db w) (log w ++ [order_findUnique]),
     mkResponse 404 (BMessage "Item not found in order")).
Proof.
  intros [Hp [Hnz Hf]] Hnone.
  unfold route_patchItemStatus, authenticateBusinessOwnerJWT, tryCatch,
    patchItemStatus.
  rewrite (withOwnedOrder_run w (mkWorld (db w) (log w ++ [order_findUnique]))
             payload _ fst _ (order, itemsOf (db w) orderId) Hp Hnz)
    by (unfold prisma_order_findUnique_items, query, call; now rewrite Hf).
  cbv beta. cbn [snd]. rewrite Hnone. reflexivity.
Qed.

Lemma item_patch_of_absent_product_is_not_found_witness :
  route_patchItemStatus (ownerOf 1) 1 5 (Some "Completed") pendingOrderWorld
  = (mkWorld (db pendingOrderWorld) (log pendingOrderWorld ++ [order_findUnique]),
     mkResponse 404 (BMessage "Item not found in order")).
Proof.
  apply (item_patch_of_absent_product_is_not_found pendingOrderWorld
           (Payload.mk None (Some 1)) 1 5 (Some "Completed")
           (Order.mk 1 1 None 4 (Some 200%Q) "cash" (Some "15m") "Pending" 1000)).
  - repeat split. discriminate.
  - reflexivity.
Defined.

Lemma patchItemStatus_rows (w : World) (payload : Payload.t)
    (orderId productId : Z) (status : option string) (order : Order.t)
    (item : OrderItem.t) :
  ownsOrder w payload orderId order ->
  jsFind (fun i => OrderItem.productId i =? productId) (itemsOf (db w) orderId)
    = Some item ->
  orderItems (db (fst (route_patchItemStatus (Verified payload) orderId productId
                         status w)))
  = updateWhere
      (fun i => (OrderItem.orderId i =? orderId)
                && (OrderItem.productId i =? productId))
      (fun i => match status with
                | Some s => OrderItem.withStatus s i
                | None => i
                end)
      (orderItems (db w)).
Proof.
  intros [Hp [Hnz Hf]] Hitem.
  unfold route_patchItemStatus, authenticateBusinessOwnerJWT.
  rewrite tryCatch_fst. unfold patchItemStatus.
  rewrite (withOwnedOrder_run w (mkWorld (db w) (log w ++ [order_findUnique]))
             payload _ fst _ (order, itemsOf (db w) orderId) Hp Hnz)
    by (unfold prisma_order_findUnique_items, query, call; now rewrite Hf).
  cbv beta. cbn [snd]. rewrite Hitem.
  rewrite bind_run. unfold prisma_orderItem_updateMany at 1, call at 1.
  cbv beta iota. cbn [db log]. rewrite bind_run.
  unfold prisma_order_findUnique_items at 1, query, call at 1.
  cbv beta iota. cbn [db log].
  change (findOrder (setOrderItems _ (db w)) orderId) with (findOrder (db w) orderId).
  rewrite Hf. cbv beta iota. rewrite bind_run.
  match goal with
  | |- context [prisma_order_update_status orderId (Some ?s) ?w0] =>
      destruct (order_update_status_run w0 orderId s order Hf)
        as [os [Hrun _]]
  end.
  rewrite Hrun. reflexivity.
Qed.

(** An item-status update that goes through sets the new status on
    every item of the order that carries the product id, duplicates
    included, and leaves every other row of order_items, in this order
    or another, exactly as it was. *)
Theorem item_patch_sets_every_line_of_the_product
    (w : World) (payload : Payload.t) (orderId productId : Z) (status : string)
    (order : Order.t) (item : OrderItem.t) :
  ownsOrder w payload orderId order ->
  jsFind (fun i => OrderItem.productId i =? productId) (itemsOf (db w) orderId)
    = Some item ->
  Forall2
    (fun before after =>
       if (OrderItem.orderId before =? orderId)
          && (OrderItem.productId before =? productId)
       then after = OrderItem.withStatus status before
       else after = before)
    (orderItems (db w))
    (orderItems (db (fst (route_patchItemStatus (Verified payload) orderId
                            productId (Some status) w)))).
Proof.
  intros Hown Hitem.
  rewrite (patchItemStatus_rows w payload orderId productId (Some status) order
             item Hown Hitem).
  unfold updateWhere.
  induction (orderItems (db w)) as [|i l IH]; simpl; constructor; auto.
  destruct ((OrderItem.orderId i =? orderId) && (OrderItem.productId i =? productId));
    reflexivity.
Qed.

(** Order 1 with two lines of product 1 and order 2 with one. *)
Definition duplicateLinesWorld : World :=
  mkWorld
    (mkDb [1] [] [Product.mk 1 1 120 None] [] []
       [Order.mk 1 1 None 4 (Some 300%Q) "cash" (Some "15m") "Pending" 1000;
        Order.mk 2 1 None 5 (Some 100%Q) "cash" (Some "15m") "Pending" 1001]
       [OrderItem.mk 1 1 1 2 100 "X" "Pending";
        OrderItem.mk 2 1 1 1 100 "X again" "Pending";
        OrderItem.mk 3 2 1 1 100 "X" "Pending"]
       [] [] 3 4)
    [].

Lemma item_patch_sets_every_line_of_the_product_witness :
  map OrderItem.status
    (orderItems (db (fst (route_patchItemStatus (ownerOf 1) 1 1 (Some "Completed")
                            duplicateLinesWorld))))
  = ["Completed"; "Completed"; "Pending"].
Proof.
  pose proof (item_patch_sets_every_line_of_the_product duplicateLinesWorld
                (Payload.mk None (Some 1)) 1 1 "Completed"
                (Order.mk 1 1 None 4 (Some 300%Q) "cash" (Some "15m") "Pending" 1000)
                (OrderItem.mk 1 1 1 2 100 "X" "Pending")) as H.
  assert (Hown : ownsOrder duplicateLinesWorld (Payload.mk None (Some 1)) 1
                   (Order.mk 1 1 None 4 (Some 300%Q) "cash" (Some "15m")
                      "Pending" 1000))
    by (repeat split; discriminate).
  specialize (H Hown eq_refl).
  inversion H as [|b1 a1 lb1 la1 H1 R1 E1 E1']; subst.
  inversion R1 as [|b2 a2 lb2 la2 H2 R2 E2 E2']; subst.
  inversion R2 as [|b3 a3 lb3 la3 H3 R3 E3 E3']; subst.
  inversion R3; subst.
  simpl in H1, H2, H3. subst. reflexivity.
Defined.

(** ** Order update: what a failing PUT leaves behind *)

(** The cart of a PUT cannot be inserted: it is absent, or it names a
    product that is not stored. *)
Definition cartCannotBeInserted (d : Db) (cart_items : option (list CartItem.t))
  : Prop :=
  match cart_items with
  | None => True
  | Some cart => exists item, In item cart
                              /\ productExists d (CartItem.productId item) = false
  end.

(** A PUT that passes the tenant check deletes the order's items before
    it builds the new ones: when the cart is absent or names an unknown
    product the answer is 500, the header and the other orders' items
    are as before, and the order is left without items. *)
Theorem failed_put_leaves_order_without_items
    (w : World) (auth : Authorization) (orderId : Z) (body : OrderBody.t)
    (order : Order.t) :
  OrderBody.businessId body = Some (Order.businessId order) ->
  Order.businessId order <> 0 ->
  findOrder (db w) orderId = Some order ->
  cartCannotBeInserted (db w) (OrderBody.cart_items body) ->
  let w' := fst (route_putOrder auth orderId body w) in
  snd (route_putOrder auth orderId body w)
  = serverError "Server error while updating order"
  /\ orders (db w') = orders (db w)
  /\ orderItems (db w')
     = filter (fun i => negb (OrderItem.orderId i =? orderId)) (orderItems (db w))
  /\ itemsOf (db w') orderId = [].
Proof.
  intros Hb Hnz Hf Hcart.
  assert (Hrun : exists l,
             route_putOrder auth orderId body w
             = (mkWorld
                  (setOrderItems
                     (filter (fun i => negb (OrderItem.orderId i =? orderId))
                             (orderItems (db w))) (db w)) l,
                serverError "Server error while updating order")).
  { unfold route_putOrder, tryCatch, putOrder. rewrite Hb.
    apply Z.eqb_neq in Hnz. rewrite Hnz.
    rewrite bind_run. unfold prisma_order_findUnique at 1, query, call at 1.
    rewrite Hf. cbv beta iota. rewrite Z.eqb_refl. cbn [negb].
    rewrite bind_run. unfold prisma_orderItem_findMany at 1, query, call at 1.
    cbv beta iota. cbn [db log].
    rewrite bind_run. unfold prisma_orderItem_deleteMany at 1, call at 1.
    cbv beta iota. cbn [db log].
    destruct (OrderBody.cart_items body) as [cart|].
    - rewrite bind_run. unfold prisma_order_update_replace, call. cbn [db log].
      assert (Hp : itemsReferToProducts
                     (setOrderItems
                        (filter (fun i => negb (OrderItem.orderId i =? orderId))
                                (orderItems (db w))) (db w))
                     (map (replacementItem (itemsOf (db w) orderId)) cart)
                   = false).
      { destruct Hcart as [item [Hin Hmiss]].
        unfold itemsReferToProducts.
        destruct (forallb _ (map _ cart)) eqn:E; [|reflexivity].
        rewrite forallb_forall in E.
        specialize (E (replacementItem (itemsOf (db w) orderId) item)
                      (in_map _ _ _ Hin)).
        simpl in E. unfold productExists in *. simpl in E. congruence. }
      rewrite Hp. eexists. reflexivity.
    - eexists. reflexivity. }
  destruct Hrun as [l Hrun]. rewrite Hrun. cbn [fst snd db].
  split; [reflexivity|]. split; [reflexivity|]. split; [reflexivity|].
  unfold itemsOf. cbn [orderItems setOrderItems]. apply filter_none.
Qed.

Lemma failed_put_leaves_order_without_items_witness :
  snd (route_putOrder NoBearer 1
         (OrderBody.mk (Some 1) (Some 7) None None None None None)
         pendingOrderWorld)
  = serverError "Server error while updating order"
  /\ itemsOf (db pendingOrderWorld) 1 <> []
  /\ itemsOf
       (db (fst (route_putOrder NoBearer 1
                   (OrderBody.mk (Some 1) (Some 7) None None None None None)
                   pendingOrderWorld))) 1 = [].
Proof.
  destruct (failed_put_leaves_order_without_items pendingOrderWorld NoBearer 1
              (OrderBody.mk (Some 1) (Some 7) None None None None None)
              (Order.mk 1 1 None 4 (Some 200%Q) "cash" (Some "15m") "Pending" 1000))
    as [H1 [_ [_ H4]]];
    [reflexivity | discriminate | reflexivity | exact I |].
  split; [exact H1|]. split; [discriminate | exact H4].
Defined.

(** ** The order list *)

Lemma StronglySorted_weaken {A} (R R' : A -> A -> Prop) (l : list A) :
  (forall x y, R x y -> R' x y) -> StronglySorted R l -> StronglySorted R' l.
Proof.
  intros HR. induction 1 as [|x l Hs IH Hall]; constructor; auto.
  eapply Forall_impl; [|exact Hall]. auto.
Qed.

(** GET / for an owner session of business [b]: the answer is 200 and
    lists exactly the orders of that business (within the [createdAt]
    bounds when a date is given), newest first, each with its items and
    with the status derived from them; the store is not written. *)
Theorem order_list_is_tenant_orders_newest_first
    (w : World) (payload : Payload.t) (b : Z) (createdAt : option (Z * Z)) :
  Payload.businessId payload = Some b ->
  b <> 0 ->
  let inRange o :=
    match createdAt with
    | Some (gte, lte) => (gte <=? Order.createdAt o) && (Order.createdAt o <=? lte)
    | None => true
    end in
  exists w' views,
    route_getOrders (Verified payload) createdAt w
    = (w', mkResponse 200 (BOrders views))
    /\ db w' = db w
    /\ Permutation (map OrderView.id views)
         (map Order.id
            (filter (fun o => (Order.businessId o =? b) && inRange o)
                    (orders (db w))))
    /\ StronglySorted
         (fun x y => OrderView.created_at x >= OrderView.created_at y) views
    /\ forall v, In v views ->
         OrderView.items v = itemsOf (db w) (OrderView.id v)
         /\ OrderView.status v = orderStatusOf (OrderView.items v)
         /\ OrderView.order_id v = orderTag (OrderView.id v).
Proof.
  intros Hp Hnz inRange.
  unfold route_getOrders, authenticateBusinessOwnerJWT, tryCatch, getOrders.
  rewrite Hp. apply Z.eqb_neq in Hnz. rewrite Hnz.
  unfold bind, prisma_order_findMany, query, call, ret. cbv beta iota.
  eexists. eexists. split; [reflexivity|]. cbn [db].
  split; [reflexivity|].
  fold inRange.
  set (rows := filter (fun o => (Order.businessId o =? b) && inRange o)
                      (orders (db w))).
  rewrite !map_map. cbn [fst snd viewOf OrderView.id].
  split; [|split].
  - apply Permutation_map with (f := Order.id).
    apply Permutation_sym, sortBy_perm.
  - rewrite <- (map_map (fun o => (o, itemsOf (db w) (Order.id o)))
                  (fun r => viewOf (fst r) (snd r))).
    rewrite map_map. cbn [fst snd].
    apply StronglySorted_map
      with (f := fun o => viewOf o (itemsOf (db w) (Order.id o)))
           (R := fun x y => OrderView.created_at x >= OrderView.created_at y).
    cbn [viewOf OrderView.created_at].
    eapply StronglySorted_weaken;
      [|apply (sortBy_sorted (fun o => - Order.createdAt o))].
    unfold keyLe. intros x y Hxy. cbv beta in *. lia.
  - intros v Hv. apply in_map_iff in Hv. destruct Hv as [o [<- _]].
    cbn [viewOf OrderView.items OrderView.id OrderView.status OrderView.order_id].
    repeat split.
Qed.

Lemma order_list_is_tenant_orders_newest_first_witness :
  exists w' views,
    route_getOrders (ownerOf 1) None duplicateLinesWorld
    = (w', mkResponse 200 (BOrders views))
    /\ map OrderView.id views = [2; 1].
Proof.
  destruct (order_list_is_tenant_orders_newest_first duplicateLinesWorld
              (Payload.mk None (Some 1)) 1 None eq_refl)
    as [w' [views [Hrun _]]].
  - discriminate.
  - exists w', views. split; [exact Hrun|].
    vm_compute in Hrun. injection Hrun as _ <-. reflexivity.
Defined.

(** ** Orders and the table view together *)

(** The table numbers of the tenant's orders that are not Completed. *)
Definition activeNumbers (d : Db) (businessId : Z) : list Z :=
  map Order.tableNumber
    (filter (fun o => (Order.businessId o =? businessId)
                      && negb (String.eqb (Order.status o) "Completed"))
            (orders d)).

Definition tablesOf (d : Db) (businessId : Z) : list Table.t :=
  sortBy Table.tableNumber
    (filter (fun t => Table.businessId t =? businessId) (tables d)).

Lemma getTables_run (businessId : Z) (w : World) :
  snd (route_getTables businessId w)
  = mkResponse 200
      (BTables (map (tableStatus (activeNumbers (db w) businessId))
                    (tablesOf (db w) businessId))).
Proof. reflexivity. Qed.

Lemma tableStatus_marks (d : Db) (businessId : Z) (t : Table.t) :
  (activeOrderAt d businessId (Table.tableNumber t) ->
   TableView.status (tableStatus (activeNumbers d businessId) t) = "Booked")
  /\ (~ activeOrderAt d businessId (Table.tableNumber t) ->
      TableView.status (tableStatus (activeNumbers d businessId) t) = "Available").
Proof.
  unfold tableStatus. cbn [TableView.status].
  pose proof (has_In (activeNumbers d businessId) (Table.tableNumber t)) as Hhas.
  pose proof (active_numbers_In d businessId (Table.tableNumber t)) as Hact.
  fold (activeNumbers d businessId) in Hact.
  destruct (has (activeNumbers d businessId) (Table.tableNumber t)) eqn:E; split;
    intros H; try reflexivity.
  - elim H. apply Hact, Hhas. reflexivity.
  - apply Hact, Hhas in H. discriminate.
Qed.



Lemma updateFirst_unique {A} (key : A -> Z) (k : Z) (f : A -> A) (l l' : list A) :
  NoDup (map key l) ->
  (forall a, key (f a) = key a) ->
  updateFirst (fun a => key a =? k) f l = Some l' ->
  forall y, In y l' -> key y = k -> exists x, In x l /\ y = f x.
Proof.
  intros Hnd Hk. revert l'. induction l as [|x l IH]; simpl; intros l' Hup y Hy Hky.
  - discriminate.
  - apply NoDup_cons_iff in Hnd. destruct Hnd as [Hnotin Hnd'].
    destruct (Z.eqb_spec (key x) k) as [Hx|Hx].
    + injection Hup as <-. destruct Hy as [<-|Hy]; [eauto|].
      elim Hnotin. rewrite Hx, <- Hky. now apply in_map.
    + destruct (updateFirst _ f l) as [r|] eqn:Hr; [|discriminate].
      injection Hup as <-. destruct Hy as [<-|Hy]; [congruence|].
      destruct (IH Hnd' r eq_refl y Hy Hky) as [z [Hz ->]]. eauto.
Qed.

Lemma completeAll_orders (w : World) (payload : Payload.t) (orderId : Z)
    (order : Order.t) :
  ownsOrder w payload orderId order ->
  updateFirst (fun o => Order.id o =? orderId) (Order.withStatus "Completed")
    (orders (db w))
  = Some (orders (db (fst (route_completeAll (Verified payload) orderId w)))).
Proof.
  intros [Hp [Hnz Hf]].
  unfold route_completeAll, authenticateBusinessOwnerJWT.
  rewrite tryCatch_fst. unfold completeAll.
  rewrite (withOwnedOrder_run w (mkWorld (db w) (log w ++ [order_findUnique]))
             payload _ (fun o => o) _ order Hp Hnz)
    by (unfold prisma_order_findUnique, query, call; now rewrite Hf).
  rewrite bind_run. unfold prisma_orderItem_updateMany at 1, call at 1.
  cbv beta iota. cbn [db log]. rewrite bind_run.
  match goal with
  | |- context [prisma_order_update_status orderId (Some "Completed") ?w0] =>
      destruct (order_update_status_run w0 orderId "Completed" order Hf)
        as [os [Hrun [Hup _]]]
  end.
  rewrite Hrun. cbn [fst db orders setOrders ret]. exact Hup.
Qed.

(** Completing the last open order of a table frees it: on a
    well-formed store, when the order completed in bulk is the only
    order of its tenant at table [t] that is not Completed, every table
    of the tenant numbered [t] is Available in the next table view. *)
Theorem completing_last_order_frees_the_table
    (w : World) (payload : Payload.t) (orderId t : Z) (order : Order.t) :
  ownsOrder w payload orderId order ->
  WellFormed (db w) ->
  (forall o, In o (orders (db w)) ->
             Order.businessId o = Order.businessId order ->
             Order.tableNumber o = t ->
             Order.status o <> "Completed" ->
             Order.id o = orderId) ->
  let w' := fst (route_completeAll (Verified payload) orderId w) in
  exists views,
    snd (route_getTables (Order.businessId order) w') = mkResponse 200 (BTables views)
    /\ forall v, In v views -> TableView.tableNumber v = t ->
                 TableView.status v = "Available".
Proof.
  intros Hown W Honly w'.
  pose proof (completeAll_orders w payload orderId order Hown) as Hup.
  fold w' in Hup.
  eexists. split; [apply getTables_run|].
  intros v Hv Hnum. apply in_map_iff in Hv. destruct Hv as [tbl [<- _]].
  apply tableStatus_marks. cbn [tableStatus TableView.tableNumber] in Hnum.
  rewrite Hnum. intros [o' [Hin [Hb [Hst Htn]]]].
  destruct (updateFirst_In _ _ _ _ _ Hup Hin) as [Hold | [x [_ [_ ->]]]].
  - pose proof (Honly o' Hold Hb Htn Hst) as Hid.
    destruct (updateFirst_unique Order.id orderId (Order.withStatus "Completed")
                _ _ (wf_order_ids _ W) (fun a => eq_refl) Hup o' Hin Hid)
      as [x [_ ->]].
    apply Hst. reflexivity.
  - apply Hst. reflexivity.
Qed.

Lemma completing_last_order_frees_the_table_witness :
  exists views,
    snd (route_getTables 1
           (fst (route_completeAll (ownerOf 1) 1 pendingOrderWorld)))
    = mkResponse 200 (BTables views)
    /\ map TableView.status views = ["Available"].
Proof.
  destruct (completing_last_order_frees_the_table pendingOrderWorld
              (Payload.mk None (Some 1)) 1 4
              (Order.mk 1 1 None 4 (Some 200%Q) "cash" (Some "15m") "Pending" 1000))
    as [views [Hrun _]].
  - repeat split. discriminate.
  - apply (orderRouter_step_wellFormed (PostOrder NoBearer guestBody 1000)
             firstOrderWorld firstOrderWorld_wellFormed).
  - intros o [<-|[]] _ _ _. reflexivity.
  - exists views. split; [exact Hrun|].
    vm_compute in Hrun. injection Hrun as <-. reflexivity.
Defined.

(** ** Coupon validation: what it reads and what it leaves alone *)

Lemma upperAscii_idem (c : ascii) : upperAscii (upperAscii c) = upperAscii c.
Proof.
  destruct c as [[] [] [] [] [] [] [] []]; reflexivity.
Qed.

Lemma toUpperCase_idem (s : string) : toUpperCase (toUpperCase s) = toUpperCase s.
Proof.
  induction s as [|c r IH]; simpl; [reflexivity|].
  now rewrite upperAscii_idem, IH.
Qed.

Lemma toUpperCase_nonEmpty (s : string) : nonEmpty (toUpperCase s) = nonEmpty s.
Proof. destruct s; reflexivity. Qed.

(** The code is matched without regard to letter case: a request
    answers as the same request with its code in upper case does. *)
Theorem coupon_code_is_matched_case_insensitively
    (auth : Authorization) (code : string) (orderTotal : option Q) (now : Z)
    (w : World) :
  route_validateCoupon auth (Some code) orderTotal now w
  = route_validateCoupon auth (Some (toUpperCase code)) orderTotal now w.
Proof.
  unfold route_validateCoupon, authenticateBusinessOwnerJWT.
  destruct auth as [| |payload]; try reflexivity.
  unfold validateCoupon, truthyStr.
  rewrite toUpperCase_nonEmpty, toUpperCase_idem. reflexivity.
Qed.

(** Validation only reads: on every path the store is as before, and
    at most the one coupon lookup has run.  No path increments
    [usedCount] or compares it with [usageLimit]. *)
Theorem coupon_validation_never_writes
    (auth : Authorization) (code : option string) (orderTotal : option Q)
    (now : Z) (w : World) :
  let w' := fst (route_validateCoupon auth code orderTotal now w) in
  db w' = db w
  /\ (log w' = log w \/ log w' = (log w ++ [coupon_findFirst])%list).
Proof.
  unfold route_validateCoupon, authenticateBusinessOwnerJWT.
  destruct auth as [| |payload]; cbn [fst]; auto.
  unfold validateCoupon.
  destruct (negb (truthyStr code) || negb (truthyQ orderTotal)); cbn [fst]; auto.
  destruct code as [code|], orderTotal as [orderTotal|]; cbn [fst]; auto.
  rewrite tryCatch_fst, bind_run.
  unfold prisma_coupon_findFirst, query, call. cbv beta iota.
  destruct (findCoupon (db w) (toUpperCase code) (Payload.businessId payload) now)
    as [coupon|]; [|cbn; auto].
  destruct (Qltb orderTotal (Coupon.minOrderValue coupon)); cbn; auto.
Qed.

(** Two coupons that differ at most in their usage columns. *)
Definition sameButUsage (c c' : Coupon.t) : Prop :=
  Coupon.id c' = Coupon.id c
  /\ Coupon.code c' = Coupon.code c
  /\ Coupon.discountType c' = Coupon.discountType c
  /\ Coupon.discountValue c' = Coupon.discountValue c
  /\ Coupon.maxDiscount c' = Coupon.maxDiscount c
  /\ Coupon.minOrderValue c' = Coupon.minOrderValue c
  /\ Coupon.validFrom c' = Coupon.validFrom c
  /\ Coupon.validTill c' = Coupon.validTill c
  /\ Coupon.businessId c' = Coupon.businessId c.

Lemma find_related {A} (R : A -> A -> Prop) (p : A -> bool) (l l' : list A) :
  Forall2 R l l' ->
  (forall a a', R a a' -> p a' = p a) ->
  match find p l, find p l' with
  | Some a, Some a' => R a a'
  | None, None => True
  | _, _ => False
  end.
Proof.
  intros H Hp. induction H as [|a a' l l' Ha _ IH]; simpl; [exact I|].
  rewrite (Hp a a' Ha). destruct (p a); [exact Ha | exact IH].
Qed.

(** The usage limit is not enforced: the answer does not depend on the
    [usageLimit] and [usedCount] columns of any coupon. *)
Theorem coupon_usage_limit_is_not_enforced
    (auth : Authorization) (code : option string) (orderTotal : option Q)
    (now : Z) (w w' : World) :
  Forall2 sameButUsage (coupons (db w)) (coupons (db w')) ->
  snd (route_validateCoupon auth code orderTotal now w)
  = snd (route_validateCoupon auth code orderTotal now w').
Proof.
  intros Hsame.
  unfold route_validateCoupon, authenticateBusinessOwnerJWT.
  destruct auth as [| |payload]; try reflexivity.
  unfold validateCoupon.
  destruct (negb (truthyStr code) || negb (truthyQ orderTotal)); [reflexivity|].
  destruct code as [code|], orderTotal as [orderTotal|]; try reflexivity.
  unfold tryCatch. rewrite !bind_run.
  unfold prisma_coupon_findFirst, query, call. cbv beta iota.
  pose proof (find_related sameButUsage
                (fun c => String.eqb (Coupon.code c) (toUpperCase code)
                          && match Payload.businessId payload with
                             | Some b => Coupon.businessId c =? b
                             | None => true
                             end
                          && (Coupon.validFrom c <=? now)
                          && (now <=? Coupon.validTill c))
                _ _ Hsame) as Hfind.
  unfold findCoupon.
  match type of Hfind with
  | _ -> match find ?p ?l with _ => _ end =>
      destruct (find p l) as [c|]; destruct (find p (coupons (db w'))) as [c'|]
  end.
  - assert (Hc : sameButUsage c c').
    { apply Hfind. intros a a' (_ & -> & _ & _ & _ & _ & -> & -> & ->). reflexivity. }
    destruct Hc as (Hid & Hcode & Hty & Hval & Hmax & Hmin & _).
    unfold discountOf. rewrite Hid, Hcode, Hty, Hval, Hmax, Hmin.
    destruct (Qltb orderTotal (Coupon.minOrderValue c)); reflexivity.
  - exfalso. apply Hfind.
    intros a a' (_ & -> & _ & _ & _ & _ & -> & -> & ->). reflexivity.
  - exfalso. apply Hfind.
    intros a a' (_ & -> & _ & _ & _ & _ & -> & -> & ->). reflexivity.
  - reflexivity.
Qed.

Lemma coupon_usage_limit_is_not_enforced_witness :
  snd (route_validateCoupon (ownerOf 1) (Some "save20") (Some 10000%Q) 1000
         (couponWorld (Some 500%Q)))
  = snd (route_validateCoupon (ownerOf 1) (Some "save20") (Some 10000%Q) 1000
           (mkWorld (mkDb [1] [] [] [] [] [] [] []
                       [Coupon.mk 1 "SAVE20" "percent" 20 (Some 500%Q) 0 0 5000
                          10 10 1] 1 1) [])).
Proof.
  apply coupon_usage_limit_is_not_enforced.
  repeat constructor.
Defined.

(** What a 200 answer means: the coupon it names is a stored coupon of
    the caller's business (when the token carries one) whose code is the
    requested code in upper case, whose validity window contains the
    current time and whose minimum the order total reaches; the discount
    is the one computed from that coupon. *)
Theorem applied_coupon_is_callers_and_in_window
    (w : World) (payload : Payload.t) (code : option string)
    (orderTotal : option Q) (now : Z)
    (message : string) (discount : Q) (id : Z) (ccode type : string) (value : Q) :
  snd (route_validateCoupon (Verified payload) code orderTotal now w)
  = mkResponse 200 (BCoupon message discount id ccode type value) ->
  exists coupon sent total,
    code = Some sent /\ orderTotal = Some total
    /\ In coupon (coupons (db w))
    /\ Coupon.id coupon = id
    /\ Coupon.code coupon = toUpperCase sent
    /\ ccode = toUpperCase sent
    /\ (forall b, Payload.businessId payload = Some b -> Coupon.businessId coupon = b)
    /\ Coupon.validFrom coupon <= now <= Coupon.validTill coupon
    /\ ~ (total < Coupon.minOrderValue coupon)%Q
    /\ discount = discountOf coupon total.
Proof.
  unfold route_validateCoupon, authenticateBusinessOwnerJWT, validateCoupon.
  destruct (negb (truthyStr code) || negb (truthyQ orderTotal));
    [intros H; discriminate|].
  destruct code as [sent|], orderTotal as [total|]; try (intros H; discriminate).
  unfold tryCatch. rewrite bind_run.
  unfold prisma_coupon_findFirst, query, call. cbv beta iota.
  destruct (findCoupon (db w) (toUpperCase sent) (Payload.businessId payload) now)
    as [coupon|] eqn:Hf; [|intros H; discriminate].
  destruct (Qltb total (Coupon.minOrderValue coupon)) eqn:Hm;
    [intros H; discriminate|].
  cbn [ret snd]. intros H. injection H as _ Hd Hid Hcode _ _.
  unfold findCoupon in Hf. apply find_some in Hf. destruct Hf as [Hin Hp].
  apply andb_prop in Hp. destruct Hp as [Hp Htill].
  apply andb_prop in Hp. destruct Hp as [Hp Hfrom].
  apply andb_prop in Hp. destruct Hp as [Hc Hb].
  apply String.eqb_eq in Hc.
  exists coupon, sent, total. repeat split; auto.
  - congruence.
  - intros b Eb. rewrite Eb in Hb. now apply Z.eqb_eq in Hb.
  - now apply Z.leb_le.
  - now apply Z.leb_le.
  - intros Hlt. apply Qltb_lt in Hlt. congruence.
Qed.

Lemma applied_coupon_is_callers_and_in_window_witness :
  exists coupon,
    In coupon (coupons (db (couponWorld (Some 500%Q))))
    /\ Coupon.businessId coupon = 1
    /\ 500%Q = discountOf coupon 10000.
Proof.
  destruct (applied_coupon_is_callers_and_in_window (couponWorld (Some 500%Q))
              (Payload.mk None (Some 1)) (Some "save20") (Some 10000%Q) 1000
              "Coupon applied successfully" 500 1 "SAVE20" "percent" 20)
    as (coupon & sent & total & _ & Ht & Hin & _ & _ & _ & Hb & _ & _ & Hd).
  - reflexivity.
  - injection Ht as <-. exists coupon. repeat split; auto.
Defined.

(** An applied coupon never takes more than the order total, when a
    percent coupon has a value between 0 and 100 (and no negative cap)
    and a flat coupon has a value within its minimum order value. *)
Theorem applied_discount_within_order_total
    (w : World) (payload : Payload.t) (code : string) (orderTotal : Q) (now : Z)
    (coupon : Coupon.t) :
  passesValidation w payload code orderTotal now coupon ->
  (0 <= orderTotal)%Q ->
  (0 <= Coupon.discountValue coupon)%Q ->
  (Coupon.discountType coupon = "percent" ->
   (Coupon.discountValue coupon <= 100)%Q
   /\ forall cap, Coupon.maxDiscount coupon = Some cap -> (0 <= cap)%Q) ->
  (Coupon.discountType coupon = "flat" ->
   (Coupon.discountValue coupon <= Coupon.minOrderValue coupon)%Q) ->
  snd (route_validateCoupon (Verified payload) (Some code) (Some orderTotal) now w)
  = mkResponse 200
      (BCoupon "Coupon applied successfully" (discountOf coupon orderTotal)
         (Coupon.id coupon) (Coupon.code coupon) (Coupon.discountType coupon)
         (Coupon.discountValue coupon))
  /\ (0 <= discountOf coupon orderTotal <= orderTotal)%Q.
Proof.
  intros Hpass Htot Hval Hpercent Hflat. split.
  - unfold route_validateCoupon, authenticateBusinessOwnerJWT.
    now rewrite (validateCoupon_run w payload code orderTotal now coupon Hpass).
  - destruct Hpass as (_ & _ & _ & Hmin). apply Qnot_lt_le in Hmin.
    unfold discountOf.
    destruct (String.eqb (Coupon.discountType coupon) "flat") eqn:Eflat.
    + apply String.eqb_eq in Eflat. split; [exact Hval|].
      eapply Qle_trans; [apply Hflat, Eflat | exact Hmin].
    + destruct (String.eqb (Coupon.discountType coupon) "percent") eqn:Eper.
      * apply String.eqb_eq in Eper. destruct (Hpercent Eper) as [H100 Hcap].
        assert (Hp : (0 <= Coupon.discountValue coupon / 100 * orderTotal
                      <= orderTotal)%Q).
        { split.
          - apply Qmult_le_0_compat; [|exact Htot].
            apply Qle_shift_div_l; [reflexivity|]. now rewrite Qmult_0_l.
          - rewrite <- (Qmult_1_l orderTotal) at 2.
            apply Qmult_le_compat_r; [|exact Htot].
            apply Qle_shift_div_r; [reflexivity|]. now rewrite Qmult_1_l. }
        destruct (Coupon.maxDiscount coupon) as [cap|]; [|exact Hp].
        destruct (Qnonzero cap && Qltb cap _) eqn:E; [|exact Hp].
        apply andb_prop in E. destruct E as [_ E]. apply Qltb_lt in E.
        split; [now apply Hcap|].
        eapply Qle_trans; [apply Qlt_le_weak, E | apply Hp].
      * split; [apply Qle_refl | exact Htot].
Qed.

Lemma applied_discount_within_order_total_witness :
  (0 <= discountOf (Coupon.mk 1 "SAVE20" "percent" 20 (Some 500%Q) 0 0 5000 10 0 1)
          10000
   <= 10000)%Q.
Proof.
  apply (applied_discount_within_order_total (couponWorld (Some 500%Q))
           (Payload.mk None (Some 1)) "save20" 10000 1000
           (Coupon.mk 1 "SAVE20" "percent" 20 (Some 500%Q) 0 0 5000 10 0 1)).
  - repeat split.
    + discriminate.
    + intros E. vm_compute in E. discriminate.
    + intros E. vm_compute in E. discriminate.
  - discriminate.
  - discriminate.
  - intros _. split; [discriminate|]. intros cap E. injection E as <-. discriminate.
  - intros E. discriminate.
Defined.

(** ** Plan reads: what they write *)

(** The test of the lazy transition: past [expiresAt] and still active. *)
Definition lapsed (plan : Plan.t) (currentDate : Z) : bool :=
  (Plan.expiresAt plan <? currentDate) && String.eqb (Plan.status plan) "active".

Lemma updateFirst_found {A} (p : A -> bool) (f : A -> A) (l l' : list A) (x : A) :
  find p l = Some x -> updateFirst p f l = Some l' ->
  Forall2 (fun before after => after = before \/ (before = x /\ after = f x)) l l'.
Proof.
  revert l'. induction l as [|y l IH]; simpl; intros l' Hf Hu; [discriminate|].
  destruct (p y).
  - injection Hf as <-. injection Hu as <-. constructor; [auto|].
    clear. induction l; constructor; auto.
  - destruct (updateFirst p f l) as [r|]; [|discriminate].
    injection Hu as <-. constructor; auto.
Qed.

Lemma Forall2_same {A} (R : A -> A -> Prop) (l : list A) :
  (forall a, R a a) -> Forall2 R l l.
Proof. intros H. induction l; constructor; auto. Qed.

(** Either read, on any store: 404 without a write when the business
    has no plan; else 200 with the status reported, and the one write
    of [expired] exactly when the plan has lapsed. *)
Lemma planRead_cases (read : World -> World * Response) (w : World)
    (businessId now : Z) :
  PlanRead businessId now read ->
  match findPlan (db w) businessId with
  | None =>
      db (fst (read w)) = db w
      /\ statusCode (snd (read w)) = 404
      /\ reportedStatus (snd (read w)) = None
  | Some plan =>
      statusCode (snd (read w)) = 200
      /\ reportedStatus (snd (read w))
         = Some (if lapsed plan now then "expired" else Plan.status plan)
      /\ if lapsed plan now then
           exists ps,
             updateFirst (fun p => Plan.businessId p =? businessId)
               (Plan.withStatus "expired") (plans (db w)) = Some ps
             /\ db (fst (read w)) = setPlans ps (db w)
         else db (fst (read w)) = db w
  end.
Proof.
  intros Hread.
  assert (Hbody :
    forall (answer : Plan.t -> string -> bool -> Response)
           (missing onError : Response),
      (forall p s e, statusCode (answer p s e) = 200
                     /\ reportedStatus (answer p s e) = Some s) ->
      statusCode missing = 404 -> reportedStatus missing = None ->
      forall h,
      h = tryCatch
            (plan <- prisma_plan_findUnique businessId ;;
             match plan with
             | None => ret missing
             | Some plan =>
                 r <- autoExpire businessId plan now ;;
                 let (updatedStatus, isExpired) := r in
                 ret (answer plan updatedStatus isExpired)
             end) onError ->
      match findPlan (db w) businessId with
      | None =>
          db (fst (h w)) = db w
          /\ statusCode (snd (h w)) = 404
          /\ reportedStatus (snd (h w)) = None
      | Some plan =>
          statusCode (snd (h w)) = 200
          /\ reportedStatus (snd (h w))
             = Some (if lapsed plan now then "expired" else Plan.status plan)
          /\ if lapsed plan now then
               exists ps,
                 updateFirst (fun p => Plan.businessId p =? businessId)
                   (Plan.withStatus "expired") (plans (db w)) = Some ps
                 /\ db (fst (h w)) = setPlans ps (db w)
             else db (fst (h w)) = db w
      end).
  { intros answer missing onError Hans Hm1 Hm2 h ->. unfold tryCatch.
    rewrite bind_run. unfold prisma_plan_findUnique, query, call. cbv beta iota.
    destruct (findPlan (db w) businessId) as [plan|] eqn:Hf; cbn [db log].
    - rewrite bind_run. unfold autoExpire. fold (lapsed plan now).
      destruct (lapsed plan now) eqn:Hl.
      + rewrite bind_run. unfold prisma_plan_update_status, call. cbn [db log].
        destruct (updateFirst_find (fun p => Plan.businessId p =? businessId)
                    (Plan.withStatus "expired") _ _ Hf) as [ps Hps].
        rewrite Hps. cbn [ret fst snd db].
        destruct (Hans plan "expired" (Plan.expiresAt plan <? now)) as [H1 H2].
        split; [exact H1|]. split; [exact H2|].
        exists ps. split; reflexivity.
      + cbn [ret fst snd db].
        destruct (Hans plan (Plan.status plan) (Plan.expiresAt plan <? now))
          as [H1 H2].
        auto.
    - cbn [ret fst snd db]. auto. }
  destruct Hread as [payload | payload Hp Hnz].
  - apply (Hbody
             (fun p s e =>
                mkResponse 200
                  (BSubscription (Plan.withStatus s p)
                     (mapBackendToFrontendStatus s) (String.eqb s "active") e))
             (mkResponse 404 (BMessage "No subscription found"))
             (serverError "Internal server error")); try reflexivity.
    intros p s e. split; reflexivity.
  - apply (Hbody
             (fun p s e =>
                mkResponse 200
                  (BPlan (Plan.withStatus s p) (mapBackendToFrontendStatus s) e))
             (mkResponse 404 (BMessage "No plan found"))
             (serverError "Internal server error")); try reflexivity.
    + intros p s e. split; reflexivity.
    + unfold route_getPlan, authenticateBusinessOwnerJWT, truthyZ.
      rewrite Hp. apply Z.eqb_neq in Hnz. rewrite Hnz. reflexivity.
Qed.

(** The lazy expiry settles at once: after either read, a second read
    at the same time, by either handler, writes nothing and reports
    what the first one reported. *)
Theorem second_plan_read_writes_nothing
    (read1 read2 : World -> World * Response) (w : World) (businessId now : Z) :
  PlanRead businessId now read1 ->
  PlanRead businessId now read2 ->
  let w1 := fst (read1 w) in
  db (fst (read2 w1)) = db w1
  /\ reportedStatus (snd (read2 w1)) = reportedStatus (snd (read1 w)).
Proof.
  intros H1 H2 w1.
  pose proof (planRead_cases read1 w businessId now H1) as C1.
  pose proof (planRead_cases read2 w1 businessId now H2) as C2.
  fold w1 in C1.
  destruct (findPlan (db w) businessId) as [plan|] eqn:Hf.
  - destruct C1 as (_ & Hrep & Hdb).
    assert (Hafter :
      exists plan', findPlan (db w1) businessId = Some plan'
                    /\ lapsed plan' now = false
                    /\ Plan.status plan'
                       = if lapsed plan now then "expired" else Plan.status plan).
    { destruct (lapsed plan now) eqn:Hl.
      - destruct Hdb as (ps & Hps & Hdb). rewrite Hdb.
        exists (Plan.withStatus "expired" plan). unfold findPlan. cbn [setPlans plans].
        split; [|split; [|reflexivity]].
        + exact (updateFirst_find_after
                   (fun p => Plan.businessId p =? businessId)
                   (Plan.withStatus "expired") _ _ plan
                   (fun a => eq_refl) Hf Hps).
        + unfold lapsed. cbn. apply andb_false_r.
      - exists plan. rewrite Hdb. auto. }
    destruct Hafter as (plan' & Hf' & Hl' & Hst).
    rewrite Hf', Hl' in C2. destruct C2 as (_ & Hrep2 & Hdb2).
    split; [exact Hdb2|]. now rewrite Hrep2, Hrep, Hst.
  - destruct C1 as (Hdb & _ & Hrep).
    rewrite Hdb, Hf in C2. destruct C2 as (Hdb2 & _ & Hrep2).
    split; [now rewrite Hdb2|]. now rewrite Hrep2, Hrep.
Qed.

Lemma second_plan_read_writes_nothing_witness :
  let w := mkWorld (mkDb [1] [] [] [] [] [] []
                      [Plan.mk 1 1 "Monthly" 500 "active"] [] 1 1) [] in
  let w1 := fst (route_getPlan (ownerOf 1) 1000 w) in
  db (fst (route_getSubscriptionStatus (ownerOf 1) 1 1000 w1)) = db w1
  /\ reportedStatus (snd (route_getSubscriptionStatus (ownerOf 1) 1 1000 w1))
     = Some "expired".
Proof.
  apply (second_plan_read_writes_nothing
           (route_getPlan (Verified (Payload.mk None (Some 1))) 1000)
           (route_getSubscriptionStatus (Verified (Payload.mk None (Some 1))) 1 1000)
           (mkWorld (mkDb [1] [] [] [] [] [] []
                       [Plan.mk 1 1 "Monthly" 500 "active"] [] 1 1) [])
           1 1000).
  - apply ReadPlan; [reflexivity | discriminate].
  - apply ReadSubscriptionStatus.
Defined.

(** A read changes nothing but the status of the lapsed plan it reads:
    every other table is as before, and each plan row is as before
    unless it is that business's active plan past its expiry, which
    becomes [expired] with its other columns kept. *)
Theorem plan_read_touches_only_the_lapsed_plan
    (read : World -> World * Response) (w : World) (businessId now : Z) :
  PlanRead businessId now read ->
  let w' := fst (read w) in
  db w' = setPlans (plans (db w')) (db w)
  /\ Forall2
       (fun before after =>
          after = before
          \/ (Plan.businessId before = businessId
              /\ Plan.status before = "active"
              /\ Plan.expiresAt before < now
              /\ after = Plan.withStatus "expired" before))
       (plans (db w)) (plans (db w')).
Proof.
  intros Hread w'.
  pose proof (planRead_cases read w businessId now Hread) as C. fold w' in C.
  assert (Hsame : forall d, d = setPlans (plans d) d) by (intros []; reflexivity).
  destruct (findPlan (db w) businessId) as [plan|] eqn:Hf.
  - destruct C as (_ & _ & Hdb). destruct (lapsed plan now) eqn:Hl.
    + destruct Hdb as (ps & Hps & Hdb). rewrite Hdb.
      cbn [setPlans plans]. split; [reflexivity|].
      pose proof (updateFirst_found _ _ _ _ _ Hf Hps) as Hall.
      unfold findPlan in Hf. apply find_some in Hf. destruct Hf as [_ Hb].
      apply Z.eqb_eq in Hb.
      unfold lapsed in Hl. apply andb_prop in Hl. destruct Hl as [He Ha].
      apply Z.ltb_lt in He. apply String.eqb_eq in Ha.
      eapply Forall2_impl; [|exact Hall].
      intros a b [->|[-> ->]]; auto 6.
    + rewrite Hdb. split; [apply Hsame|]. apply Forall2_same. auto.
  - destruct C as (Hdb & _). rewrite Hdb. split; [apply Hsame|].
    apply Forall2_same. auto.
Qed.

Definition twoPlansWorld : World :=
  mkWorld (mkDb [1; 2] [] [] [] [] [] []
             [Plan.mk 1 1 "Monthly" 500 "active";
              Plan.mk 2 2 "Monthly" 500 "active"] [] 1 1) [].

Lemma plan_read_touches_only_the_lapsed_plan_witness :
  Forall2
    (fun before after =>
       after = before
       \/ (Plan.businessId before = 2
           /\ Plan.status before = "active"
           /\ Plan.expiresAt before < 1000
           /\ after = Plan.withStatus "expired" before))
    (plans (db twoPlansWorld))
    (plans (db (fst (route_getSubscriptionStatus (ownerOf 1) 2 1000
                       twoPlansWorld)))).
Proof.
  apply (plan_read_touches_only_the_lapsed_plan
           (route_getSubscriptionStatus (Verified (Payload.mk None (Some 1)))
              2 1000)
           twoPlansWorld 2 1000).
  apply ReadSubscriptionStatus.
Defined.

(** ** Plan status update *)

Module BusinessOwner.
(** [req.businessOwner], restricted to the keys the plan handlers read. *)
Record t := mk {
  businessId : option Z;
  role : option string
}.
End BusinessOwner.

Definition mapFrontendToBackendStatus (frontendStatus : string) : string :=
  if String.eqb frontendStatus "verified" then "active"
  else if String.eqb frontendStatus "unverified" then "expired"
  else "pending".

Definition validFrontendStatuses : list string :=
  ["verified"; "unverified"; "pending"].

Definition validBackendStatuses : list string :=
  ["pending"; "active"; "expired"; "cancelled"].

(** [list.includes(v)] for a list of strings. *)
Definition includes (l : list string) (v : string) : bool :=
  existsb (String.eqb v) l.

(** The bodies of the plan routes that write. *)
Inductive PlanBody :=
| PError (error : string)
| PInvalid (error message : string)
| PAlreadyVerified (error message : string) (plan : Plan.t)
    (displayStatus : string)
| PPlan (message : string) (plan : Plan.t) (displayStatus : string)
| PExisting (error message : string) (name status : string) (expiresAt : Z)
| PMessage (message : string).

Record PlanResponse := mkPlanResponse {
  planStatusCode : Z;
  planBody : PlanBody
}.

(** [try { ... } catch] of a handler that answers with a [PlanResponse]. *)
Definition tryCatchPlan (h : Prisma PlanResponse) (onError : PlanResponse)
  : World -> World * PlanResponse :=
  fun w =>
    match h w with
    | (w', Some r) => (w', r)
    | (w', None) => (w', onError)
    end.

(** [prisma.plan.update({ where: { businessId }, data: { status } })],
    which returns the updated row. *)
Definition prisma_plan_update (businessId : Z) (status : string)
  : Prisma Plan.t :=
  call plan_update (fun d =>
    match findPlan d businessId,
          updateFirst (fun p => Plan.businessId p =? businessId)
                      (Plan.withStatus status) (plans d) with
    | Some p, Some ps => Some (setPlans ps d, Plan.withStatus status p)
    | _, _ => None
    end).

Definition successMessage (status : string) : string :=
  if String.eqb status "active" then "Plan verified successfully"
  else if String.eqb status "expired" then "Plan marked as unverified"
  else if String.eqb status "pending" then "Plan status set to pending"
  else "Plan status updated successfully".

Definition alreadyVerified (currentPlan : Plan.t) : PlanResponse :=
  mkPlanResponse 400
    (PAlreadyVerified "Plan already verified"
       "Yeh plan already verified hai. Dobara verify nahi kar sakte."
       currentPlan (mapBackendToFrontendStatus (Plan.status currentPlan))).

(** The [try] block of PATCH /plan/:businessId/status, [status] being
    the backend value. *)
Definition patchPlanStatus (businessId : Z) (status : string)
  : Prisma PlanResponse :=
  currentPlan <- prisma_plan_findUnique businessId ;;
  match currentPlan with
  | None => ret (mkPlanResponse 404 (PError "Plan not found"))
  | Some currentPlan =>
      if String.eqb (Plan.status currentPlan) "active"
         && String.eqb status "active"
      then ret (alreadyVerified currentPlan)
      else
        updatedPlan <- prisma_plan_update businessId status ;;
        ret (mkPlanResponse 200
               (PPlan (successMessage status) updatedPlan
                  (mapBackendToFrontendStatus (Plan.status updatedPlan))))
  end.

(** The backend value for [req.body.status]: a frontend word is
    mapped, a backend word is kept, anything else (a value that is not
    a string included) is refused. *)
Definition backendStatusOf (status : option string) : option string :=
  match status with
  | Some s =>
      if includes validFrontendStatuses s then Some (mapFrontendToBackendStatus s)
      else if negb (includes validBackendStatuses s) then None
      else Some s
  | None => None
  end.

Definition mayUpdatePlan (user : BusinessOwner.t) (businessId : Z) : bool :=
  match BusinessOwner.role user with
  | Some r => String.eqb r "SuperAdmin"
  | None => false
  end
  || match BusinessOwner.businessId user with
     | Some b => b =? businessId
     | None => false
     end.

(** PATCH /plan/:businessId/status, after the middleware has set
    [req.businessOwner] to [user]. *)
Definition route_patchPlanStatus (user : BusinessOwner.t) (businessId : Z)
    (status : option string) : World -> World * PlanResponse :=
  if negb (mayUpdatePlan user businessId) then
    fun w => (w, mkPlanResponse 403 (PError "Unauthorized to update this plan"))
  else
    match backendStatusOf status with
    | None => fun w =>
        (w, mkPlanResponse 400
              (PInvalid "Invalid status value"
                 "Use: verified, unverified, pending (or backend equivalents: active, expired, pending, cancelled)"))
    | Some status =>
        tryCatchPlan (patchPlanStatus businessId status)
          (mkPlanResponse 500 (PError "Failed to update plan status"))
    end.

Lemma backendStatusOf_valid (status : option string) (s : string) :
  backendStatusOf status = Some s -> In s validBackendStatuses.
Proof.
  unfold backendStatusOf. destruct status as [v|]; [|discriminate].
  destruct (includes validFrontendStatuses v) eqn:Hf.
  - intros H. injection H as <-. unfold mapFrontendToBackendStatus.
    destruct (String.eqb v "verified"); [simpl; auto|].
    destruct (String.eqb v "unverified"); simpl; auto.
  - destruct (includes validBackendStatuses v) eqn:Hb; [|discriminate].
    intros H. injection H as <-.
    unfold includes in Hb. apply existsb_exists in Hb.
    destruct Hb as [x [Hx E]]. apply String.eqb_eq in E. now subst.
Qed.

(** What the [try] block does on a store: 404 or the re-verification
    refusal without a write, else the one status write. *)
Lemma patchPlanStatus_cases (businessId : Z) (status : string) (w : World) :
  let run := tryCatchPlan (patchPlanStatus businessId status)
               (mkPlanResponse 500 (PError "Failed to update plan status")) w in
  match findPlan (db w) businessId with
  | None => db (fst run) = db w /\ planStatusCode (snd run) = 404
  | Some plan =>
      if String.eqb (Plan.status plan) "active" && String.eqb status "active"
      then db (fst run) = db w /\ snd run = alreadyVerified plan
      else
        exists ps,
          updateFirst (fun p => Plan.businessId p =? businessId)
            (Plan.withStatus status) (plans (db w)) = Some ps
          /\ db (fst run) = setPlans ps (db w)
          /\ snd run
             = mkPlanResponse 200
                 (PPlan (successMessage status) (Plan.withStatus status plan)
                    (mapBackendToFrontendStatus status))
  end.
Proof.
  unfold tryCatchPlan, patchPlanStatus. rewrite bind_run.
  unfold prisma_plan_findUnique, query, call. cbv beta iota.
  destruct (findPlan (db w) businessId) as [plan|] eqn:Hf; cbn [db log].
  - destruct (String.eqb (Plan.status plan) "active" && String.eqb status "active").
    + cbn. auto.
    + rewrite bind_run. unfold prisma_plan_update, call. cbn [db log].
      rewrite Hf.
      destruct (updateFirst_find (fun p => Plan.businessId p =? businessId)
                  (Plan.withStatus status) _ _ Hf) as [ps Hps].
      rewrite Hps. cbn. exists ps. auto.
  - cbn. auto.
Qed.

(** PATCH /plan/:businessId/status writes at most one thing: the
    status of the addressed business's plan, only for a SuperAdmin or a
    user of that business, and only to one of the four backend values.
    Every other plan, column and table is as before, on every path. *)
Theorem plan_status_patch_writes_one_backend_status
    (user : BusinessOwner.t) (businessId : Z) (status : option string)
    (w : World) :
  let w' := fst (route_patchPlanStatus user businessId status w) in
  db w' = setPlans (plans (db w')) (db w)
  /\ Forall2
       (fun before after =>
          after = before
          \/ (Plan.businessId before = businessId
              /\ (BusinessOwner.role user = Some "SuperAdmin"
                  \/ BusinessOwner.businessId user = Some businessId)
              /\ exists s, In s validBackendStatuses
                           /\ after = Plan.withStatus s before))
       (plans (db w)) (plans (db w')).
Proof.
  intros w'.
  assert (Hsame : forall d, d = setPlans (plans d) d) by (intros []; reflexivity).
  assert (Hnone : db w' = db w ->
            db w' = setPlans (plans (db w')) (db w)
            /\ Forall2
                 (fun before after =>
                    after = before
                    \/ (Plan.businessId before = businessId
                        /\ (BusinessOwner.role user = Some "SuperAdmin"
                            \/ BusinessOwner.businessId user = Some businessId)
                        /\ exists s, In s validBackendStatuses
                                     /\ after = Plan.withStatus s before))
                 (plans (db w)) (plans (db w'))).
  { intros ->. split; [apply Hsame|]. apply Forall2_same. auto. }
  unfold w', route_patchPlanStatus in *.
  destruct (mayUpdatePlan user businessId) eqn:Hmay; cbn [negb];
    [|apply Hnone; reflexivity].
  destruct (backendStatusOf status) as [s|] eqn:Hs; [|apply Hnone; reflexivity].
  pose proof (patchPlanStatus_cases businessId s w) as C. cbv zeta in C.
  destruct (findPlan (db w) businessId) as [plan|] eqn:Hf;
    [|apply Hnone; apply C].
  destruct (String.eqb (Plan.status plan) "active" && String.eqb s "active");
    [apply Hnone; apply C|].
  destruct C as (ps & Hps & Hdb & _). rewrite Hdb. cbn [setPlans plans].
  split; [reflexivity|].
  pose proof (updateFirst_found _ _ _ _ _ Hf Hps) as Hall.
  unfold findPlan in Hf. apply find_some in Hf. destruct Hf as [_ Hb].
  apply Z.eqb_eq in Hb.
  assert (Hauth : BusinessOwner.role user = Some "SuperAdmin"
                  \/ BusinessOwner.businessId user = Some businessId).
  { unfold mayUpdatePlan in Hmay. apply orb_prop in Hmay.
    destruct Hmay as [Hr|Hbz].
    - left. destruct (BusinessOwner.role user) as [r|]; [|discriminate].
      apply String.eqb_eq in Hr. now subst.
    - right. destruct (BusinessOwner.businessId user) as [b|]; [|discriminate].
      apply Z.eqb_eq in Hbz. now subst. }
  eapply Forall2_impl; [|exact Hall].
  intros a b [->|[-> ->]]; [auto|]. right. split; [exact Hb|]. split; [exact Hauth|].
  exists s. split; [exact (backendStatusOf_valid _ _ Hs) | reflexivity].
Qed.

(** A plan that is verified is not verified again: for an authorised
    caller, the request to set an active plan to [verified] (or
    [active]) is answered 400 with the plan as it is, and nothing is
    written. *)
Theorem verified_plan_is_not_verified_again
    (user : BusinessOwner.t) (businessId : Z) (status : string) (w : World)
    (plan : Plan.t) :
  mayUpdatePlan user businessId = true ->
  findPlan (db w) businessId = Some plan ->
  Plan.status plan = "active" ->
  status = "verified" \/ status = "active" ->
  snd (route_patchPlanStatus user businessId (Some status) w)
  = mkPlanResponse 400
      (PAlreadyVerified "Plan already verified"
         "Yeh plan already verified hai. Dobara verify nahi kar sakte."
         plan "verified")
  /\ db (fst (route_patchPlanStatus user businessId (Some status) w)) = db w.
Proof.
  intros Hmay Hf Hact Hs. unfold route_patchPlanStatus. rewrite Hmay. cbn [negb].
  assert (Hb : backendStatusOf (Some status) = Some "active")
    by (destruct Hs as [-> | ->]; reflexivity).
  rewrite Hb.
  pose proof (patchPlanStatus_cases businessId "active" w) as C. cbv zeta in C.
  rewrite Hf, Hact in C. cbn [String.eqb andb] in C.
  change (String.eqb "active" "active") with true in C. cbn [andb] in C.
  destruct C as [Hdb Hr]. split; [|exact Hdb].
  rewrite Hr. unfold alreadyVerified. now rewrite Hact.
Qed.

Definition activePlanWorld : World :=
  mkWorld (mkDb [1] [] [] [] [] [] []
             [Plan.mk 1 1 "Monthly" 5000 "active"] [] 1 1) [].

Lemma verified_plan_is_not_verified_again_witness :
  planStatusCode
    (snd (route_patchPlanStatus (BusinessOwner.mk (Some 9) (Some "SuperAdmin")) 1
            (Some "verified") activePlanWorld)) = 400
  /\ db (fst (route_patchPlanStatus (BusinessOwner.mk (Some 9) (Some "SuperAdmin")) 1
                (Some "verified") activePlanWorld))
     = db activePlanWorld.
Proof.
  destruct (verified_plan_is_not_verified_again
              (BusinessOwner.mk (Some 9) (Some "SuperAdmin")) 1 "verified"
              activePlanWorld (Plan.mk 1 1 "Monthly" 5000 "active"))
    as [Hr Hdb]; try reflexivity.
  - left. reflexivity.
  - split; [now rewrite Hr | exact Hdb].
Defined.

(** An update with a frontend word answers with that word: for an
    authorised caller and a plan that is not being verified twice, the
    answer is 200, the stored status is the backend value of the word
    and the [displayStatus] of the answer is the word itself. *)
Theorem status_patch_shows_the_requested_display_status
    (user : BusinessOwner.t) (businessId : Z) (word : string) (w : World)
    (plan : Plan.t) :
  mayUpdatePlan user businessId = true ->
  findPlan (db w) businessId = Some plan ->
  In word validFrontendStatuses ->
  ~ (Plan.status plan = "active" /\ word = "verified") ->
  let run := route_patchPlanStatus user businessId (Some word) w in
  snd run
  = mkPlanResponse 200
      (PPlan (successMessage (mapFrontendToBackendStatus word))
         (Plan.withStatus (mapFrontendToBackendStatus word) plan) word)
  /\ findPlan (db (fst run)) businessId
     = Some (Plan.withStatus (mapFrontendToBackendStatus word) plan).
Proof.
  intros Hmay Hf Hword Hnot run. unfold run, route_patchPlanStatus.
  rewrite Hmay. cbn [negb].
  assert (Hb : backendStatusOf (Some word)
               = Some (mapFrontendToBackendStatus word)).
  { unfold backendStatusOf, includes.
    assert (E : existsb (String.eqb word) validFrontendStatuses = true).
    { apply existsb_exists. exists word. split; [exact Hword|].
      apply String.eqb_refl. }
    now rewrite E. }
  rewrite Hb.
  pose proof (patchPlanStatus_cases businessId (mapFrontendToBackendStatus word) w)
    as C. cbv zeta in C. rewrite Hf in C.
  assert (Hround : mapBackendToFrontendStatus (mapFrontendToBackendStatus word)
                   = word).
  { destruct Hword as [<-|[<-|[<-|[]]]]; reflexivity. }
  destruct (String.eqb (Plan.status plan) "active"
            && String.eqb (mapFrontendToBackendStatus word) "active") eqn:E.
  - exfalso. apply Hnot. apply andb_prop in E. destruct E as [E1 E2].
    apply String.eqb_eq in E1. split; [exact E1|].
    destruct Hword as [<-|[<-|[<-|[]]]]; [reflexivity | discriminate | discriminate].
  - destruct C as (ps & Hps & Hdb & Hr). rewrite Hr, Hdb, Hround.
    split; [reflexivity|].
    unfold findPlan in *. cbn [setPlans plans].
    exact (updateFirst_find_after (fun p => Plan.businessId p =? businessId)
             (Plan.withStatus (mapFrontendToBackendStatus word)) _ _ plan
             (fun a => eq_refl) Hf Hps).
Qed.

Lemma status_patch_shows_the_requested_display_status_witness :
  snd (route_patchPlanStatus (BusinessOwner.mk (Some 1) (Some "Owner")) 1
         (Some "unverified") activePlanWorld)
  = mkPlanResponse 200
      (PPlan "Plan marked as unverified" (Plan.mk 1 1 "Monthly" 5000 "expired")
         "unverified").
Proof.
  apply (status_patch_shows_the_requested_display_status
           (BusinessOwner.mk (Some 1) (Some "Owner")) 1 "unverified"
           activePlanWorld (Plan.mk 1 1 "Monthly" 5000 "active")).
  - reflexivity.
  - reflexivity.
  - right. left. reflexivity.
  - intros [_ H]. discriminate.
Defined.

(** Verifying a plan that is past its expiry does not last: the update
    answers 200 with [verified] and stores [active], the expiry date
    stays as it was, and the next read of the plan stores and reports
    [expired]. *)
Theorem verifying_a_lapsed_plan_does_not_last
    (user : BusinessOwner.t) (businessId : Z) (status : string) (w : World)
    (plan : Plan.t) (read : World -> World * Response) (now : Z) :
  mayUpdatePlan user businessId = true ->
  findPlan (db w) businessId = Some plan ->
  Plan.status plan <> "active" ->
  status = "verified" \/ status = "active" ->
  Plan.expiresAt plan < now ->
  PlanRead businessId now read ->
  let run := route_patchPlanStatus user businessId (Some status) w in
  snd run
  = mkPlanResponse 200
      (PPlan "Plan verified successfully" (Plan.withStatus "active" plan)
         "verified")
  /\ reportedStatus (snd (read (fst run))) = Some "expired"
  /\ findPlan (db (fst (read (fst run)))) businessId
     = Some (Plan.withStatus "expired" plan).
Proof.
  intros Hmay Hf Hna Hs Hexp Hread run. unfold run, route_patchPlanStatus.
  rewrite Hmay. cbn [negb].
  assert (Hb : backendStatusOf (Some status) = Some "active")
    by (destruct Hs as [-> | ->]; reflexivity).
  rewrite Hb.
  pose proof (patchPlanStatus_cases businessId "active" w) as C. cbv zeta in C.
  rewrite Hf in C. apply String.eqb_neq in Hna. rewrite Hna in C. cbn [andb] in C.
  destruct C as (ps & Hps & Hdb & Hr).
  split; [exact Hr|].
  set (w1 := fst (tryCatchPlan (patchPlanStatus businessId "active")
                    (mkPlanResponse 500 (PError "Failed to update plan status")) w))
    in *.
  assert (Hf1 : findPlan (db w1) businessId = Some (Plan.withStatus "active" plan)).
  { rewrite Hdb. unfold findPlan in *. cbn [setPlans plans].
    exact (updateFirst_find_after (fun p => Plan.businessId p =? businessId)
             (Plan.withStatus "active") _ _ plan (fun a => eq_refl) Hf Hps). }
  pose proof (planRead_cases read w1 businessId now Hread) as R.
  rewrite Hf1 in R.
  assert (Hl : lapsed (Plan.withStatus "active" plan) now = true).
  { unfold lapsed. cbn [Plan.withStatus Plan.expiresAt Plan.status].
    apply Z.ltb_lt in Hexp. now rewrite Hexp. }
  rewrite Hl in R. destruct R as (_ & Hrep & ps' & Hps' & Hdb').
  split; [exact Hrep|].
  rewrite Hdb'. unfold findPlan in *. cbn [setPlans plans].
  exact (updateFirst_find_after (fun p => Plan.businessId p =? businessId)
           (Plan.withStatus "expired") _ _ _ (fun a => eq_refl) Hf1 Hps').
Qed.

Lemma verifying_a_lapsed_plan_does_not_last_witness :
  let run := route_patchPlanStatus (BusinessOwner.mk (Some 1) (Some "Owner")) 1
               (Some "verified") pendingPlanWorld in
  reportedStatus (snd (route_getPlan (ownerOf 1) 2000 (fst run))) = Some "expired".
Proof.
  apply (verifying_a_lapsed_plan_does_not_last
           (BusinessOwner.mk (Some 1) (Some "Owner")) 1 "verified" pendingPlanWorld
           (Plan.mk 1 1 "monthly" 1000 "pending")
           (route_getPlan (Verified (Payload.mk None (Some 1))) 2000) 2000).
  - reflexivity.
  - reflexivity.
  - discriminate.
  - left. reflexivity.
  - reflexivity.
  - apply ReadPlan; [reflexivity | discriminate].
Defined.

(** ** Plan creation and removal *)

(** A call for which the log has no name: run against the store. *)
Definition perform {A} (f : Db -> option (Db * A)) : Prisma A :=
  fun w =>
    match f (db w) with
    | Some (d, a) => (mkWorld d (log w), Some a)
    | None => (w, None)
    end.

Module PlanInput.
(** [req.body] of POST /plan, restricted to the columns of [Plan.t];
    [expiresAt] is the instant the given date denotes. *)
Record t := mk {
  name : option string;
  expiresAt : option Z;
  status : option string
}.
End PlanInput.

Definition lowerAscii (c : ascii) : ascii :=
  let n := nat_of_ascii c in
  if ((65 <=? n) && (n <=? 90))%nat then ascii_of_nat (n + 32) else c.

(** [s.toLowerCase()], on the ASCII letters. *)
Fixpoint toLowerCase (s : string) : string :=
  match s with
  | EmptyString => EmptyString
  | String c r => String (lowerAscii c) (toLowerCase r)
  end.

(** [s.includes(part)]. *)
Fixpoint hasSubstring (part s : string) : bool :=
  String.prefix part s
  || match s with
     | EmptyString => false
     | String _ r => hasSubstring part r
     end.

Definition days (n : Z) : Z := n * 24 * 60 * 60 * 1000.

(** The kind of term a plan name stands for, by the tests of the
    handler in their order. *)
Inductive Term := Trial | Monthly | Yearly | Unnamed.

Definition termOf (name : option string) : Term :=
  match name with
  | None => Unnamed
  | Some n =>
      let lower := toLowerCase n in
      if String.eqb lower "trial" || String.eqb n "Free Trial" then Trial
      else if hasSubstring "monthly" lower then Monthly
      else if hasSubstring "annual" lower || hasSubstring "yearly" lower
      then Yearly
      else Unnamed
  end.

(** The name and the expiry that are stored. *)
Definition planTerms (name : option string) (expiresAt : option Z) (now : Z)
  : option string * Z :=
  match termOf name with
  | Trial => (Some "Free Trial", now + days 5)
  | Monthly => (name, now + days 30)
  | Yearly => (name, now + days 365)
  | Unnamed =>
      if negb (truthyZ expiresAt) then (name, now + days 30)
      else (name, orElseZ expiresAt 0)
  end.

(** [status] after the mapping of a frontend word. *)
Definition upsertStatus (status : option string) : option string :=
  match status with
  | Some s =>
      if nonEmpty s && includes validFrontendStatuses s
      then Some (mapFrontendToBackendStatus s) else Some s
  | None => None
  end.

Definition orKeep {A} (v : option A) (stored : A) : A :=
  match v with Some x => x | None => stored end.

(** [prisma.plan.upsert] on the unique [businessId]: an [undefined]
    value leaves a column of the existing row as it is; a new row needs
    a name and an existing business, takes [serial] as its id and the
    column default for a status that is not given. *)
Definition prisma_plan_upsert (serial businessId : Z) (name : option string)
    (expiresAt : Z) (status : option string) : Prisma Plan.t :=
  perform (fun d =>
    match findPlan d businessId with
    | Some p =>
        let p' := Plan.mk (Plan.id p) (Plan.businessId p)
                    (orKeep name (Plan.name p)) expiresAt
                    (orKeep status (Plan.status p)) in
        match updateFirst (fun q => Plan.businessId q =? businessId)
                          (fun _ => p') (plans d) with
        | Some ps => Some (setPlans ps d, p')
        | None => None
        end
    | None =>
        match name with
        | Some n =>
            if businessExists d businessId then
              let p := Plan.mk serial businessId n expiresAt
                         (orKeep status "Pending") in
              Some (setPlans (plans d ++ [p]) d, p)
            else None
        | None => None
        end
    end).

(** The existing plan that refuses a second subscription: active and
    not yet past its expiry. *)
Definition stillVerified (existingPlan : option Plan.t) (now : Z)
  : option Plan.t :=
  match existingPlan with
  | Some p =>
      if String.eqb (Plan.status p) "active" && (now <? Plan.expiresAt p)
      then Some p else None
  | None => None
  end.

Definition alreadySubscribed (existingPlan : Plan.t) : PlanResponse :=
  mkPlanResponse 400
    (PExisting "Verified subscription already exists"
       "Aapka subscription already verified hai. Dobara subscription nahi le sakte."
       (Plan.name existingPlan)
       (mapBackendToFrontendStatus (Plan.status existingPlan))
       (Plan.expiresAt existingPlan)).

(** The [try] block of POST /plan. *)
Definition postPlan (businessId : Z) (input : PlanInput.t) (now serial : Z)
  : Prisma PlanResponse :=
  existingPlan <- prisma_plan_findUnique businessId ;;
  match stillVerified existingPlan now with
  | Some existingPlan => ret (alreadySubscribed existingPlan)
  | None =>
      let (name, expiresAt) :=
        planTerms (PlanInput.name input) (PlanInput.expiresAt input) now in
      plan <- prisma_plan_upsert serial businessId name expiresAt
                (upsertStatus (PlanInput.status input)) ;;
      ret (mkPlanResponse 200
             (PPlan "Plan created or updated successfully" plan
                (mapBackendToFrontendStatus (Plan.status plan))))
  end.

(** POST /plan, after the middleware has set [req.businessOwner] to
    [user]; [serial] is the next value of the id sequence of the table. *)
Definition route_postPlan (user : BusinessOwner.t) (input : PlanInput.t)
    (now serial : Z) : World -> World * PlanResponse :=
  if negb (truthyZ (BusinessOwner.businessId user)) then
    fun w => (w, mkPlanResponse 400 (PError "Business ID missing in token"))
  else
    tryCatchPlan
      (postPlan (orElseZ (BusinessOwner.businessId user) 0) input now serial)
      (mkPlanResponse 500 (PError "Failed to create or update plan")).

Lemma find_none_Forall {A} (p : A -> bool) (l : list A) :
  find p l = None -> Forall (fun y => p y = false) l.
Proof.
  induction l as [|y l IH]; simpl; intros H; [constructor|].
  destruct (p y) eqn:E; [discriminate|]. constructor; auto.
Qed.

(** The row found is the row replaced, also when the replacement does
    not depend on it. *)
Lemma updateFirst_find_hit {A} (p : A -> bool) (f : A -> A) (l l' : list A)
    (x : A) :
  find p l = Some x -> updateFirst p f l = Some l' -> p (f x) = true ->
  find p l' = Some (f x).
Proof.
  revert l'. induction l as [|y l IH]; simpl; intros l' Hf Hu Hp; [discriminate|].
  destruct (p y) eqn:E.
  - injection Hf as <-. injection Hu as <-. simpl. now rewrite Hp.
  - destruct (updateFirst p f l) as [r|]; [|discriminate].
    injection Hu as <-. simpl. rewrite E. now apply IH.
Qed.

Lemma find_unique {A} (key : A -> Z) (l : list A) (x : A) :
  NoDup (map key l) -> In x l ->
  find (fun a => key a =? key x) l = Some x.
Proof.
  induction l as [|y l IH]; simpl; intros Hnd Hin; [contradiction|].
  apply NoDup_cons_iff in Hnd. destruct Hnd as [Hnotin Hnd].
  destruct Hin as [->|Hin].
  - now rewrite Z.eqb_refl.
  - destruct (Z.eqb_spec (key y) (key x)) as [E|E].
    + elim Hnotin. rewrite E. now apply in_map.
    + auto.
Qed.

(** The run of POST /plan for a token that carries business [b]. *)
Lemma postPlan_cases (b : Z) (input : PlanInput.t) (now serial : Z) (w : World) :
  let run := tryCatchPlan (postPlan b input now serial)
               (mkPlanResponse 500 (PError "Failed to create or update plan")) w in
  let name := fst (planTerms (PlanInput.name input) (PlanInput.expiresAt input) now) in
  let expiresAt :=
    snd (planTerms (PlanInput.name input) (PlanInput.expiresAt input) now) in
  let status := upsertStatus (PlanInput.status input) in
  match findPlan (db w) b with
  | Some p =>
      if String.eqb (Plan.status p) "active" && (now <? Plan.expiresAt p) then
        db (fst run) = db w /\ snd run = alreadySubscribed p
      else
        let p' := Plan.mk (Plan.id p) (Plan.businessId p)
                    (orKeep name (Plan.name p)) expiresAt
                    (orKeep status (Plan.status p)) in
        exists ps,
          updateFirst (fun q => Plan.businessId q =? b) (fun _ => p')
            (plans (db w)) = Some ps
          /\ db (fst run) = setPlans ps (db w)
          /\ snd run
             = mkPlanResponse 200
                 (PPlan "Plan created or updated successfully" p'
                    (mapBackendToFrontendStatus (Plan.status p')))
  | None =>
      match name with
      | Some n =>
          if businessExists (db w) b then
            let p := Plan.mk serial b n expiresAt (orKeep status "Pending") in
            db (fst run) = setPlans (plans (db w) ++ [p]) (db w)
            /\ snd run
               = mkPlanResponse 200
                   (PPlan "Plan created or updated successfully" p
                      (mapBackendToFrontendStatus (Plan.status p)))
          else db (fst run) = db w /\ planStatusCode (snd run) = 500
      | None => db (fst run) = db w /\ planStatusCode (snd run) = 500
      end
  end.
Proof.
  unfold tryCatchPlan, postPlan. rewrite bind_run.
  unfold prisma_plan_findUnique, query, call. cbv beta iota.
  destruct (planTerms (PlanInput.name input) (PlanInput.expiresAt input) now)
    as [name expiresAt].
  cbn [fst snd db log].
  destruct (findPlan (db w) b) as [p|] eqn:Hf; cbn [stillVerified].
  - destruct (String.eqb (Plan.status p) "active" && (now <? Plan.expiresAt p)).
    + cbn. auto.
    + rewrite bind_run. unfold prisma_plan_upsert, perform. cbn [db log].
      rewrite Hf.
      destruct (updateFirst_find (fun q => Plan.businessId q =? b)
                  (fun _ => Plan.mk (Plan.id p) (Plan.businessId p)
                              (orKeep name (Plan.name p)) expiresAt
                              (orKeep (upsertStatus (PlanInput.status input))
                                 (Plan.status p)))
                  _ _ Hf) as [ps Hps].
      rewrite Hps. cbn. exists ps. auto.
  - rewrite bind_run. unfold prisma_plan_upsert, perform. cbn [db log].
    rewrite Hf. destruct name as [n|]; [|cbn; auto].
    destruct (businessExists (db w) b); cbn; auto.
Qed.

Lemma Forall2_replaced_keys {A} (key : A -> Z) (x y : A) (l l' : list A) :
  Forall2 (fun before after => after = before \/ (before = x /\ after = y)) l l' ->
  key y = key x -> map key l' = map key l.
Proof.
  intros H Hk. induction H as [|a b l l' Hab _ IH]; simpl; [reflexivity|].
  rewrite IH. destruct Hab as [->|[-> ->]]; [reflexivity | now rewrite Hk].
Qed.

Lemma Forall2_replaced_In {A} (x y : A) (l l' : list A) (q : A -> Prop) :
  Forall2 (fun before after => after = before \/ (before = x /\ after = y)) l l' ->
  ~ q x -> ~ q y ->
  forall a, q a -> (In a l' <-> In a l).
Proof.
  intros H Hx Hy a Ha. induction H as [|c d l l' Hcd _ IH]; simpl; [tauto|].
  destruct Hcd as [->|[-> ->]]; [tauto|].
  split; intros [E|E]; try (subst; contradiction); right; tauto.
Qed.

(** POST /plan keeps one plan per business and touches the caller's
    plan only: with at most one plan per business before, the same
    holds after, no other table changes, the plans of every other
    business are the same rows, and a caller whose plan is active and
    not yet expired changes nothing at all. *)
Theorem plan_upsert_keeps_one_plan_per_business
    (user : BusinessOwner.t) (input : PlanInput.t) (now serial : Z) (w : World) :
  NoDup (map Plan.businessId (plans (db w))) ->
  let w' := fst (route_postPlan user input now serial w) in
  NoDup (map Plan.businessId (plans (db w')))
  /\ db w' = setPlans (plans (db w')) (db w)
  /\ (forall p, Some (Plan.businessId p) <> BusinessOwner.businessId user ->
                (In p (plans (db w')) <-> In p (plans (db w))))
  /\ (forall p, In p (plans (db w)) ->
                Some (Plan.businessId p) = BusinessOwner.businessId user ->
                Plan.status p = "active" -> now < Plan.expiresAt p ->
                db w' = db w).
Proof.
  intros Hnd w'.
  assert (Hsame : forall d, d = setPlans (plans d) d) by (intros []; reflexivity).
  assert (Hnone : forall w0, db w0 = db w ->
            NoDup (map Plan.businessId (plans (db w0)))
            /\ db w0 = setPlans (plans (db w0)) (db w)
            /\ (forall p, Some (Plan.businessId p) <> BusinessOwner.businessId user ->
                          (In p (plans (db w0)) <-> In p (plans (db w))))
            /\ (forall p, In p (plans (db w)) ->
                          Some (Plan.businessId p) = BusinessOwner.businessId user ->
                          Plan.status p = "active" -> now < Plan.expiresAt p ->
                          db w0 = db w)).
  { intros w0 E. rewrite E. repeat split; auto. }
  unfold w', route_postPlan in *. clear w'.
  destruct (BusinessOwner.businessId user) as [b|] eqn:Hb; cbn [truthyZ negb];
    [|apply Hnone; reflexivity].
  destruct (b =? 0) eqn:Hz; cbn [negb orElseZ]; [apply Hnone; reflexivity|].
  pose proof (postPlan_cases b input now serial w) as C. cbv zeta in C.
  destruct (findPlan (db w) b) as [p|] eqn:Hf.
  - destruct (String.eqb (Plan.status p) "active" && (now <? Plan.expiresAt p))
      eqn:Hblock; [apply Hnone; apply C|].
    destruct C as (ps & Hps & Hdb & _). rewrite Hdb. cbn [setPlans plans].
    pose proof (updateFirst_found _ _ _ _ _ Hf Hps) as Hall. cbv beta in Hall.
    pose proof Hf as Hfp. unfold findPlan in Hfp. apply find_some in Hfp.
    destruct Hfp as [Hin Hpb]. apply Z.eqb_eq in Hpb.
    split; [|split; [reflexivity|split]].
    + now rewrite (Forall2_replaced_keys Plan.businessId _ _ _ _ Hall eq_refl).
    + intros q Hq.
      apply (Forall2_replaced_In _ _ _ _
               (fun a => Some (Plan.businessId a) <> Some b) Hall); auto;
        cbn [Plan.businessId]; rewrite Hpb; auto.
    + intros q Hq Hqb Hact Hexp. exfalso.
      injection Hqb as Hqb.
      assert (q = p).
      { pose proof (find_unique Plan.businessId _ q Hnd Hq) as Hu.
        rewrite Hqb in Hu. unfold findPlan in Hf. congruence. }
      subst q. rewrite Hact in Hblock. apply Z.ltb_lt in Hexp.
      rewrite Hexp in Hblock. discriminate.
  - pose proof (find_none_Forall _ _ Hf) as Hnot.
    assert (Hblocked : forall q, In q (plans (db w)) ->
              Some (Plan.businessId q) = Some b -> False).
    { intros q Hq Hqb. injection Hqb as Hqb.
      rewrite Forall_forall in Hnot. specialize (Hnot q Hq). cbv beta in Hnot.
      apply Z.eqb_neq in Hnot. contradiction. }
    destruct (fst (planTerms (PlanInput.name input) (PlanInput.expiresAt input) now))
      as [n|]; [|apply Hnone; apply C].
    destruct (businessExists (db w) b); [|apply Hnone; apply C].
    destruct C as [Hdb _]. rewrite Hdb. cbn [setPlans plans].
    split; [|split; [reflexivity|split]].
    + rewrite map_app. cbn [map Plan.businessId].
      apply (Permutation_NoDup (Permutation_cons_append _ b)).
      constructor; [|exact Hnd].
      intros Hin. apply in_map_iff in Hin. destruct Hin as [q [Hqb Hq]].
      apply (Hblocked q Hq). now rewrite Hqb.
    + intros q Hq. rewrite in_app_iff. cbn [In]. split; [|tauto].
      intros [H|[<-|[]]]; [exact H|]. elim Hq. reflexivity.
    + intros q Hq Hqb _ _. elim (Hblocked q Hq Hqb).
Qed.

Lemma plan_upsert_keeps_one_plan_per_business_witness :
  let w' := fst (route_postPlan (BusinessOwner.mk (Some 2) (Some "Owner"))
                   (PlanInput.mk (Some "Gold Monthly") None (Some "pending"))
                   1000 7 activePlanWorld) in
  NoDup (map Plan.businessId (plans (db w')))
  /\ (In (Plan.mk 1 1 "Monthly" 5000 "active") (plans (db w'))
      <-> In (Plan.mk 1 1 "Monthly" 5000 "active") (plans (db activePlanWorld))).
Proof.
  destruct (plan_upsert_keeps_one_plan_per_business
              (BusinessOwner.mk (Some 2) (Some "Owner"))
              (PlanInput.mk (Some "Gold Monthly") None (Some "pending"))
              1000 7 activePlanWorld)
    as (Hnd & _ & Hother & _).
  - repeat constructor. intros [].
  - split; [exact Hnd|]. apply Hother. discriminate.
Defined.

Definition termDays (t : Term) : Z :=
  match t with
  | Trial => 5
  | Monthly => 30
  | Yearly => 365
  | Unnamed => 30
  end.

(** A plan named for a term gets its expiry from the name: for a name
    the handler reads as trial, monthly or yearly the requested
    expiry date has no influence on the store or the answer, and an
    accepted request stores 5, 30 or 365 days from now. *)
Theorem plan_name_decides_the_expiry
    (user : BusinessOwner.t) (b : Z) (name status : option string)
    (requested other : option Z) (now serial : Z) (w : World) :
  BusinessOwner.businessId user = Some b ->
  termOf name <> Unnamed ->
  let run := route_postPlan user (PlanInput.mk name requested status) now serial w in
  run = route_postPlan user (PlanInput.mk name other status) now serial w
  /\ (planStatusCode (snd run) = 200 ->
      exists p, findPlan (db (fst run)) b = Some p
                /\ Plan.expiresAt p = now + days (termDays (termOf name))).
Proof.
  intros Hb Hterm run.
  assert (Hterms : forall e,
            planTerms name e now
            = (match termOf name with Trial => Some "Free Trial" | _ => name end,
               now + days (termDays (termOf name)))).
  { intros e. unfold planTerms. destruct (termOf name); try reflexivity.
    now elim Hterm. }
  split.
  - unfold run, route_postPlan, postPlan. cbn [PlanInput.name PlanInput.expiresAt].
    now rewrite !Hterms.
  - unfold run, route_postPlan. rewrite Hb. cbn [truthyZ orElseZ].
    destruct (b =? 0) eqn:Hz; cbn [negb]; [intros H; discriminate|].
    pose proof (postPlan_cases b (PlanInput.mk name requested status) now serial w)
      as C. cbv zeta in C. cbn [PlanInput.name PlanInput.expiresAt] in C.
    rewrite Hterms in C. cbn [fst snd] in C.
    destruct (findPlan (db w) b) as [p|] eqn:Hf.
    + destruct (String.eqb (Plan.status p) "active" && (now <? Plan.expiresAt p)).
      * destruct C as [_ ->]. intros H. discriminate.
      * destruct C as (ps & Hps & Hdb & _). intros _. rewrite Hdb.
        eexists. split.
        -- unfold findPlan in *. cbn [setPlans plans].
           apply (updateFirst_find_hit _ _ _ _ _ Hf Hps).
           cbn [Plan.businessId]. apply find_some in Hf. apply Hf.
        -- reflexivity.
    + pose proof (find_none_Forall _ _ Hf) as Hnot.
      destruct (match termOf name with Trial => Some "Free Trial" | _ => name end)
        as [n|]; [|destruct C as [_ ->]; intros H; discriminate].
      destruct (businessExists (db w) b);
        [|destruct C as [_ ->]; intros H; discriminate].
      destruct C as [Hdb _]. intros _. rewrite Hdb. eexists. split.
      * unfold findPlan. cbn [setPlans plans].
        apply find_app_fresh; [exact Hnot|]. cbn [Plan.businessId].
        apply Z.eqb_refl.
      * reflexivity.
Qed.

Lemma plan_name_decides_the_expiry_witness :
  let run := route_postPlan (BusinessOwner.mk (Some 1) (Some "Owner"))
               (PlanInput.mk (Some "Gold MONTHLY") (Some 5) (Some "verified"))
               2000 7 pendingPlanWorld in
  run = route_postPlan (BusinessOwner.mk (Some 1) (Some "Owner"))
          (PlanInput.mk (Some "Gold MONTHLY") None (Some "verified"))
          2000 7 pendingPlanWorld
  /\ option_map Plan.expiresAt (findPlan (db (fst run)) 1) = Some (2000 + days 30).
Proof.
  destruct (plan_name_decides_the_expiry
              (BusinessOwner.mk (Some 1) (Some "Owner")) 1 (Some "Gold MONTHLY")
              (Some "verified") (Some 5) None 2000 7 pendingPlanWorld)
    as [Hsame Hexp].
  - reflexivity.
  - discriminate.
  - split; [exact Hsame|].
    destruct Hexp as (p & Hp & He); [reflexivity|].
    rewrite Hp. cbn [option_map]. now rewrite He.
Defined.

(** ** Plan removal *)

Fixpoint removeFirst {A} (p : A -> bool) (l : list A) : list A :=
  match l with
  | [] => []
  | x :: r => if p x then r else x :: removeFirst p r
  end.

(** [prisma.plan.delete({ where: { businessId } })]: throws when the
    business has no plan. *)
Definition prisma_plan_delete (businessId : Z) : Prisma unit :=
  perform (fun d =>
    match findPlan d businessId with
    | Some _ =>
        Some (setPlans (removeFirst (fun p => Plan.businessId p =? businessId)
                          (plans d)) d, tt)
    | None => None
    end).

(** DELETE /plan/:businessId, after the middleware has set
    [req.businessOwner] to [user]. *)
Definition route_deletePlan (user : BusinessOwner.t) (businessId : Z)
  : World -> World * PlanResponse :=
  if match BusinessOwner.businessId user with
     | Some userBusinessId => negb (userBusinessId =? businessId)
     | None => true
     end
  then fun w => (w, mkPlanResponse 403 (PError "Unauthorized to delete this plan"))
  else
    tryCatchPlan
      (prisma_plan_delete businessId ;;
       ret (mkPlanResponse 200 (PMessage "Plan deleted successfully")))
      (mkPlanResponse 500 (PError "Failed to delete plan")).

Lemma removeFirst_In {A} (key : A -> Z) (k : Z) (l : list A) :
  NoDup (map key l) ->
  forall a, In a (removeFirst (fun x => key x =? k) l) <-> In a l /\ key a <> k.
Proof.
  induction l as [|x l IH]; simpl; intros Hnd a; [tauto|].
  apply NoDup_cons_iff in Hnd. destruct Hnd as [Hnotin Hnd].
  destruct (Z.eqb_spec (key x) k) as [E|E].
  - split.
    + intros Ha. split; [auto|]. intros Hk. apply Hnotin.
      rewrite E, <- Hk. now apply in_map.
    + intros [[<-|Ha] Hk]; [contradiction | exact Ha].
  - simpl. rewrite (IH Hnd a). split.
    + intros [<-|[Ha Hk]]; auto.
    + intros [[<-|Ha] Hk]; auto.
Qed.

(** DELETE /plan/:businessId removes the caller's own plan and nothing
    else.  With at most one plan per business: the answer is 200
    exactly when the token's business is the addressed one and has a
    plan; then the plans left are the plans of the other businesses,
    each as it was; on every other answer the store is unchanged.  A
    SuperAdmin of another business is refused like anyone else. *)
Theorem plan_delete_removes_only_the_callers_plan
    (user : BusinessOwner.t) (businessId : Z) (w : World) :
  NoDup (map Plan.businessId (plans (db w))) ->
  let run := route_deletePlan user businessId w in
  (planStatusCode (snd run) = 200
   <-> BusinessOwner.businessId user = Some businessId
       /\ findPlan (db w) businessId <> None)
  /\ (planStatusCode (snd run) = 200 ->
      db (fst run) = setPlans (plans (db (fst run))) (db w)
      /\ forall p, In p (plans (db (fst run)))
                   <-> In p (plans (db w)) /\ Plan.businessId p <> businessId)
  /\ (planStatusCode (snd run) <> 200 -> db (fst run) = db w).
Proof.
  intros Hnd run. unfold run, route_deletePlan.
  destruct (BusinessOwner.businessId user) as [ub|] eqn:Hub.
  - destruct (Z.eqb_spec ub businessId) as [->|Hne]; cbn [negb].
    + unfold tryCatchPlan. rewrite bind_run.
      unfold prisma_plan_delete, perform.
      destruct (findPlan (db w) businessId) as [p|] eqn:Hf; cbn.
      * split; [split; [intros _; split; [reflexivity | discriminate] | reflexivity]|].
        split; [|intros H; now elim H].
        intros _. split; [reflexivity|]. now apply removeFirst_In.
      * split; [split; [intros H; discriminate | intros [_ H]; now elim H]|].
        split; [intros H; discriminate | reflexivity].
    + cbn. split; [split; [intros H; discriminate | intros [H _]; congruence]|].
      split; [intros H; discriminate | reflexivity].
  - cbn. split; [split; [intros H; discriminate | intros [H _]; discriminate]|].
    split; [intros H; discriminate | reflexivity].
Qed.

Lemma plan_delete_removes_only_the_callers_plan_witness :
  plans (db (fst (route_deletePlan (BusinessOwner.mk (Some 2) (Some "Owner")) 2
                    twoPlansWorld)))
  = [Plan.mk 1 1 "Monthly" 500 "active"]
  /\ db (fst (route_deletePlan (BusinessOwner.mk (Some 9) (Some "SuperAdmin")) 2
                twoPlansWorld))
     = db twoPlansWorld.
Proof.
  split.
  - reflexivity.
  - apply (plan_delete_removes_only_the_callers_plan
             (BusinessOwner.mk (Some 9) (Some "SuperAdmin")) 2 twoPlansWorld).
    + repeat constructor; simpl; intuition discriminate.
    + discriminate.
Defined.

(** ** Table registration *)









